(** * Streaming / session core of the agent chat front end

    A shallow embedding of the browser-side chat client
    ([AgentPreview], [OrchestrationPanel]) and the properties of its
    response-assembly protocol.

    - JavaScript strings are sequences of UTF-16 code units: [list N].
    - React state, the [window] global holding the poller handle, the
      interval timers of the page, the console's error log and the network
      requests issued so far are the fields of one explicit [World] that
      every operation threads through.
    - [IChatItem] objects live in a store and the message list holds their
      addresses, because [createAssistantMessageDiv] returns the very object
      it has pushed and [appendAssistantMessage] mutates it.
    - What the platform provides ([fetch] results, [JSON.parse], the text
      produced by [TextDecoder.decode]) is an input of the model.
    - The handlers are first given as they run to their end through the
      closures of the render current at the call, with a state updater
      run when it is queued (as when a render follows every update).
    - The page does more: [onSend] reads the state constants of the
      render whose context the chat input holds, a call is suspended at
      each [await], and the reader that [handleMessages] starts is not
      awaited. The section on renders, closures and suspended calls
      gives the handlers in these pieces and the page that runs them. *)

From Stdlib Require Import String Ascii DecimalString.
From stdpp Require Import base numbers list.

Local Open Scope Z_scope.

(** ** JavaScript strings *)

Module JS.

Definition code_unit := N.
Definition jsstring := list code_unit.

(** A literal: the code units of an ASCII text. *)
Definition str (s : string) : jsstring :=
  N_of_ascii <$> list_ascii_of_string s.

(** A literal written with single quotes where the text has double quotes
    (JSON payloads). *)
Definition lit (s : string) : jsstring :=
  (fun c => if (c =? 39)%N then 34%N else c) <$> str s.

Definition code_unit_eqb : code_unit -> code_unit -> bool := N.eqb.

Fixpoint eqb (a b : jsstring) : bool :=
  match a, b with
  | [], [] => true
  | x :: a', y :: b' => code_unit_eqb x y && eqb a' b'
  | _, _ => false
  end.

(** Relative index of [String.prototype.slice]: a negative index counts
    from the end, and the result is clamped to [0, len]. *)
Definition rel_index (len i : Z) : Z :=
  if i <? 0 then Z.max (len + i) 0 else Z.min i len.

(** [s.slice(from, to)]; [to = None] is the one-argument call. *)
Definition slice (s : jsstring) (from : Z) (to : option Z) : jsstring :=
  let len := Z.of_nat (length s) in
  let k := rel_index len from in
  let final := match to with
               | None => len
               | Some e => rel_index len e
               end in
  take (Z.to_nat (final - k)) (drop (Z.to_nat k) s).

(** [s.indexOf(c)] for a one-unit needle; [None] is the result -1. *)
Fixpoint indexOf (c : code_unit) (s : jsstring) : option nat :=
  match s with
  | [] => None
  | x :: s' => if code_unit_eqb x c then Some 0%nat else S <$> indexOf c s'
  end.

(** [s.startsWith(p)] *)
Fixpoint startsWith (s p : jsstring) : bool :=
  match p, s with
  | [], _ => true
  | c :: p', x :: s' => code_unit_eqb x c && startsWith s' p'
  | _ :: _, [] => false
  end.

(** [s.split(c)] for a one-unit separator. *)
Fixpoint split (c : code_unit) (s : jsstring) : list jsstring :=
  match s with
  | [] => [[]]
  | x :: s' =>
      if code_unit_eqb x c then [] :: split c s'
      else match split c s' with
           | piece :: pieces => (x :: piece) :: pieces
           | [] => [[x]]
           end
  end.

(** White space and line terminators, as [String.prototype.trim] removes
    them. *)
Definition is_white (c : code_unit) : bool :=
  ((9 <=? c) && (c <=? 13) || (c =? 32) || (c =? 160) || (c =? 5760)
   || (8192 <=? c) && (c <=? 8202) || (c =? 8232) || (c =? 8233)
   || (c =? 8239) || (c =? 8287) || (c =? 12288) || (c =? 65279))%N.

Fixpoint trimStart (s : jsstring) : jsstring :=
  match s with
  | [] => []
  | c :: s' => if is_white c then trimStart s' else s
  end.

Definition trim (s : jsstring) : jsstring :=
  reverse (trimStart (reverse (trimStart s))).

(** The values a content variable of the client takes. A content field
    read off a parsed event is a string or [undefined]; [+=] on those
    yields strings, or [NaN] when neither side is a string. *)
Inductive value :=
| VUndefined
| VNaN
| VString (s : jsstring).

Definition of_field (o : option jsstring) : value :=
  match o with
  | Some s => VString s
  | None => VUndefined
  end.

(** The [+] operator on these values. *)
Definition add (a b : value) : value :=
  match a, b with
  | VString x, VString y => VString (x ++ y)
  | VString x, VUndefined => VString (x ++ str "undefined")
  | VString x, VNaN => VString (x ++ str "NaN")
  | VUndefined, VString y => VString (str "undefined" ++ y)
  | VNaN, VString y => VString (str "NaN" ++ y)
  | _, _ => VNaN
  end.

(** [a || b] on optional strings: the empty string and [undefined] are
    falsy. *)
Definition or_else (a : option jsstring) (b : jsstring) : jsstring :=
  match a with
  | Some (c :: s) => c :: s
  | _ => b
  end.

End JS.

Import JS.

(** ** Annotations and their rewriting *)

Record IAnnotation := {
  file_name : option jsstring;
  text : jsstring;
  start_index : Z;
  end_index : Z;
}.

(** The replacement text of one annotation: a truthy [file_name] wrapped
    in brackets, else [text]. *)
Definition linkText (annotation : IAnnotation) : jsstring :=
  match file_name annotation with
  | Some (c :: f) => str "[" ++ (c :: f) ++ str "]"
  | _ => text annotation
  end.

(** The body of the [forEach] callback. *)
Definition splice (content : jsstring) (annotation : IAnnotation) : jsstring :=
  slice content 0 (Some (start_index annotation))
  ++ linkText annotation
  ++ slice content (end_index annotation) None.

(** [preprocessContent]. [annotations = None] is a call without the
    argument (or with [undefined]). The result is [None] when the call
    throws: [content.slice] on a value that is not a string. *)
Definition preprocessContent (content : value)
    (annotations : option (list IAnnotation)) : option value :=
  match annotations with
  | None => Some content
  | Some anns =>
      match reverse anns with
      | [] => Some content
      | first :: others =>
          match content with
          | VString s => Some (VString (foldl splice s (first :: others)))
          | _ => None
          end
      end
  end.

(** ** The transcript and the component state *)

Inductive Role := user | assistant.

(** Identifiers come from the clock or from [crypto.randomUUID]; both are
    drawn from the [entropy] counter of the world. *)
Inductive ItemId :=
| UserId (n : nat)
| AssistantId (n : nat)
| ErrorId (n : nat)
| HistoryId (n : nat)
| UUID (n : nat).

(** [IChatItem], without the display-only [more.time] stamp. An absent
    [role] is [None], an absent [isAnswer] is [false]. *)
Record IChatItem := {
  item_id : ItemId;
  content : value;
  role : option Role;
  isAnswer : bool;
}.

Definition with_content (c : value) (item : IChatItem) : IChatItem :=
  {| item_id := item_id item; content := c; role := role item;
     isAnswer := isAnswer item |}.

Inductive Method := GET | POST.

(** A field of a request body: a string or an array of strings. *)
Inductive BodyField :=
| Text (s : jsstring)
| Texts (l : list jsstring).

(** A request as handed to [fetch]; the body is the object given to
    [JSON.stringify], as its list of fields. *)
Record Request := {
  url : jsstring;
  method : Method;
  body : option (list (jsstring * BodyField));
}.

(** One agent-thinking message. *)
Record Thinking := {
  agent_name : jsstring;
  thinking_content : jsstring;
}.

Record World := {
  (* objects of type IChatItem, by address *)
  store : list IChatItem;
  (* React state of AgentPreview *)
  messageList : list nat;
  isResponding : bool;
  isOrchestrationMode : bool;
  orchestrationInitialized : bool;
  showAgentThinking : bool;
  agentThinkingMessages : list Thinking;
  isPollingThinking : bool;
  (* window.agentThinkingInterval; None is null or undefined *)
  agentThinkingInterval : option nat;
  (* the page: live interval timers and the next timer id *)
  timers : list nat;
  nextTimer : nat;
  (* the outside: requests issued, console.error lines, entropy *)
  requests : list Request;
  errors : list jsstring;
  entropy : nat;
}.

Definition initial : World :=
  {| store := []; messageList := []; isResponding := false;
     isOrchestrationMode := false; orchestrationInitialized := false;
     showAgentThinking := false; agentThinkingMessages := [];
     isPollingThinking := false; agentThinkingInterval := None;
     timers := []; nextTimer := 1%nat; requests := []; errors := [];
     entropy := 0%nat |}.

Definition upd_store (f : list IChatItem -> list IChatItem) (w : World) : World :=
  {| store := f (store w); messageList := messageList w;
     isResponding := isResponding w;
     isOrchestrationMode := isOrchestrationMode w;
     orchestrationInitialized := orchestrationInitialized w;
     showAgentThinking := showAgentThinking w;
     agentThinkingMessages := agentThinkingMessages w;
     isPollingThinking := isPollingThinking w;
     agentThinkingInterval := agentThinkingInterval w;
     timers := timers w; nextTimer := nextTimer w;
     requests := requests w; errors := errors w; entropy := entropy w |}.

Definition setMessageList (f : list nat -> list nat) (w : World) : World :=
  {| store := store w; messageList := f (messageList w);
     isResponding := isResponding w;
     isOrchestrationMode := isOrchestrationMode w;
     orchestrationInitialized := orchestrationInitialized w;
     showAgentThinking := showAgentThinking w;
     agentThinkingMessages := agentThinkingMessages w;
     isPollingThinking := isPollingThinking w;
     agentThinkingInterval := agentThinkingInterval w;
     timers := timers w; nextTimer := nextTimer w;
     requests := requests w; errors := errors w; entropy := entropy w |}.

Definition setIsResponding (b : bool) (w : World) : World :=
  {| store := store w; messageList := messageList w;
     isResponding := b;
     isOrchestrationMode := isOrchestrationMode w;
     orchestrationInitialized := orchestrationInitialized w;
     showAgentThinking := showAgentThinking w;
     agentThinkingMessages := agentThinkingMessages w;
     isPollingThinking := isPollingThinking w;
     agentThinkingInterval := agentThinkingInterval w;
     timers := timers w; nextTimer := nextTimer w;
     requests := requests w; errors := errors w; entropy := entropy w |}.

Definition setIsOrchestrationMode (b : bool) (w : World) : World :=
  {| store := store w; messageList := messageList w;
     isResponding := isResponding w;
     isOrchestrationMode := b;
     orchestrationInitialized := orchestrationInitialized w;
     showAgentThinking := showAgentThinking w;
     agentThinkingMessages := agentThinkingMessages w;
     isPollingThinking := isPollingThinking w;
     agentThinkingInterval := agentThinkingInterval w;
     timers := timers w; nextTimer := nextTimer w;
     requests := requests w; errors := errors w; entropy := entropy w |}.

Definition setOrchestrationInitialized (b : bool) (w : World) : World :=
  {| store := store w; messageList := messageList w;
     isResponding := isResponding w;
     isOrchestrationMode := isOrchestrationMode w;
     orchestrationInitialized := b;
     showAgentThinking := showAgentThinking w;
     agentThinkingMessages := agentThinkingMessages w;
     isPollingThinking := isPollingThinking w;
     agentThinkingInterval := agentThinkingInterval w;
     timers := timers w; nextTimer := nextTimer w;
     requests := requests w; errors := errors w; entropy := entropy w |}.

Definition setShowAgentThinking (b : bool) (w : World) : World :=
  {| store := store w; messageList := messageList w;
     isResponding := isResponding w;
     isOrchestrationMode := isOrchestrationMode w;
     orchestrationInitialized := orchestrationInitialized w;
     showAgentThinking := b;
     agentThinkingMessages := agentThinkingMessages w;
     isPollingThinking := isPollingThinking w;
     agentThinkingInterval := agentThinkingInterval w;
     timers := timers w; nextTimer := nextTimer w;
     requests := requests w; errors := errors w; entropy := entropy w |}.

Definition setAgentThinkingMessages (m : list Thinking) (w : World) : World :=
  {| store := store w; messageList := messageList w;
     isResponding := isResponding w;
     isOrchestrationMode := isOrchestrationMode w;
     orchestrationInitialized := orchestrationInitialized w;
     showAgentThinking := showAgentThinking w;
     agentThinkingMessages := m;
     isPollingThinking := isPollingThinking w;
     agentThinkingInterval := agentThinkingInterval w;
     timers := timers w; nextTimer := nextTimer w;
     requests := requests w; errors := errors w; entropy := entropy w |}.

Definition setIsPollingThinking (b : bool) (w : World) : World :=
  {| store := store w; messageList := messageList w;
     isResponding := isResponding w;
     isOrchestrationMode := isOrchestrationMode w;
     orchestrationInitialized := orchestrationInitialized w;
     showAgentThinking := showAgentThinking w;
     agentThinkingMessages := agentThinkingMessages w;
     isPollingThinking := b;
     agentThinkingInterval := agentThinkingInterval w;
     timers := timers w; nextTimer := nextTimer w;
     requests := requests w; errors := errors w; entropy := entropy w |}.

Definition set_agentThinkingInterval (h : option nat) (w : World) : World :=
  {| store := store w; messageList := messageList w;
     isResponding := isResponding w;
     isOrchestrationMode := isOrchestrationMode w;
     orchestrationInitialized := orchestrationInitialized w;
     showAgentThinking := showAgentThinking w;
     agentThinkingMessages := agentThinkingMessages w;
     isPollingThinking := isPollingThinking w;
     agentThinkingInterval := h;
     timers := timers w; nextTimer := nextTimer w;
     requests := requests w; errors := errors w; entropy := entropy w |}.

(** [setInterval]: a new live timer; its id is returned. *)
Definition setInterval (w : World) : nat * World :=
  (nextTimer w,
   {| store := store w; messageList := messageList w;
      isResponding := isResponding w;
      isOrchestrationMode := isOrchestrationMode w;
      orchestrationInitialized := orchestrationInitialized w;
      showAgentThinking := showAgentThinking w;
      agentThinkingMessages := agentThinkingMessages w;
      isPollingThinking := isPollingThinking w;
      agentThinkingInterval := agentThinkingInterval w;
      timers := timers w ++ [nextTimer w]; nextTimer := S (nextTimer w);
      requests := requests w; errors := errors w; entropy := entropy w |}).

(** [clearInterval(h)] *)
Definition clearInterval (h : nat) (w : World) : World :=
  {| store := store w; messageList := messageList w;
     isResponding := isResponding w;
     isOrchestrationMode := isOrchestrationMode w;
     orchestrationInitialized := orchestrationInitialized w;
     showAgentThinking := showAgentThinking w;
     agentThinkingMessages := agentThinkingMessages w;
     isPollingThinking := isPollingThinking w;
     agentThinkingInterval := agentThinkingInterval w;
     timers := filter (fun t => t <> h) (timers w); nextTimer := nextTimer w;
     requests := requests w; errors := errors w; entropy := entropy w |}.

(** [fetch(url, ...)]: the request joins the log. *)
Definition fetch (r : Request) (w : World) : World :=
  {| store := store w; messageList := messageList w;
     isResponding := isResponding w;
     isOrchestrationMode := isOrchestrationMode w;
     orchestrationInitialized := orchestrationInitialized w;
     showAgentThinking := showAgentThinking w;
     agentThinkingMessages := agentThinkingMessages w;
     isPollingThinking := isPollingThinking w;
     agentThinkingInterval := agentThinkingInterval w;
     timers := timers w; nextTimer := nextTimer w;
     requests := requests w ++ [r]; errors := errors w;
     entropy := entropy w |}.

(** [console.error(label, ...)] *)
Definition console_error (label : jsstring) (w : World) : World :=
  {| store := store w; messageList := messageList w;
     isResponding := isResponding w;
     isOrchestrationMode := isOrchestrationMode w;
     orchestrationInitialized := orchestrationInitialized w;
     showAgentThinking := showAgentThinking w;
     agentThinkingMessages := agentThinkingMessages w;
     isPollingThinking := isPollingThinking w;
     agentThinkingInterval := agentThinkingInterval w;
     timers := timers w; nextTimer := nextTimer w;
     requests := requests w; errors := errors w ++ [label];
     entropy := entropy w |}.

(** [Date.now()] or [crypto.randomUUID()] *)
Definition draw (w : World) : nat * World :=
  (entropy w,
   {| store := store w; messageList := messageList w;
      isResponding := isResponding w;
      isOrchestrationMode := isOrchestrationMode w;
      orchestrationInitialized := orchestrationInitialized w;
      showAgentThinking := showAgentThinking w;
      agentThinkingMessages := agentThinkingMessages w;
      isPollingThinking := isPollingThinking w;
      agentThinkingInterval := agentThinkingInterval w;
      timers := timers w; nextTimer := nextTimer w;
      requests := requests w; errors := errors w;
      entropy := S (entropy w) |}).

(** A new object; its address is returned. *)
Definition alloc (item : IChatItem) (w : World) : nat * World :=
  (length (store w), upd_store (fun s => s ++ [item]) w).

(** What the rendering layer reads: the objects of the message list. *)
Definition rendered (w : World) : list (option IChatItem) :=
  (fun a => store w !! a) <$> messageList w.

(** The displayed content of the last turn. *)
Definition last_content (w : World) : option value :=
  a ← last (messageList w); content <$> store w !! a.

(** Results of a [fetch]: a rejected promise carrying the error, or a
    response with its [ok] flag. *)
Record JsError := {
  name : jsstring;
  message : jsstring;
}.

Inductive Fetched (A : Type) :=
| Rejected (e : JsError)
| Responded (ok : bool) (payload : A).
Arguments Rejected {A} e.
Arguments Responded {A} ok payload.

(** ** The thinking poller *)

Definition thinking_url : jsstring := str "/orchestration/agent-thinking".
Definition status_url : jsstring := str "/orchestration/status".
Definition orchestration_chat_url : jsstring := str "/orchestration/chat".
Definition chat_url : jsstring := str "/chat".

(** The answer of the agent-thinking endpoint; [messages = None] is an
    absent (falsy) field. *)
Record ThinkingData := {
  thinking_status : option jsstring;
  messages : option (list Thinking);
}.

Definition is_string (o : option jsstring) (s : jsstring) : bool :=
  match o with
  | Some x => eqb x s
  | None => false
  end.

(** [fetchAgentThinking]; a payload [None] is a body that [json()]
    rejects. *)
Definition fetchAgentThinking (r : Fetched (option ThinkingData)) (w : World)
    : World :=
  let w := fetch {| url := thinking_url; method := GET; body := None |} w in
  match r with
  | Rejected _ => console_error (str "Error fetching agent thinking:") w
  | Responded false _ => w
  | Responded true None =>
      console_error (str "Error fetching agent thinking:") w
  | Responded true (Some data) =>
      if is_string (thinking_status data) (str "success")
      then setAgentThinkingMessages (default [] (messages data)) w
      else w
  end.

Definition startAgentThinkingPolling (w : World) : World :=
  if showAgentThinking w && isOrchestrationMode w
     && negb (isPollingThinking w)
  then
    let w := setIsPollingThinking true w in
    let '(pollInterval, w) := setInterval w in
    set_agentThinkingInterval (Some pollInterval) w
  else w.

Definition stopAgentThinkingPolling (w : World) : World :=
  let w := setIsPollingThinking false w in
  match agentThinkingInterval w with
  | Some h => set_agentThinkingInterval None (clearInterval h w)
  | None => w
  end.

Definition stopRespondingAndPolling (w : World) : World :=
  stopAgentThinkingPolling (setIsResponding false w).

(** One interval window elapses: every live timer fires its callback
    once. *)
Definition interval_elapses (r : Fetched (option ThinkingData)) (w : World)
    : World :=
  foldl (fun w _ => fetchAgentThinking r w) w (timers w).

(** ** Updating the open assistant turn *)

Definition createAssistantMessageDiv (w : World) : nat * World :=
  let '(n, w) := draw w in
  let item := {| item_id := UUID n; content := VString []; role := None;
                 isAnswer := true |} in
  let '(a, w) := alloc item w in
  (a, setMessageList (fun prev => prev ++ [a]) w).

(** [prev.slice(0, -1)] *)
Definition slice_0_m1 (prev : list nat) : list nat :=
  take (Z.to_nat (rel_index (Z.of_nat (length prev)) (-1))) prev.

(** [appendAssistantMessage]. The try block ends at the first throw
    ([preprocessContent] on a value without [slice]); the catch logs.
    The updater handed to [setMessageList] is run at once, so the copy
    [{...chatItem}] is taken here; [replace_last_with_copy] below is
    that updater on its own, for a run at any later state. Scrolling
    the finished turn into view is a DOM effect outside this state. *)
Definition appendAssistantMessage (chatItem : nat) (accumulatedContent : value)
    (isStreaming : bool) (annotations : option (list IAnnotation))
    (w : World) : World :=
  match preprocessContent accumulatedContent annotations with
  | None => console_error (str "Error in appendAssistantMessage:") w
  | Some htmlContent =>
      let w := upd_store (alter (with_content htmlContent) chatItem) w in
      match store w !! chatItem with
      | None => w
      | Some copy =>
          let '(a, w) := alloc copy w in
          setMessageList (fun prev => slice_0_m1 prev ++ [a]) w
      end
  end.

Definition clearAssistantMessage (chatItem : nat) (w : World) : World :=
  upd_store (alter (with_content (VString [])) chatItem) w.

(** ** The stream decoder *)

(** A parsed event, as the decoder reads it: [ev_error] is a truthy
    [data.error] with its [message]; the other fields are [None] when
    absent. *)
Record SSEData := {
  ev_error : option (option jsstring);
  ev_type : option jsstring;
  ev_content : option jsstring;
  ev_annotations : option (list IAnnotation);
}.

(** The variables of one [handleMessages] call. *)
Record StreamState := {
  chatItem : option nat;
  accumulatedContent : value;
  isStreaming : bool;
  buffer : jsstring;
  annotations : option (list IAnnotation);
}.

Definition handleMessages_init : StreamState :=
  {| chatItem := None; accumulatedContent := VString [];
     isStreaming := true; buffer := []; annotations := Some [] |}.

Definition set_buffer (b : jsstring) (st : StreamState) : StreamState :=
  {| chatItem := chatItem st; accumulatedContent := accumulatedContent st;
     isStreaming := isStreaming st; buffer := b;
     annotations := annotations st |}.

Definition set_chatItem (c : option nat) (st : StreamState) : StreamState :=
  {| chatItem := c; accumulatedContent := accumulatedContent st;
     isStreaming := isStreaming st; buffer := buffer st;
     annotations := annotations st |}.

Definition set_accumulatedContent (v : value) (st : StreamState) : StreamState :=
  {| chatItem := chatItem st; accumulatedContent := v;
     isStreaming := isStreaming st; buffer := buffer st;
     annotations := annotations st |}.

Definition completed (v : value) (anns : option (list IAnnotation))
    (st : StreamState) : StreamState :=
  {| chatItem := chatItem st; accumulatedContent := v;
     isStreaming := false; buffer := buffer st;
     annotations := anns |}.

(** How the body of the inner loop ends. *)
Inductive Flow := Continue | Break | Return.

(** [if (!chatItem) chatItem = createAssistantMessageDiv()] *)
Definition ensure_chatItem (st : StreamState) (w : World)
    : nat * StreamState * World :=
  match chatItem st with
  | Some c => (c, st, w)
  | None =>
      let '(c, w) := createAssistantMessageDiv w in
      (c, set_chatItem (Some c) st, w)
  end.

Definition newline : code_unit := 10%N.

Section Decoder.

(** [JSON.parse] followed by the decoder's reads of the event's fields;
    [None] when [JSON.parse] throws. The payload of a record is taken to
    be an object, as the endpoint's contract has it. *)
Variable JSON_parse : jsstring -> option SSEData.

(** The body of the inner loop for one extracted line [chunk]. *)
Definition handleRecord (chunk : jsstring) (st : StreamState) (w : World)
    : Flow * StreamState * World :=
  if startsWith chunk (str "data: ") then
    let jsonStr := slice chunk 6 None in
    match JSON_parse jsonStr with
    | None =>
        (Continue, st, console_error (str "[ChatClient] Failed to parse JSON:") w)
    | Some data =>
        match ev_error data with
        | Some error_message =>
            let '(c, st, w) := ensure_chatItem st w in
            let w := stopRespondingAndPolling w in
            let w := appendAssistantMessage c
                       (VString (or_else error_message (str "An error occurred.")))
                       false None w in
            (Return, st, w)
        | None =>
            if is_string (ev_type data) (str "stream_end") then
              (Break, st, stopRespondingAndPolling w)
            else if is_string (ev_type data) (str "thread_run") then
              (Continue, st, w)
            else
              let '(c, st, w) := ensure_chatItem st w in
              let '(st, w) :=
                if is_string (ev_type data) (str "completed_message") then
                  let w := clearAssistantMessage c w in
                  let st := completed (of_field (ev_content data))
                              (ev_annotations data) st in
                  (st, stopRespondingAndPolling w)
                else
                  (set_accumulatedContent
                     (add (accumulatedContent st) (of_field (ev_content data)))
                     st, w) in
              let w := appendAssistantMessage c (accumulatedContent st)
                         (isStreaming st) (annotations st) w in
              (Continue, st, w)
        end
    end
  else (Continue, st, w).

(** The inner loop [while (boundary !== -1)]. Every turn removes a line
    and its newline from the buffer, so [length (buffer st)] turns are
    enough; [fuel] counts them. The result tells whether the body
    returned from [readStream]. *)
Fixpoint processBuffer (fuel : nat) (st : StreamState) (w : World)
    : bool * StreamState * World :=
  match indexOf newline (buffer st) with
  | None => (false, st, w)
  | Some boundary =>
      match fuel with
      | O => (false, st, w)
      | S fuel =>
          let chunk := trim (slice (buffer st) 0 (Some (Z.of_nat boundary))) in
          let st := set_buffer (slice (buffer st) (Z.of_nat boundary + 1) None) st in
          match handleRecord chunk st w with
          | (Continue, st, w) => processBuffer fuel st w
          | (Break, st, w) => (false, st, w)
          | (Return, st, w) => (true, st, w)
          end
      end
  end.

(** The outer loop [while (true)] over the reads of the stream: each
    element of [reads] is the text [decoder.decode] gave for one read;
    after the last one the reader reports [done] (or rejects), which
    leaves the loop. *)
Fixpoint readStream (reads : list jsstring) (st : StreamState) (w : World)
    : StreamState * World :=
  match reads with
  | [] => (st, w)
  | textChunk :: reads =>
      let st := set_buffer (buffer st ++ textChunk) st in
      match processBuffer (length (buffer st)) st w with
      | (true, st, w) => (st, w)
      | (false, st, w) => readStream reads st w
      end
  end.

Definition handleMessages (stream : list jsstring) (w : World) : World :=
  (readStream stream handleMessages_init w).2.

End Decoder.

(** ** Sending a message *)

(** The answer of the status endpoint, as the client reads it:
    [statusData.status] and [statusData.orchestration_info?.status]. *)
Record StatusData := {
  status : option jsstring;
  info_status : option jsstring;
}.

(** The answer of the orchestration chat endpoint: [orchestration_result]
    is [Some] when the field is truthy and then holds its [result]. *)
Record OrchestrationReply := {
  reply_status : option jsstring;
  orchestration_result : option (option jsstring);
  reply_error : option jsstring;
}.

(** A response to the chat request: what [response.json()] resolves to
    ([None] when it rejects) and the reads of [response.body] ([None]
    when the body is null). *)
Record ChatPayload := {
  as_json : option OrchestrationReply;
  as_stream : option (list jsstring);
}.

Definition push (item : IChatItem) (w : World) : World :=
  let '(a, w) := alloc item w in
  setMessageList (fun prev => prev ++ [a]) w.

(** [fetchOrchestrationStatus] *)
Definition fetchOrchestrationStatus (r : Fetched (option StatusData))
    (w : World) : World :=
  let w := fetch {| url := status_url; method := GET; body := None |} w in
  match r with
  | Rejected _ => console_error (str "Error fetching orchestration status:") w
  | Responded false _ => w
  | Responded true None =>
      console_error (str "Error fetching orchestration status:") w
  | Responded true (Some data) =>
      if is_string (status data) (str "success")
      then setOrchestrationInitialized
             (is_string (info_status data) (str "initialized")) w
      else w
  end.

(** [handleOrchestrationModeChange]: the click handler asks for the
    status once when the mode is switched on. *)
Definition handleOrchestrationModeChange (enabled : bool)
    (r : Fetched (option StatusData)) (w : World) : World :=
  let w := setIsOrchestrationMode enabled w in
  if negb enabled then setOrchestrationInitialized false w
  else fetchOrchestrationStatus r w.

Definition handleShowAgentThinkingChange (enabled : bool) (w : World) : World :=
  setShowAgentThinking enabled w.

(** [handleCleanupOrchestration] *)
Definition handleCleanupOrchestration (r : Fetched unit) (w : World) : World :=
  let w := fetch {| url := str "/orchestration/cleanup"; method := POST;
                    body := None |} w in
  match r with
  | Rejected _ => console_error (str "Error cleaning up orchestration:") w
  | Responded true _ => setOrchestrationInitialized false w
  | Responded false _ => w
  end.

(** [handleInitializeOrchestration]; [orchestrationAgentIds] is the text
    of the settings field, [status_result] the answer to the status
    request that follows a successful initialization. *)
Definition handleInitializeOrchestration (orchestrationAgentIds : jsstring)
    (r : Fetched unit) (status_result : Fetched (option StatusData))
    (w : World) : World :=
  let w := fetch {| url := str "/orchestration/initialize"; method := POST;
                    body := Some [(str "agent_ids",
                                   Texts (trim <$> split 44%N orchestrationAgentIds))] |}
             w in
  match r with
  | Rejected _ => console_error (str "Error initializing orchestration:") w
  | Responded true _ => fetchOrchestrationStatus status_result w
  | Responded false _ => w
  end.

(** An entry of the chat history, as [loadChatHistory] reads it. *)
Record HistoryEntry := {
  entry_role : jsstring;
  entry_content : jsstring;
  entry_annotations : option (list IAnnotation);
}.

(** The item that [loadChatHistory] builds for one entry. The content
    of an entry is a string, on which [preprocessContent] does not throw. *)
Definition history_item (n : nat) (entry : HistoryEntry) : IChatItem :=
  if eqb (entry_role entry) (str "user") then
    {| item_id := UUID n; content := VString (entry_content entry);
       role := Some user; isAnswer := false |}
  else
    {| item_id := HistoryId n;
       content := default (VString (entry_content entry))
                    (preprocessContent (VString (entry_content entry))
                       (entry_annotations entry));
       role := Some assistant; isAnswer := true |}.

(** The error turn of [loadChatHistory]. *)
Definition history_error (w : World) : World :=
  let '(errorChatItem, w) := createAssistantMessageDiv w in
  appendAssistantMessage errorChatItem
    (VString (str "Error occurs while loading chat history!")) false None w.

(** [loadChatHistory]: the answer lists the newest entry first. *)
Definition loadChatHistory (r : Fetched (option (list HistoryEntry)))
    (w : World) : World :=
  let w := fetch {| url := str "/chat/history"; method := GET; body := None |} w in
  match r with
  | Responded true (Some json_response) =>
      let '(historyMessages, w) :=
        foldl (fun acc entry =>
                 let '(n, w) := draw acc.2 in
                 let '(a, w) := alloc (history_item n entry) w in
                 (acc.1 ++ [a], w))
              ([], w) (reverse json_response) in
      setMessageList (fun prev => historyMessages ++ prev) w
  | Responded true None | Rejected _ =>
      history_error (console_error (str "Failed to load chat history:") w)
  | Responded false _ => history_error w
  end.

(** [newThread]; the cookies it deletes are not part of this state. *)
Definition newThread (w : World) : World :=
  setMessageList (fun _ => []) w.

(** The status check of [onSend] when the mode is on and the cached flag
    is off: whether orchestration is to be used, and the new world. *)
Definition revalidate (r : Fetched (option StatusData)) (w : World)
    : bool * World :=
  let w := fetch {| url := status_url; method := GET; body := None |} w in
  match r with
  | Rejected _ =>
      (false, console_error (str "[ChatClient] Error checking orchestration status:") w)
  | Responded false _ => (false, w)
  | Responded true None =>
      (false, console_error (str "[ChatClient] Error checking orchestration status:") w)
  | Responded true (Some statusData) =>
      if is_string (status statusData) (str "success")
         && is_string (info_status statusData) (str "initialized")
      then (true, setOrchestrationInitialized true w)
      else (false, w)
  end.

(** The catch block of [onSend]. *)
Definition onSend_catch (error : JsError) (w : World) : World :=
  let w := stopRespondingAndPolling w in
  if eqb (name error) (str "AbortError") then w
  else console_error (str "[ChatClient] Fetch failed:") w.

Section Session.

Variable JSON_parse : jsstring -> option SSEData.

(** [onSend] from the choice of the endpoint on, once [useOrchestration]
    is settled, with nothing running in between: the stream of a
    streaming response is read to its end. [onSend_request],
    [chat_answer] and [read_arrives] below are its pieces between the
    points of suspension. *)
Definition onSend_dispatch (useOrchestration : bool) (message : jsstring)
    (chat_result : Fetched ChatPayload) (w : World) : World :=
  let endpoint :=
    if useOrchestration then orchestration_chat_url else chat_url in
  let postData :=
    if useOrchestration then [(str "query", Text message)]
    else [(str "message", Text message)] in
  let w := setIsResponding true w in
  let w :=
    if useOrchestration && showAgentThinking w
    then startAgentThinkingPolling w else w in
  let w := fetch {| url := endpoint; method := POST;
                    body := Some postData |} w in
  match chat_result with
  | Rejected error => onSend_catch error w
  | Responded false _ =>
      console_error (str "[ChatClient] Response not OK:") w
  | Responded true response =>
      if useOrchestration then
        match as_json response with
        | None =>
            onSend_catch {| name := str "SyntaxError"; message := [] |} w
        | Some jsonResponse =>
            let '(n, w) := draw w in
            let w :=
              match is_string (reply_status jsonResponse) (str "success"),
                    orchestration_result jsonResponse with
              | true, Some result =>
                  push {| item_id := AssistantId n;
                          content := of_field result;
                          role := Some assistant; isAnswer := true |} w
              | _, _ =>
                  push {| item_id := ErrorId n;
                          content :=
                            VString (or_else (reply_error jsonResponse)
                                       (str "An error occurred during orchestration"));
                          role := Some assistant; isAnswer := true |} w
              end in
            stopRespondingAndPolling w
        end
      else
        match as_stream response with
        | None => onSend_catch {| name := str "Error"; message := [] |} w
        | Some stream => handleMessages JSON_parse stream w
        end
  end.

Definition userMessage (n : nat) (message : jsstring) : IChatItem :=
  {| item_id := UserId n; content := VString message; role := Some user;
     isAnswer := false |}.

(** [onSend(message)] of the render of [w], run to its end with nothing
    in between. [status_result] is what the status request gives if it
    is made, [chat_result] what the chat request gives. [onSend_call]
    below is the call of the [onSend] of any render, up to its first
    [await]. *)
Definition onSend (message : jsstring)
    (status_result : Fetched (option StatusData))
    (chat_result : Fetched ChatPayload) (w : World) : World :=
  let '(n, w) := draw w in
  let w := push (userMessage n message) w in
  let '(useOrchestration, w) :=
    if isOrchestrationMode w && negb (orchestrationInitialized w)
    then revalidate status_result w
    else (isOrchestrationMode w && orchestrationInitialized w, w) in
  onSend_dispatch useOrchestration message chat_result w.

End Session.

(** ** The standalone orchestration panel *)

(** The state of [OrchestrationPanel] that [processOrchestrationQuery]
    reads and writes; [panel_status] is
    [orchestrationStatus.orchestration_info.status], [None] while
    [orchestrationStatus] is null. *)
Record Panel := {
  panel_message : jsstring;
  panel_status : option jsstring;
  isProcessing : bool;
  panel_error : jsstring;
  panel_success : jsstring;
  orchestrationResult : value;
  panel_requests : list Request;
}.

(** The answer to the panel's chat request: result and number of agents
    used of a success, [detail] of a failure. *)
Record PanelReply := {
  reply_result : option jsstring;
  agents_used : nat;
  detail : option jsstring;
}.

(** [String(n)] for a length. *)
Definition decimal (n : nat) : jsstring :=
  str (NilZero.string_of_uint (Nat.to_uint n)).

(** [`${v}`] *)
Definition template (v : value) : jsstring :=
  match v with
  | VString s => s
  | VUndefined => str "undefined"
  | VNaN => str "NaN"
  end.

(** [`${err}`] for an [Error] object. *)
Definition error_toString (e : JsError) : jsstring :=
  match name e, message e with
  | [], m => m
  | n, [] => n
  | n, m => n ++ str ": " ++ m
  end.

Definition panel_setError (e : jsstring) (p : Panel) : Panel :=
  {| panel_message := panel_message p; panel_status := panel_status p;
     isProcessing := isProcessing p; panel_error := e;
     panel_success := panel_success p;
     orchestrationResult := orchestrationResult p;
     panel_requests := panel_requests p |}.

(** [processOrchestrationQuery] *)
Definition processOrchestrationQuery (r : Fetched (option PanelReply))
    (p : Panel) : Panel :=
  match trim (panel_message p) with
  | [] => panel_setError (str "Please enter a message") p
  | _ :: _ =>
      if negb (is_string (panel_status p) (str "initialized")) then
        panel_setError
          (str "Orchestration is not initialized. Please initialize it first.") p
      else
        let request := {| url := orchestration_chat_url; method := POST;
                          body := Some [(str "message", Text (panel_message p))] |} in
        let sent e s res :=
          {| panel_message := panel_message p; panel_status := panel_status p;
             isProcessing := false; panel_error := e; panel_success := s;
             orchestrationResult := res;
             panel_requests := panel_requests p ++ [request] |} in
        match r with
        | Rejected err =>
            sent (str "Error processing query: " ++ error_toString err)
                 (panel_success p) (VString [])
        | Responded _ None =>
            sent (str "Error processing query: SyntaxError")
                 (panel_success p) (VString [])
        | Responded true (Some data) =>
            sent [] (str "Query processed using " ++ decimal (agents_used data)
                     ++ str " agents")
                 (of_field (reply_result data))
        | Responded false (Some errorData) =>
            sent (str "Failed to process query: "
                  ++ template (of_field (detail errorData)))
                 (panel_success p) (VString [])
        end
  end.

(** [getDisplayName]; [agentName] is [agentDetails.name]. *)
Definition getDisplayName (agentName : jsstring) (w : World) : jsstring :=
  if isOrchestrationMode w && orchestrationInitialized w
  then str "Multi-Agent" else agentName.

(** ** Agent ids in the standalone panel and in the settings drawer *)

(** [ids.join(sep)] *)
Fixpoint join (sep : jsstring) (ids : list jsstring) : jsstring :=
  match ids with
  | [] => []
  | [id] => id
  | id :: ids => id ++ sep ++ join sep ids
  end.

(** [agentIds.split(',').map(id => id.trim()).filter(id => id)] *)
Definition agentIdList (agentIds : jsstring) : list jsstring :=
  filter (fun id => id <> []) (trim <$> split 44%N agentIds).

(** The state of [OrchestrationPanel] around its form: the text of the
    agent-id field and the initializing flag. *)
Record PanelSetup := {
  form : Panel;
  agentIds : jsstring;
  isInitializing : bool;
}.

(** The answer to the panel's initialize request: [agent_info.status]
    of a success, [detail] of a failure. *)
Record InitReply := {
  agent_info_status : option jsstring;
  init_detail : option jsstring;
}.

(** The answer to the panel's status request:
    [orchestration_info.status] and [orchestration_info.agent_ids]. *)
Record PanelStatusData := {
  status_info : option jsstring;
  status_agent_ids : list jsstring;
}.

(** [checkOrchestrationStatus]; what it writes to the console on a
    rejected request is not part of the panel's state. *)
Definition checkOrchestrationStatus (r : Fetched (option PanelStatusData))
    (s : PanelSetup) : PanelSetup :=
  let p := form s in
  let asked st :=
    {| panel_message := panel_message p; panel_status := st;
       isProcessing := isProcessing p; panel_error := panel_error p;
       panel_success := panel_success p;
       orchestrationResult := orchestrationResult p;
       panel_requests :=
         panel_requests p
         ++ [ {| url := status_url; method := GET; body := None |} ] |} in
  match r with
  | Responded true (Some data) =>
      {| form := asked (status_info data);
         agentIds :=
           match status_agent_ids data with
           | [] => agentIds s
           | _ :: _ => join (str ", ") (status_agent_ids data)
           end;
         isInitializing := isInitializing s |}
  | _ =>
      {| form := asked (panel_status p); agentIds := agentIds s;
         isInitializing := isInitializing s |}
  end.

(** [initializeOrchestration] of the panel. A body that [json()]
    rejects gives a [SyntaxError], whose message is left out. *)
Definition initializeOrchestration (r : Fetched (option InitReply))
    (s : PanelSetup) : PanelSetup :=
  let p := form s in
  let refused e :=
    {| form := panel_setError e p; agentIds := agentIds s;
       isInitializing := isInitializing s |} in
  match trim (agentIds s) with
  | [] => refused (str "Please enter at least one agent ID")
  | _ :: _ =>
      match agentIdList (agentIds s) with
      | [] => refused (str "Please enter valid agent IDs")
      | id :: ids =>
          let request :=
            {| url := str "/orchestration/initialize"; method := POST;
               body := Some [(str "agent_ids", Texts (id :: ids))] |} in
          let sent st e su :=
            {| form :=
                 {| panel_message := panel_message p; panel_status := st;
                    isProcessing := isProcessing p; panel_error := e;
                    panel_success := su;
                    orchestrationResult := orchestrationResult p;
                    panel_requests := panel_requests p ++ [request] |};
               agentIds := agentIds s; isInitializing := false |} in
          match r with
          | Rejected err =>
              sent (panel_status p)
                   (str "Error initializing orchestration: "
                    ++ error_toString err) []
          | Responded _ None =>
              sent (panel_status p)
                   (str "Error initializing orchestration: SyntaxError") []
          | Responded true (Some data) =>
              sent (agent_info_status data) []
                   (str "Successfully initialized orchestration with "
                    ++ decimal (length (id :: ids)) ++ str " agents")
          | Responded false (Some errorData) =>
              sent (panel_status p)
                   (str "Failed to initialize orchestration: "
                    ++ template (of_field (init_detail errorData))) []
          end
      end
  end.

(** [cleanupOrchestration] of the panel. *)
Definition cleanupOrchestration (r : Fetched (option PanelReply))
    (p : Panel) : Panel :=
  let request :=
    {| url := str "/orchestration/cleanup"; method := POST; body := None |} in
  let asked st e su res :=
    {| panel_message := panel_message p; panel_status := st;
       isProcessing := isProcessing p; panel_error := e;
       panel_success := su; orchestrationResult := res;
       panel_requests := panel_requests p ++ [request] |} in
  match r with
  | Responded true _ =>
      asked None (panel_error p)
            (str "Orchestration resources cleaned up successfully")
            (VString [])
  | Responded false (Some errorData) =>
      asked (panel_status p)
            (str "Failed to cleanup orchestration: "
             ++ template (of_field (detail errorData)))
            (panel_success p) (orchestrationResult p)
  | Responded false None =>
      asked (panel_status p)
            (str "Error cleaning up orchestration: SyntaxError")
            (panel_success p) (orchestrationResult p)
  | Rejected err =>
      asked (panel_status p)
            (str "Error cleaning up orchestration: " ++ error_toString err)
            (panel_success p) (orchestrationResult p)
  end.

(** The number of agents that the settings drawer reports:
    [orchestrationAgentIds.split(',').length]. *)
Definition active_agents (orchestrationAgentIds : jsstring) : nat :=
  length (split 44%N orchestrationAgentIds).

(** ** Notions used in the statements *)

(** The displayed contents of the transcript. *)
Definition contents (w : World) : list (option value) :=
  (fun a => content <$> store w !! a) <$> messageList w.

(** The display label as the specification words it: the file name if
    present, else the raw annotation text. *)
Definition displayLabel (annotation : IAnnotation) : jsstring :=
  match file_name annotation with
  | Some f => f
  | None => text annotation
  end.

(** [content] from position [pos] on, read left to right, with every
    annotated range replaced by its label and the text between the
    ranges kept. *)
Fixpoint replaced (label : IAnnotation -> jsstring) (content : jsstring)
    (pos : Z) (anns : list IAnnotation) : jsstring :=
  match anns with
  | [] => slice content pos None
  | a :: rest =>
      slice content pos (Some (start_index a)) ++ label a
      ++ replaced label content (end_index a) rest
  end.

(** The ranges are ascending, do not overlap, start at or after [pos]
    and start within a content of length [len]. *)
Fixpoint ranges_from (pos len : Z) (anns : list IAnnotation) : Prop :=
  match anns with
  | [] => True
  | a :: rest =>
      pos <= start_index a /\ start_index a <= end_index a
      /\ start_index a <= len /\ ranges_from (end_index a) len rest
  end.

Definition ranges_ok (content : jsstring) (anns : list IAnnotation) : Prop :=
  ranges_from 0 (Z.of_nat (length content)) anns.

(** The poller's flag, handle and timer agree: either a single live
    timer that the handle names, or none. *)
Definition poller_inv (w : World) : Prop :=
  match agentThinkingInterval w with
  | Some h => timers w = [h] /\ isPollingThinking w = true
  | None => timers w = [] /\ isPollingThinking w = false
  end.

(** The fields of the world that the poller owns. *)
Definition poller_fields (w : World) : bool * option nat * list nat :=
  (isPollingThinking w, agentThinkingInterval w, timers w).

(** The poller is stopped and the client no longer responding. *)
Definition poller_stopped (w : World) : Prop :=
  isResponding w = false /\ isPollingThinking w = false
  /\ agentThinkingInterval w = None /\ timers w = [].

(** [line] is a line of the stream whose record carries the event
    [data]. *)
Definition bears (parse : jsstring -> option SSEData) (line : jsstring)
    (data : SSEData) : Prop :=
  (newline ∉ line)
  /\ startsWith (trim line) (str "data: ") = true
  /\ parse (slice (trim line) 6 None) = Some data.

(** [line] is a line of the stream whose record has a payload that is
    not JSON. *)
Definition malformed (parse : jsstring -> option SSEData) (line : jsstring)
    : Prop :=
  (newline ∉ line)
  /\ startsWith (trim line) (str "data: ") = true
  /\ parse (slice (trim line) 6 None) = None.

(** [data] is a completed-message event with content [c]. *)
Definition is_completed_message (data : SSEData) (c : jsstring) : Prop :=
  ev_error data = None
  /\ ev_type data = Some (str "completed_message")
  /\ ev_content data = Some c.

(** The status answer confirms that orchestration is initialized. *)
Definition reports_initialized (r : Fetched (option StatusData)) : bool :=
  match r with
  | Responded true (Some statusData) =>
      is_string (status statusData) (str "success")
      && is_string (info_status statusData) (str "initialized")
  | _ => false
  end.

(** The chat request failed in transport: the promise was rejected or
    the response is not 2xx. *)
Definition transport_failure (r : Fetched ChatPayload) : bool :=
  match r with
  | Rejected _ => true
  | Responded ok _ => negb ok
  end.

Definition status_request : Request :=
  {| url := status_url; method := GET; body := None |}.

Definition query_request (message : jsstring) : Request :=
  {| url := orchestration_chat_url; method := POST;
     body := Some [(str "query", Text message)] |}.

Definition message_request (message : jsstring) : Request :=
  {| url := chat_url; method := POST;
     body := Some [(str "message", Text message)] |}.

(** The open turn of a stream, if there is one, is an object of the
    store. *)
Definition chatItem_valid (st : StreamState) (w : World) : Prop :=
  match chatItem st with
  | Some c => is_Some (store w !! c)
  | None => True
  end.

(** The fields of the world that the session owns and the decoder
    leaves alone. *)
Definition session_fields (w : World)
    : list Request * bool * bool * bool :=
  (requests w, orchestrationInitialized w, isOrchestrationMode w,
   showAgentThinking w).

(** The chat request of a send. *)
Definition chat_request (useOrchestration : bool) (message : jsstring)
    : Request :=
  if useOrchestration then query_request message
  else message_request message.

(** Whether [onSend] asks the status endpoint, and whether it then takes
    the orchestration path. *)
Definition revalidates (w : World) : bool :=
  isOrchestrationMode w && negb (orchestrationInitialized w).

Definition uses_orchestration (status_result : Fetched (option StatusData))
    (w : World) : bool :=
  if revalidates w then reports_initialized status_result
  else isOrchestrationMode w && orchestrationInitialized w.

(** What a failed chat request leaves on the console: nothing for an
    abort (that is a [console.log]), else one error line. *)
Definition failure_log (r : Fetched ChatPayload) : list jsstring :=
  match r with
  | Rejected e =>
      if eqb (name e) (str "AbortError") then []
      else [str "[ChatClient] Fetch failed:"]
  | Responded _ _ => [str "[ChatClient] Response not OK:"]
  end.

(** The world of [onSend] once the user's turn is appended, and the
    world in which the chat request is dispatched. *)
Definition with_user_turn (message : jsstring) (w : World) : World :=
  push (userMessage (entropy w) message) (draw w).2.

Definition at_dispatch (message : jsstring)
    (status_result : Fetched (option StatusData)) (w : World) : World :=
  if revalidates w then (revalidate status_result (with_user_turn message w)).2
  else with_user_turn message w.

(** What the user sees of a send: the objects, the message list and the
    responding flag (with the entropy that names new turns). *)
Definition visible (w : World) : list IChatItem * list nat * bool * nat :=
  (store w, messageList w, isResponding w, entropy w).

Definition thinking_request : Request :=
  {| url := thinking_url; method := GET; body := None |}.

(** [data] is handled by the default branch of the decoder: a delta. *)
Definition is_delta (data : SSEData) : Prop :=
  ev_error data = None
  /\ is_string (ev_type data) (str "stream_end") = false
  /\ is_string (ev_type data) (str "thread_run") = false
  /\ is_string (ev_type data) (str "completed_message") = false.

(** The reads of a stream that delivers one line per read. *)
Definition line_reads (lines : list (jsstring * SSEData)) : list jsstring :=
  (fun l => l.1 ++ [newline]) <$> lines.

(** The content accumulated over a list of deltas. *)
Definition accumulate (acc : value) (lines : list (jsstring * SSEData)) : value :=
  foldl (fun acc l => add acc (of_field (ev_content l.2))) acc lines.

(** A stream that started in world [w0] has kept the objects and the
    message list of [w0] and has opened at most one turn, an object
    that [w0] did not have. *)
Definition stream_inv (w0 : World) (st : StreamState) (w : World) : Prop :=
  take (length (store w0)) (store w) = store w0
  /\ take (length (messageList w0)) (messageList w) = messageList w0
  /\ match chatItem st with
     | None => length (messageList w) = length (messageList w0)
     | Some c =>
         (length (store w0) <= c < length (store w))%nat
         /\ length (messageList w) = S (length (messageList w0))
     end.

(** [line] is a line of the stream that the decoder passes over: it
    lacks the event marker, or its event is a run-status event. *)
Definition passed_over (parse : jsstring -> option SSEData) (line : jsstring)
    : Prop :=
  (newline ∉ line)
  /\ (startsWith (trim line) (str "data: ") = false
      \/ exists data,
           startsWith (trim line) (str "data: ") = true
           /\ parse (slice (trim line) 6 None) = Some data
           /\ ev_error data = None
           /\ is_string (ev_type data) (str "stream_end") = false
           /\ is_string (ev_type data) (str "thread_run") = true).

(** No payload parses to an event that ends the responding state: an
    error, a completed message or the end marker. *)
Definition never_terminal (parse : jsstring -> option SSEData) : Prop :=
  forall s data,
    parse s = Some data ->
    ev_error data = None
    /\ is_string (ev_type data) (str "stream_end") = false
    /\ is_string (ev_type data) (str "completed_message") = false.

(** The text that the deltas of [lines] add to the accumulated content:
    their contents in order, [undefined] for a delta without content. *)
Definition delta_texts (lines : list (jsstring * SSEData)) : jsstring :=
  mjoin ((fun l => template (of_field (ev_content l.2))) <$> lines).

(** The open turn of a stream, once there is one, shows the accumulated
    content. *)
Definition shows_accumulated (st : StreamState) (w : World) : Prop :=
  is_Some (chatItem st) -> last_content w = Some (accumulatedContent st).

(** Under [never_terminal] the decoder leaves the responding flag and
    the poller alone. *)
Definition responding_like (w0 w : World) : Prop :=
  isResponding w = isResponding w0 /\ poller_fields w = poller_fields w0.

(** What the turn of an orchestrated answer shows. *)
Definition reply_content (reply : OrchestrationReply) : value :=
  match is_string (reply_status reply) (str "success"),
        orchestration_result reply with
  | true, Some result => of_field result
  | _, _ =>
      VString (or_else (reply_error reply)
                 (str "An error occurred during orchestration"))
  end.

(** Every element of the message list is an object of the store. *)
Definition transcript_ok (w : World) : Prop :=
  Forall (fun a => (a < length (store w))%nat) (messageList w).

(** Everything of the world but the thinking messages, the request log
    and the console. *)
Definition outside_thinking (w : World)
    : list IChatItem * list nat * bool * nat * (bool * option nat * list nat)
      * nat * bool * bool * bool :=
  (store w, messageList w, isResponding w, entropy w, poller_fields w,
   nextTimer w, isOrchestrationMode w, orchestrationInitialized w,
   showAgentThinking w).

Definition cleanup_request : Request :=
  {| url := str "/orchestration/cleanup"; method := POST; body := None |}.

(** What an entry of the chat history shows. *)
Definition entry_shown (entry : HistoryEntry) : value :=
  content (history_item 0 entry).

(** The items that [loadChatHistory] builds for [entries], the first
    one with the id number [n]. *)
Fixpoint history_items (n : nat) (entries : list HistoryEntry)
    : list IChatItem :=
  match entries with
  | [] => []
  | entry :: entries => history_item n entry :: history_items (S n) entries
  end.

(** The history request did not give a list of entries. *)
Definition history_failed (r : Fetched (option (list HistoryEntry))) : bool :=
  match r with
  | Responded true (Some _) => false
  | _ => true
  end.

(** The turn that [createAssistantMessageDiv] opens in [w]. *)
Definition opened_turn (w : World) : IChatItem :=
  {| item_id := UUID (entropy w); content := VString []; role := None;
     isAnswer := true |}.

(** The initialize request that carries [ids]. *)
Definition initialize_request (ids : list jsstring) : Request :=
  {| url := str "/orchestration/initialize"; method := POST;
     body := Some [(str "agent_ids", Texts ids)] |}.

(** An agent id as the server lists it: not empty, without a comma and
    without white space around it. *)
Definition clean_id (id : jsstring) : Prop :=
  id <> [] /\ (44%N ∉ id) /\ trim id = id.

(** The chat request of the panel. *)
Definition panel_chat_request (message : jsstring) : Request :=
  {| url := orchestration_chat_url; method := POST;
     body := Some [(str "message", Text message)] |}.

Definition blank (s : jsstring) : bool :=
  bool_decide (trim s = []).

(** ** Renders, closures and suspended calls

    The definitions above run one handler to its end, reading the
    state as it is. In the page, [onSend] is a closure of one render:
    it reads the state constants of that render for the whole call,
    and the chat input calls the [onSend] that [chatContext] holds,
    which [useMemo] recomputes only at a render where [messageList] or
    [isResponding] has changed. A call is suspended at each [await],
    and [handleMessages] is started without being awaited, so other
    handlers run in between. *)

(** The state constants that the closures of one render read. *)
Record Render := {
  const_isOrchestrationMode : bool;
  const_orchestrationInitialized : bool;
  const_showAgentThinking : bool;
  const_isPollingThinking : bool;
}.

(** The render of the page in state [w]. *)
Definition render_of (w : World) : Render :=
  {| const_isOrchestrationMode := isOrchestrationMode w;
     const_orchestrationInitialized := orchestrationInitialized w;
     const_showAgentThinking := showAgentThinking w;
     const_isPollingThinking := isPollingThinking w |}.

(** [startAgentThinkingPolling] of the render [r]: the guard reads the
    constants of [r]; the setter, the timer and the window global act
    on the page as it is. *)
Definition startAgentThinkingPolling_of (r : Render) (w : World) : World :=
  if const_showAgentThinking r && const_isOrchestrationMode r
     && negb (const_isPollingThinking r)
  then
    let w := setIsPollingThinking true w in
    let '(pollInterval, w) := setInterval w in
    set_agentThinkingInterval (Some pollInterval) w
  else w.

(** A call of [onSend] suspended at an [await], with the answers it
    will get, or the reader that [handleMessages] has started, with the
    reads still to come. *)
Inductive Task :=
| AwaitsStatus (r : Render) (message : jsstring)
    (status_result : Fetched (option StatusData))
    (chat_result : Fetched ChatPayload)
| AwaitsChat (r : Render) (useOrchestration : bool)
    (chat_result : Fetched ChatPayload)
| Reads (st : StreamState) (reads : list jsstring).

(** [onSend] of the render [r] from the choice of the endpoint to
    [await fetch(endpoint)]. *)
Definition onSend_request (r : Render) (useOrchestration : bool)
    (message : jsstring) (w : World) : World :=
  let w := setIsResponding true w in
  let w :=
    if useOrchestration && const_showAgentThinking r
    then startAgentThinkingPolling_of r w else w in
  fetch (chat_request useOrchestration message) w.

(** The call [onSend(message)] of the render [r], to its first
    [await]. *)
Definition onSend_call (r : Render) (message : jsstring)
    (status_result : Fetched (option StatusData))
    (chat_result : Fetched ChatPayload) (w : World) : Task * World :=
  let '(n, w) := draw w in
  let w := push (userMessage n message) w in
  if const_isOrchestrationMode r && negb (const_orchestrationInitialized r)
  then (AwaitsStatus r message status_result chat_result,
        fetch status_request w)
  else
    let useOrchestration :=
      const_isOrchestrationMode r && const_orchestrationInitialized r in
    (AwaitsChat r useOrchestration chat_result,
     onSend_request r useOrchestration message w).

(** The answer to the status request of [onSend] arrives: whether
    orchestration is to be used. *)
Definition status_answer (status_result : Fetched (option StatusData))
    (w : World) : bool * World :=
  match status_result with
  | Rejected _ =>
      (false, console_error (str "[ChatClient] Error checking orchestration status:") w)
  | Responded false _ => (false, w)
  | Responded true None =>
      (false, console_error (str "[ChatClient] Error checking orchestration status:") w)
  | Responded true (Some statusData) =>
      if is_string (status statusData) (str "success")
         && is_string (info_status statusData) (str "initialized")
      then (true, setOrchestrationInitialized true w)
      else (false, w)
  end.

(** The answer to the chat request arrives; of a streaming response
    the reader is started and [onSend] returns. *)
Definition chat_answer (useOrchestration : bool)
    (chat_result : Fetched ChatPayload) (w : World) : option Task * World :=
  match chat_result with
  | Rejected error => (None, onSend_catch error w)
  | Responded false _ =>
      (None, console_error (str "[ChatClient] Response not OK:") w)
  | Responded true response =>
      if useOrchestration then
        match as_json response with
        | None =>
            (None, onSend_catch {| name := str "SyntaxError"; message := [] |} w)
        | Some jsonResponse =>
            let '(n, w) := draw w in
            let w :=
              match is_string (reply_status jsonResponse) (str "success"),
                    orchestration_result jsonResponse with
              | true, Some result =>
                  push {| item_id := AssistantId n;
                          content := of_field result;
                          role := Some assistant; isAnswer := true |} w
              | _, _ =>
                  push {| item_id := ErrorId n;
                          content :=
                            VString (or_else (reply_error jsonResponse)
                                       (str "An error occurred during orchestration"));
                          role := Some assistant; isAnswer := true |} w
              end in
            (None, stopRespondingAndPolling w)
        end
      else
        match as_stream response with
        | None => (None, onSend_catch {| name := str "Error"; message := [] |} w)
        | Some stream => (Some (Reads handleMessages_init stream), w)
        end
  end.

Section Page.

Variable JSON_parse : jsstring -> option SSEData.

(** One turn of the outer loop of [readStream]: [reader.read()]
    resolves. *)
Definition read_arrives (st : StreamState) (reads : list jsstring)
    (w : World) : option Task * World :=
  match reads with
  | [] => (None, w)
  | textChunk :: reads =>
      let st := set_buffer (buffer st ++ textChunk) st in
      match processBuffer JSON_parse (length (buffer st)) st w with
      | (true, _, w) => (None, w)
      | (false, st, w) => (Some (Reads st reads), w)
      end
  end.

(** What a task awaits arrives: the task runs to its next [await] or to
    its end. *)
Definition resume (t : Task) (w : World) : option Task * World :=
  match t with
  | AwaitsStatus r message status_result chat_result =>
      let '(useOrchestration, w) := status_answer status_result w in
      (Some (AwaitsChat r useOrchestration chat_result),
       onSend_request r useOrchestration message w)
  | AwaitsChat r useOrchestration chat_result =>
      chat_answer useOrchestration chat_result w
  | Reads st reads => read_arrives st reads w
  end.

(** A task that nothing interrupts, run to its end. *)
Definition complete_chat (useOrchestration : bool)
    (chat_result : Fetched ChatPayload) (w : World) : World :=
  match chat_answer useOrchestration chat_result w with
  | (Some (Reads st reads), w) => (readStream JSON_parse reads st w).2
  | (_, w) => w
  end.

Definition complete (t : Task) (w : World) : World :=
  match t with
  | AwaitsStatus r message status_result chat_result =>
      let '(useOrchestration, w) := status_answer status_result w in
      complete_chat useOrchestration chat_result
        (onSend_request r useOrchestration message w)
  | AwaitsChat r useOrchestration chat_result =>
      complete_chat useOrchestration chat_result w
  | Reads st reads => (readStream JSON_parse reads st w).2
  end.

(** The page: the state, the render whose [onSend] the chat input
    holds, and the tasks in flight ([None] once a task has ended). *)
Record Page := {
  world : World;
  chatContext : Render;
  tasks : list (option Task);
}.

(** What the user, the network and the timers do to the page. The
    handlers of the settings drawer are taken with their answers. *)
Inductive Action :=
| Send (message : jsstring) (status_result : Fetched (option StatusData))
       (chat_result : Fetched ChatPayload)
| Resumes (task : nat)
| OrchestrationModeChange (enabled : bool) (r : Fetched (option StatusData))
| OrchestrationModeEffect (r : Fetched (option StatusData))
| ShowAgentThinkingChange (enabled : bool)
| InitializeOrchestration (orchestrationAgentIds : jsstring)
    (r : Fetched unit) (status_result : Fetched (option StatusData))
| CleanupOrchestration (r : Fetched unit)
| LoadChatHistory (r : Fetched (option (list HistoryEntry)))
| NewThread
| IntervalElapses (r : Fetched (option ThinkingData))
| Unmount.

(** The page is rendered after a handler has run to its next
    suspension, with the updates of that run applied together:
    [useMemo] gives a new [chatContext] when [messageList] is a new
    array ([setsList]: the handler has called [setMessageList]) or
    [isResponding] has got another value. *)
Definition rendered_again (setsList : bool) (p : Page) (w : World)
    (tasks : list (option Task)) : Page :=
  {| world := w;
     chatContext :=
       if setsList || bool_decide (messageList w <> messageList (world p))
          || negb (Bool.eqb (isResponding w) (isResponding (world p)))
       then render_of w else chatContext p;
     tasks := tasks |}.

Definition step (p : Page) (a : Action) : Page :=
  let w := world p in
  match a with
  | Send message status_result chat_result =>
      let '(t, w) :=
        onSend_call (chatContext p) message status_result chat_result w in
      rendered_again true p w (tasks p ++ [Some t])
  | Resumes i =>
      match tasks p !! i with
      | Some (Some t) =>
          let '(t, w) := resume t w in
          rendered_again false p w (<[i := t]> (tasks p))
      | _ => p
      end
  | OrchestrationModeChange enabled r =>
      rendered_again false p (handleOrchestrationModeChange enabled r w)
        (tasks p)
  | OrchestrationModeEffect r =>
      rendered_again false p
        (if isOrchestrationMode w then fetchOrchestrationStatus r w else w)
        (tasks p)
  | ShowAgentThinkingChange enabled =>
      rendered_again false p (handleShowAgentThinkingChange enabled w)
        (tasks p)
  | InitializeOrchestration orchestrationAgentIds r status_result =>
      rendered_again false p
        (handleInitializeOrchestration orchestrationAgentIds r status_result w)
        (tasks p)
  | CleanupOrchestration r =>
      rendered_again false p (handleCleanupOrchestration r w) (tasks p)
  | LoadChatHistory r => rendered_again true p (loadChatHistory r w) (tasks p)
  | NewThread => rendered_again true p (newThread w) (tasks p)
  | IntervalElapses r => rendered_again false p (interval_elapses r w) (tasks p)
  | Unmount => rendered_again false p (stopAgentThinkingPolling w) (tasks p)
  end.

(** The page at its first render. *)
Definition mounted : Page :=
  {| world := initial; chatContext := render_of initial; tasks := [] |}.

Definition run (actions : list Action) : Page := foldl step mounted actions.

(** The requests that an action adds to the log. *)
Definition issued (p : Page) (a : Action) : list Request :=
  drop (length (requests (world p))) (requests (world (step p a))).

End Page.

(** The handlers of the settings drawer and the poller's tick. *)
Definition of_settings (a : Action) : bool :=
  match a with
  | OrchestrationModeChange _ _ | OrchestrationModeEffect _
  | ShowAgentThinkingChange _ | InitializeOrchestration _ _ _
  | CleanupOrchestration _ | IntervalElapses _ => true
  | _ => false
  end.

(** The updater that [appendAssistantMessage] hands to
    [setMessageList], run in [w]: the last element gives way to a copy
    of the turn as it is in [w]. *)
Definition replace_last_with_copy (chatItem : nat) (w : World) : World :=
  match store w !! chatItem with
  | None => w
  | Some copy =>
      let '(a, w) := alloc copy w in
      setMessageList (fun prev => slice_0_m1 prev ++ [a]) w
  end.

(** What the status check of a send writes to the console. *)
Definition status_log (status_result : Fetched (option StatusData))
    (w : World) : list jsstring :=
  if revalidates w then
    match status_result with
    | Rejected _ | Responded true None =>
        [str "[ChatClient] Error checking orchestration status:"]
    | _ => []
    end
  else [].

(** ** Concrete payloads, streams and worlds *)

(** [JSON.parse] restricted to a finite table of payloads: a payload of
    the table parses to its event, any other text is rejected. The
    examples use it with the payloads they send and with texts that are
    not JSON. *)
Definition parse_table (table : list (jsstring * SSEData)) (s : jsstring)
    : option SSEData :=
  snd <$> find (fun entry => eqb entry.1 s) table.

Definition delta_event (c : jsstring) : SSEData :=
  {| ev_error := None; ev_type := Some (str "delta");
     ev_content := Some c; ev_annotations := None |}.

Definition completed_event (c : jsstring) (anns : option (list IAnnotation))
    : SSEData :=
  {| ev_error := None; ev_type := Some (str "completed_message");
     ev_content := Some c; ev_annotations := anns |}.

Definition stream_end_event : SSEData :=
  {| ev_error := None; ev_type := Some (str "stream_end");
     ev_content := None; ev_annotations := None |}.

Definition example_parse : jsstring -> option SSEData :=
  parse_table
    [ (lit "{'type':'delta','content':'Hel'}", delta_event (str "Hel"));
      (lit "{'type':'delta','content':'lo'}", delta_event (str "lo"));
      (lit "{'type':'delta','content':'Hi'}", delta_event (str "Hi"));
      (lit "{'type':'delta','content':' there'}", delta_event (str " there"));
      (lit "{'type':'delta','content':'X'}", delta_event (str "X"));
      (lit "{'type':'completed_message','content':'Hello, world'}",
       completed_event (str "Hello, world") None);
      (lit "{'type':'completed_message','content':'first'}",
       completed_event (str "first") None);
      (lit "{'type':'completed_message','content':'second'}",
       completed_event (str "second") None);
      (lit "{'type':'stream_end'}", stream_end_event) ].

(** One record of the stream: the marker, the payload, a newline. *)
Definition record (payload : jsstring) : jsstring :=
  str "data: " ++ payload ++ [newline].

Definition cited : IAnnotation :=
  {| file_name := Some (str "f"); text := str "t";
     start_index := 1; end_index := 2 |}.

Definition two_citations : list IAnnotation :=
  [ {| file_name := Some (str "a.pdf"); text := str "[1]";
       start_index := 4; end_index := 7 |};
    {| file_name := None; text := str "(b)";
       start_index := 12; end_index := 15 |} ].

Definition hello_deltas : list jsstring :=
  [ record (lit "{'type':'delta','content':'Hel'}");
    record (lit "{'type':'delta','content':'lo'}") ].

Definition hello_completed : jsstring :=
  str "data: " ++ lit "{'type':'completed_message','content':'Hello, world'}".

Definition first_line : jsstring :=
  str "data: " ++ lit "{'type':'completed_message','content':'first'}".

Definition broken_line : jsstring := str "data: {oops".

Definition second_line : jsstring :=
  str "data: " ++ lit "{'type':'completed_message','content':'second'}".

Definition late_delta_stream : list jsstring :=
  [ record (lit "{'type':'delta','content':'Hi'}");
    record (lit "{'type':'stream_end'}");
    record (lit "{'type':'delta','content':' there'}") ].

(** A user turn at address 0 and an open assistant turn at address 1. *)
Definition open_turn_world : World :=
  (createAssistantMessageDiv (push (userMessage 0 (str "hi")) initial)).2.

Definition open_turn : IChatItem :=
  {| item_id := UUID 0; content := VString []; role := None;
     isAnswer := true |}.

(** Orchestration on, initialized, thinking display on. *)
Definition thinking_world : World :=
  setShowAgentThinking true
    (setOrchestrationInitialized true (setIsOrchestrationMode true initial)).

Definition server_error : Fetched ChatPayload :=
  Responded false {| as_json := None; as_stream := None |}.

Definition no_status : Fetched (option StatusData) := Responded false None.

(** The panel with a message typed in and orchestration initialized. *)
Definition ready_panel : Panel :=
  {| panel_message := str "hi"; panel_status := Some (str "initialized");
     isProcessing := false; panel_error := []; panel_success := [];
     orchestrationResult := VString []; panel_requests := [] |}.

Definition panel_answer : Fetched (option PanelReply) :=
  Responded true
    (Some {| reply_result := Some (str "done"); agents_used := 2;
             detail := None |}).

Definition network_down : Fetched ChatPayload :=
  Rejected {| name := str "TypeError"; message := str "Failed to fetch" |}.

(** Orchestration switched on, the cached flag still off. *)
Definition stale_world : World := setIsOrchestrationMode true initial.

Definition status_initialized : Fetched (option StatusData) :=
  Responded true
    (Some {| status := Some (str "success");
             info_status := Some (str "initialized") |}).

Definition orchestration_answer : Fetched ChatPayload :=
  Responded true
    {| as_json :=
         Some {| reply_status := Some (str "success");
                 orchestration_result := Some (Some (str "42"));
                 reply_error := None |};
       as_stream := None |}.

Definition hello_lines : list (jsstring * SSEData) :=
  [ (str "data: " ++ lit "{'type':'delta','content':'Hel'}",
     delta_event (str "Hel"));
    (str "data: " ++ lit "{'type':'delta','content':'lo'}",
     delta_event (str "lo")) ].

Definition hi_there_stream : Fetched ChatPayload :=
  Responded true
    {| as_json := None;
       as_stream :=
         Some [ record (lit "{'type':'delta','content':'Hi'}");
                record (lit "{'type':'delta','content':' there'}");
                record (lit "{'type':'stream_end'}") ] |}.

(** [JSON.parse] on the delta payloads of the examples only. *)
Definition delta_parse : jsstring -> option SSEData :=
  parse_table
    [ (lit "{'type':'delta','content':'Hi'}", delta_event (str "Hi"));
      (lit "{'type':'delta','content':' there'}", delta_event (str " there")) ].

Definition hi_there_lines : list (jsstring * SSEData) :=
  [ (str "data: " ++ lit "{'type':'delta','content':'Hi'}",
     delta_event (str "Hi"));
    (str "data: " ++ lit "{'type':'delta','content':' there'}",
     delta_event (str " there")) ].

Definition error_event (m : option jsstring) : SSEData :=
  {| ev_error := Some m; ev_type := None; ev_content := None;
     ev_annotations := None |}.

(** [JSON.parse] on an error payload and a run-status payload. *)
Definition error_parse : jsstring -> option SSEData :=
  parse_table
    [ (lit "{'error':{'message':'quota exceeded'}}",
       error_event (Some (str "quota exceeded")));
      (lit "{'type':'thread_run','content':'queued'}",
       {| ev_error := None; ev_type := Some (str "thread_run");
          ev_content := Some (str "queued"); ev_annotations := None |});
      (lit "{'type':'delta','content':'Hi'}", delta_event (str "Hi")) ].

Definition error_line : jsstring :=
  str "data: " ++ lit "{'error':{'message':'quota exceeded'}}".

Definition run_status_line : jsstring :=
  str "data: " ++ lit "{'type':'thread_run','content':'queued'}".

Definition hi_line : jsstring :=
  str "data: " ++ lit "{'type':'delta','content':'Hi'}".

Definition history_example : list HistoryEntry :=
  [ {| entry_role := str "assistant"; entry_content := str "abc";
       entry_annotations := Some [cited] |};
    {| entry_role := str "user"; entry_content := str "hi";
       entry_annotations := None |} ].

Definition failure_reply : OrchestrationReply :=
  {| reply_status := Some (str "error"); orchestration_result := None;
     reply_error := Some (str "no agents") |}.

Definition failure_response : ChatPayload :=
  {| as_json := Some failure_reply; as_stream := None |}.

Definition thinking_answer : Fetched (option ThinkingData) :=
  Responded true
    (Some {| thinking_status := Some (str "success");
             messages := None |}).

Definition empty_setup : PanelSetup :=
  {| form := ready_panel; agentIds := []; isInitializing := false |}.

Definition listed_agents : PanelStatusData :=
  {| status_info := Some (str "initialized");
     status_agent_ids := [str "asst_1"; str "asst_2"] |}.

Definition initialized_reply : Fetched (option InitReply) :=
  Responded true
    (Some {| agent_info_status := Some (str "initialized");
             init_detail := None |}).

(** The history is loaded (it is empty), orchestration is switched on
    in the settings drawer, and the server does not report it
    initialized. *)
Definition toggled_on : list Action :=
  [ LoadChatHistory (Responded true (Some []));
    OrchestrationModeChange true no_status;
    OrchestrationModeEffect no_status ].

(** Then the thinking display is switched on and a new chat is
    started. *)
Definition thinking_on : list Action :=
  toggled_on ++ [ShowAgentThinkingChange true; NewThread].

(** Two sends, the second one while the first awaits the status
    answer; then both status answers arrive. *)
Definition two_sends : list Action :=
  thinking_on
  ++ [ Send (str "a") status_initialized orchestration_answer;
       Send (str "b") status_initialized orchestration_answer;
       Resumes 0; Resumes 1 ].

(** A send whose stream delivers two deltas, and a second send between
    the two reads. *)
Definition interleaved_sends : list Action :=
  [ Send (str "hi") no_status
      (Responded true
         {| as_json := None;
            as_stream := Some (line_reads hi_there_lines) |});
    Resumes 0; Resumes 0;
    Send (str "more") no_status network_down;
    Resumes 0 ].

(** The reader of that stream after its first read. *)
Definition after_first_delta : StreamState :=
  {| chatItem := Some 1%nat; accumulatedContent := VString (str "Hi");
     isStreaming := true; buffer := []; annotations := Some [] |}.

(** A request that the user aborts. *)
Definition aborted : Fetched ChatPayload :=
  Rejected {| name := str "AbortError"; message := str "aborted" |}.

(** * Properties *)

(** ** Slices *)

Lemma slice_to (s : jsstring) (n : Z) :
  0 <= n -> slice s 0 (Some n) = take (Z.to_nat n) s.
Proof.
  intros Hn. unfold slice, rel_index.
  destruct (Z.ltb_spec n 0) as [?|_]; [lia|].
  destruct (Z.ltb_spec 0 0) as [?|_]; [lia|].
  rewrite (Z.min_l 0) by lia. rewrite Z.sub_0_r.
  change (Z.to_nat 0) with 0%nat. rewrite drop_0.
  destruct (Z.le_gt_cases n (Z.of_nat (length s))).
  - by rewrite Z.min_l by lia.
  - rewrite Z.min_r by lia. rewrite !take_ge; [done | lia | lia].
Qed.

Lemma slice_from (s : jsstring) (n : Z) :
  0 <= n -> slice s n None = drop (Z.to_nat n) s.
Proof.
  intros Hn. unfold slice, rel_index.
  destruct (Z.ltb_spec n 0) as [?|_]; [lia|].
  rewrite take_ge by (rewrite length_drop; lia).
  destruct (Z.le_gt_cases n (Z.of_nat (length s))).
  - by rewrite Z.min_l by lia.
  - rewrite Z.min_r by lia. rewrite !drop_ge; [done | lia | lia].
Qed.

Lemma slice_between (s : jsstring) (a b : Z) :
  0 <= a <= b -> b <= Z.of_nat (length s) ->
  slice s a (Some b) = drop (Z.to_nat a) (take (Z.to_nat b) s).
Proof.
  intros Hab Hb. unfold slice, rel_index.
  destruct (Z.ltb_spec a 0) as [?|_]; [lia|].
  destruct (Z.ltb_spec b 0) as [?|_]; [lia|].
  rewrite !Z.min_l by lia.
  rewrite take_drop_commute. f_equal. f_equal. lia.
Qed.

(** ** Annotation rewriting *)

(** The callback runs over the reversed list: the last annotation is
    spliced first. *)
Lemma foldl_reverse_splice (anns : list IAnnotation) (c : jsstring) :
  foldl splice c (reverse anns) = foldr (fun a acc => splice acc a) c anns.
Proof.
  induction anns as [|a anns IH] in c |- *; [done|].
  rewrite reverse_cons, foldl_app. simpl. by rewrite IH.
Qed.

(** After all splices, the text before [pos] is the original one and
    the text from [pos] on is the left-to-right rewriting. *)
Lemma splice_chain (anns : list IAnnotation) (c : jsstring) (pos : Z) :
  0 <= pos -> ranges_from pos (Z.of_nat (length c)) anns ->
  drop (Z.to_nat pos) (foldr (fun a acc => splice acc a) c anns)
    = replaced linkText c pos anns
  /\ take (Z.to_nat pos) (foldr (fun a acc => splice acc a) c anns)
    = take (Z.to_nat pos) c.
Proof.
  induction anns as [|a anns IH] in pos |- *; simpl.
  - intros Hpos _. by rewrite slice_from.
  - intros Hpos (Hs & He & Hlen & Hrest).
    destruct (IH (end_index a)) as [IHd IHt]; [lia | done |].
    set (R := foldr _ c anns) in *.
    assert (Hpre : take (Z.to_nat (start_index a)) R
                   = take (Z.to_nat (start_index a)) c).
    { rewrite <- (Nat.min_l (Z.to_nat (start_index a)) (Z.to_nat (end_index a))) by lia.
      by rewrite <- !take_take, IHt. }
    unfold splice. rewrite slice_to, slice_from by lia.
    rewrite Hpre, IHd.
    assert (Hl : length (take (Z.to_nat (start_index a)) c) = Z.to_nat (start_index a)).
    { rewrite length_take. lia. }
    split.
    + rewrite drop_app_le by lia. f_equal.
      rewrite slice_between by lia. done.
    + rewrite take_app_le by lia. rewrite take_take. f_equal. lia.
Qed.

(** C2, as stated, fails: with a file name present the range is replaced
    by the file name in square brackets, not by the file name. *)
Lemma preprocessContent_label_counterexample :
  ranges_ok (str "abc") [cited]
  /\ preprocessContent (VString (str "abc")) (Some [cited])
     = Some (VString (str "a[f]c"))
  /\ preprocessContent (VString (str "abc")) (Some [cited])
     <> Some (VString (replaced displayLabel (str "abc") 0 [cited])).
Proof.
  split; [|split].
  - unfold ranges_ok. simpl. lia.
  - reflexivity.
  - vm_compute. discriminate.
Qed.

(** C2, amended: for ranges that are ascending, do not overlap and lie
    in the content, [preprocessContent] returns the content in which
    each range [start_index, end_index) is replaced by [linkText] (the
    non-empty file name in square brackets, else the annotation text)
    and all text outside the ranges is kept; the splices are made in
    reverse of the given order; without annotations the content comes
    back unchanged. *)
Theorem preprocessContent_rewrites (content : jsstring)
    (anns : list IAnnotation) :
  ranges_ok content anns ->
  preprocessContent (VString content) (Some anns)
    = Some (VString (replaced linkText content 0 anns))
  /\ preprocessContent (VString content) (Some anns)
    = Some (VString (foldr (fun a acc => splice acc a) content anns))
  /\ preprocessContent (VString content) None = Some (VString content)
  /\ preprocessContent (VString content) (Some []) = Some (VString content).
Proof.
  intros Hok.
  assert (Hfold : preprocessContent (VString content) (Some anns)
                  = Some (VString (foldr (fun a acc => splice acc a) content anns))).
  { unfold preprocessContent. rewrite <- foldl_reverse_splice.
    destruct (reverse anns); done. }
  split; [|done].
  rewrite Hfold. do 2 f_equal.
  destruct (splice_chain anns content 0) as [Hd _]; [lia | done |].
  by rewrite <- Hd.
Qed.

Lemma preprocessContent_rewrites_witness :
  ranges_ok (str "see [1] and [2].") two_citations
  /\ preprocessContent (VString (str "see [1] and [2].")) (Some two_citations)
     = Some (VString (str "see [a.pdf] and (b).")).
Proof.
  assert (H : ranges_ok (str "see [1] and [2].") two_citations).
  { unfold ranges_ok. simpl. lia. }
  split; [exact H|].
  destruct (preprocessContent_rewrites _ _ H) as [-> _]. reflexivity.
Defined.

(** ** The thinking poller *)

Lemma poller_inv_fields (w w' : World) :
  poller_fields w' = poller_fields w -> poller_inv w -> poller_inv w'.
Proof.
  unfold poller_fields, poller_inv. intros [= -> -> ->]. done.
Qed.

Lemma start_poller_inv w : poller_inv w -> poller_inv (startAgentThinkingPolling w).
Proof.
  intros Hw. unfold startAgentThinkingPolling.
  destruct (showAgentThinking w && isOrchestrationMode w
            && negb (isPollingThinking w)) eqn:Hguard; [|done].
  apply andb_prop in Hguard as [_ Hp%negb_true_iff].
  revert Hw. unfold poller_inv. simpl. rewrite Hp.
  destruct (agentThinkingInterval w); intros [Ht ?]; [done|].
  by rewrite Ht.
Qed.

Lemma filter_ne_singleton (h : nat) : filter (fun t => t <> h) [h] = [].
Proof. rewrite filter_cons. by case_decide. Qed.

Lemma stop_poller_inv w : poller_inv w -> poller_inv (stopAgentThinkingPolling w).
Proof.
  unfold stopAgentThinkingPolling, poller_inv. simpl.
  destruct (agentThinkingInterval w) as [h|] eqn:E; simpl; rewrite ?E.
  - intros [-> _]. by rewrite filter_ne_singleton.
  - by intros [-> _].
Qed.

Lemma appendAssistantMessage_poller_fields c v b anns w :
  poller_fields (appendAssistantMessage c v b anns w) = poller_fields w.
Proof.
  unfold appendAssistantMessage, alloc.
  destruct (preprocessContent v anns); [|done]. simpl.
  by destruct (alter _ c (store w) !! c).
Qed.

(** ** What the decoder preserves

    A property of the world that its elementary updates keep is kept by
    every record, by the inner loop and by the whole stream. *)

Section Preservation.

Variable P : World -> Prop.
Hypothesis P_upd_store : forall f w, P w -> P (upd_store f w).
Hypothesis P_setMessageList : forall f w, P w -> P (setMessageList f w).
Hypothesis P_console_error : forall l w, P w -> P (console_error l w).
Hypothesis P_setIsResponding : forall b w, P w -> P (setIsResponding b w).
Hypothesis P_draw : forall w, P w -> P (draw w).2.
Hypothesis P_stop : forall w, P w -> P (stopAgentThinkingPolling w).

Lemma push_preserves item w : P w -> P (push item w).
Proof. intros. unfold push, alloc. simpl. auto. Qed.

Lemma createAssistantMessageDiv_preserves w :
  P w -> P (createAssistantMessageDiv w).2.
Proof.
  intros Hw. unfold createAssistantMessageDiv, alloc.
  pose proof (P_draw w Hw) as Hd. destruct (draw w) as [n w1]. simpl in *.
  auto.
Qed.

Lemma ensure_chatItem_preserves st w : P w -> P (ensure_chatItem st w).2.
Proof.
  intros Hw. unfold ensure_chatItem. destruct (chatItem st); [done|].
  pose proof (createAssistantMessageDiv_preserves w Hw) as Hc.
  by destruct (createAssistantMessageDiv w).
Qed.

Lemma appendAssistantMessage_preserves c v b anns w :
  P w -> P (appendAssistantMessage c v b anns w).
Proof.
  intros Hw. unfold appendAssistantMessage, alloc.
  destruct (preprocessContent v anns); [|auto].
  destruct (store _ !! c); simpl; auto.
Qed.

Lemma clearAssistantMessage_preserves c w :
  P w -> P (clearAssistantMessage c w).
Proof. unfold clearAssistantMessage. auto. Qed.

Lemma stopRespondingAndPolling_preserves w :
  P w -> P (stopRespondingAndPolling w).
Proof. unfold stopRespondingAndPolling. auto. Qed.

Variable JSON_parse : jsstring -> option SSEData.

Lemma handleRecord_preserves chunk st w :
  P w -> P (handleRecord JSON_parse chunk st w).2.
Proof.
  intros Hw. unfold handleRecord.
  destruct (startsWith chunk _); [|done].
  destruct (JSON_parse _) as [data|]; [|simpl; auto].
  pose proof (ensure_chatItem_preserves st w Hw) as He.
  destruct (ev_error data).
  { destruct (ensure_chatItem st w) as [[c st1] w1]. simpl in *.
    auto using appendAssistantMessage_preserves, stopRespondingAndPolling_preserves. }
  destruct (is_string (ev_type data) (str "stream_end")).
  { simpl. auto using stopRespondingAndPolling_preserves. }
  destruct (is_string (ev_type data) (str "thread_run")); [done|].
  destruct (ensure_chatItem st w) as [[c st1] w1]. simpl in *.
  destruct (is_string (ev_type data) (str "completed_message")); simpl;
    auto using appendAssistantMessage_preserves, stopRespondingAndPolling_preserves,
      clearAssistantMessage_preserves.
Qed.

Lemma processBuffer_preserves fuel st w :
  P w -> P (processBuffer JSON_parse fuel st w).2.
Proof.
  induction fuel as [|fuel IH] in st, w |- *; intros Hw; simpl.
  - by destruct (indexOf _ _).
  - destruct (indexOf _ _) as [boundary|]; [|done].
    match goal with |- context [handleRecord _ ?c ?s w] =>
      pose proof (handleRecord_preserves c s w Hw) as Hr;
      destruct (handleRecord JSON_parse c s w) as [[[] st1] w1] end;
    simpl in *; auto.
Qed.

Lemma readStream_preserves reads st w :
  P w -> P (readStream JSON_parse reads st w).2.
Proof.
  induction reads as [|textChunk reads IH] in st, w |- *; intros Hw; simpl; [done|].
  match goal with |- context [processBuffer _ ?n ?s w] =>
    pose proof (processBuffer_preserves n s w Hw) as Hp;
    destruct (processBuffer JSON_parse n s w) as [[[] st1] w1] end;
  simpl in *; auto.
Qed.

Lemma handleMessages_preserves stream w :
  P w -> P (handleMessages JSON_parse stream w).
Proof. apply readStream_preserves. Qed.

End Preservation.

Ltac same_poller :=
  match goal with
  | H : poller_inv ?w |- poller_inv _ =>
      apply (poller_inv_fields w); [reflexivity | exact H]
  end.

Lemma handleMessages_poller_inv parse stream w :
  poller_inv w -> poller_inv (handleMessages parse stream w).
Proof.
  apply handleMessages_preserves; intros; try same_poller.
  by apply stop_poller_inv.
Qed.

Lemma stopRespondingAndPolling_poller_inv w :
  poller_inv w -> poller_inv (stopRespondingAndPolling w).
Proof. intros. apply stop_poller_inv. same_poller. Qed.

Lemma onSend_catch_poller_inv e w :
  poller_inv w -> poller_inv (onSend_catch e w).
Proof.
  intros Hw. unfold onSend_catch.
  pose proof (stopRespondingAndPolling_poller_inv w Hw).
  destruct (eqb _ _); [done | same_poller].
Qed.

Lemma push_poller_inv item w : poller_inv w -> poller_inv (push item w).
Proof. intros. same_poller. Qed.

Lemma revalidate_poller_inv r w :
  poller_inv w -> poller_inv (revalidate r w).2.
Proof.
  intros Hw. unfold revalidate.
  destruct r as [e|[] [d|]]; simpl; try same_poller.
  destruct (_ && _); simpl; same_poller.
Qed.

Lemma onSend_dispatch_poller_inv parse useOrchestration message chat_result w :
  poller_inv w ->
  poller_inv (onSend_dispatch parse useOrchestration message chat_result w).
Proof.
  intros Hw. unfold onSend_dispatch.
  set (w1 := if useOrchestration && showAgentThinking (setIsResponding true w)
             then startAgentThinkingPolling (setIsResponding true w)
             else setIsResponding true w).
  assert (H1 : poller_inv w1).
  { subst w1. assert (poller_inv (setIsResponding true w)) by same_poller.
    destruct (_ && _); [by apply start_poller_inv | done]. }
  clearbody w1.
  match goal with |- context [fetch ?r w1] =>
    assert (H2 : poller_inv (fetch r w1)) by same_poller;
    generalize dependent (fetch r w1) end.
  intros w2 H2.
  destruct chat_result as [e|[] response].
  - by apply onSend_catch_poller_inv.
  - destruct useOrchestration.
    + destruct (as_json response) as [j|]; [|by apply onSend_catch_poller_inv].
      simpl. apply stopRespondingAndPolling_poller_inv.
      repeat case_match; apply push_poller_inv; same_poller.
    + destruct (as_stream response); [by apply handleMessages_poller_inv|].
      by apply onSend_catch_poller_inv.
  - same_poller.
Qed.

Lemma onSend_poller_inv parse message status_result chat_result w :
  poller_inv w ->
  poller_inv (onSend parse message status_result chat_result w).
Proof.
  intros Hw. unfold onSend. simpl.
  match goal with |- context [push ?i ?w0] =>
    assert (H1 : poller_inv (push i w0)) by (apply push_poller_inv; same_poller);
    generalize dependent (push i w0) end.
  intros w1 H1.
  destruct (_ && negb _).
  - pose proof (revalidate_poller_inv status_result w1 H1).
    destruct (revalidate status_result w1). by apply onSend_dispatch_poller_inv.
  - by apply onSend_dispatch_poller_inv.
Qed.

Lemma fetchOrchestrationStatus_poller_inv r w :
  poller_inv w -> poller_inv (fetchOrchestrationStatus r w).
Proof.
  intros Hw. unfold fetchOrchestrationStatus.
  destruct r as [e|[] [d|]]; simpl; try same_poller.
  destruct (is_string _ _); same_poller.
Qed.

Lemma fetchAgentThinking_poller_fields r w :
  poller_fields (fetchAgentThinking r w) = poller_fields w.
Proof.
  unfold fetchAgentThinking.
  destruct r as [e|[] [d|]]; simpl; try done.
  by destruct (is_string _ _).
Qed.

Lemma interval_elapses_poller_fields r w :
  poller_fields (interval_elapses r w) = poller_fields w.
Proof.
  unfold interval_elapses. generalize (timers w) as ticks.
  intros ticks. induction ticks as [|t ticks IH] in w |- *; simpl; [done|].
  by rewrite IH, fetchAgentThinking_poller_fields.
Qed.

Lemma history_error_poller_inv w :
  poller_inv w -> poller_inv (history_error w).
Proof.
  intros Hw. unfold history_error.
  pose proof (createAssistantMessageDiv_preserves poller_inv) as Hc.
  specialize (Hc ltac:(intros; same_poller) ltac:(intros; same_poller)
                 ltac:(intros; same_poller) w Hw).
  destruct (createAssistantMessageDiv w) as [c w1]. simpl in Hc.
  eapply poller_inv_fields; [apply appendAssistantMessage_poller_fields | done].
Qed.

Lemma loadChatHistory_poller_inv r w :
  poller_inv w -> poller_inv (loadChatHistory r w).
Proof.
  intros Hw. unfold loadChatHistory.
  set (w0 := fetch _ w). assert (H0 : poller_inv w0) by same_poller.
  clearbody w0.
  destruct r as [e|[] [json_response|]];
    try (apply history_error_poller_inv; same_poller).
  set (f := fun acc entry => _).
  assert (Hfold : forall entries acc,
            poller_inv acc.2 -> poller_inv (foldl f acc entries).2).
  { induction entries as [|entry entries IH]; intros acc Hacc; [done|].
    simpl. apply IH. subst f. simpl. same_poller. }
  specialize (Hfold (reverse json_response) ([], w0) H0).
  destruct (foldl f ([], w0) (reverse json_response)) as [historyMessages w1].
  simpl in Hfold. same_poller.
Qed.

Lemma start_when_polling w :
  isPollingThinking w = true -> startAgentThinkingPolling w = w.
Proof.
  unfold startAgentThinkingPolling. intros ->. by rewrite andb_false_r.
Qed.

Lemma start_idempotent w :
  startAgentThinkingPolling (startAgentThinkingPolling w)
  = startAgentThinkingPolling w.
Proof.
  destruct (showAgentThinking w && isOrchestrationMode w
            && negb (isPollingThinking w)) eqn:Hg.
  - apply start_when_polling. unfold startAgentThinkingPolling.
    by rewrite Hg.
  - assert (Hw : startAgentThinkingPolling w = w).
    { unfold startAgentThinkingPolling. by rewrite Hg. }
    by rewrite !Hw.
Qed.

Lemma stop_when_stopped w :
  isPollingThinking w = false -> agentThinkingInterval w = None ->
  stopAgentThinkingPolling w = w.
Proof.
  unfold stopAgentThinkingPolling. destruct w; simpl. by intros -> ->.
Qed.

Lemma fetchAgentThinking_requests r w :
  requests (fetchAgentThinking r w)
  = requests w ++ [ {| url := thinking_url; method := GET; body := None |} ].
Proof.
  unfold fetchAgentThinking.
  destruct r as [e|[] [d|]]; simpl; try done.
  by destruct (is_string _ _).
Qed.

Lemma interval_elapses_requests r w :
  length (requests (interval_elapses r w))
  = (length (requests w) + length (timers w))%nat.
Proof.
  unfold interval_elapses. generalize (timers w) as ticks.
  intros ticks. induction ticks as [|t ticks IH] in w |- *; simpl; [lia|].
  rewrite IH, fetchAgentThinking_requests, length_app. simpl. lia.
Qed.

(** ** Updating the open turn *)

Lemma slice_0_m1_take (prev : list nat) :
  slice_0_m1 prev = take (length prev - 1) prev.
Proof.
  unfold slice_0_m1, rel_index. simpl. f_equal. lia.
Qed.

Lemma appendAssistantMessage_eq c acc b anns html item w :
  preprocessContent acc anns = Some html ->
  store w !! c = Some item ->
  appendAssistantMessage c acc b anns w
  = setMessageList (fun prev => slice_0_m1 prev ++ [length (store w)])
      (upd_store (fun s => alter (with_content html) c s
                           ++ [with_content html item]) w).
Proof.
  intros Hp Hc. unfold appendAssistantMessage, alloc. rewrite Hp. simpl.
  rewrite list_lookup_alter_eq, Hc. simpl. by rewrite length_alter.
Qed.

(** C10: a content update of the open turn replaces the last element of
    the message list by a copy of the updated turn, which is the open
    turn with the new content and its other fields as they were; the
    open turn itself carries the new content too; every earlier element
    stays in place; an earlier turn that is an object other than the
    open one is rendered as before; a non-empty list keeps its length.
    The update is the write to the open turn followed by the updater,
    and the updater does the same whenever it runs: the last element
    gives way to a copy of the open turn as it then is, and the
    elements before it are rendered as before. *)
Theorem appendAssistantMessage_replaces_last c acc b anns html item w :
  preprocessContent acc anns = Some html ->
  store w !! c = Some item ->
  let w' := appendAssistantMessage c acc b anns w in
  let n := length (messageList w) in
  let updated := {| item_id := item_id item; content := html;
                    role := role item; isAnswer := isAnswer item |} in
  messageList w' = take (n - 1) (messageList w) ++ [length (store w)]
  /\ last (rendered w') = Some (Some updated)
  /\ store w' !! c = Some updated
  /\ last_content w' = Some html
  /\ (messageList w <> [] -> length (messageList w') = n)
  /\ (forall i, (i < n - 1)%nat -> messageList w' !! i = messageList w !! i)
  /\ (forall i a turn, (i < n - 1)%nat -> messageList w !! i = Some a ->
        store w !! a = Some turn -> a <> c ->
        rendered w' !! i = Some (Some turn))
  /\ w' = replace_last_with_copy c
            (upd_store (alter (fun turn =>
                                 {| item_id := item_id turn; content := html;
                                    role := role turn;
                                    isAnswer := isAnswer turn |}) c) w)
  /\ (forall later turn,
        store later !! c = Some turn ->
        let shown := replace_last_with_copy c later in
        let m := length (messageList later) in
        messageList shown
        = take (m - 1) (messageList later) ++ [length (store later)]
        /\ last (rendered shown) = Some (Some turn)
        /\ forall i a earlier, (i < m - 1)%nat ->
             messageList later !! i = Some a ->
             store later !! a = Some earlier ->
             messageList shown !! i = Some a
             /\ rendered shown !! i = Some (Some earlier)).
Proof.
  intros Hp Hc w' n updated.
  assert (Hlater : forall later turn,
    store later !! c = Some turn ->
    messageList (replace_last_with_copy c later)
    = take (length (messageList later) - 1) (messageList later)
      ++ [length (store later)]
    /\ last (rendered (replace_last_with_copy c later)) = Some (Some turn)
    /\ forall i a earlier, (i < length (messageList later) - 1)%nat ->
         messageList later !! i = Some a ->
         store later !! a = Some earlier ->
         messageList (replace_last_with_copy c later) !! i = Some a
         /\ rendered (replace_last_with_copy c later) !! i
            = Some (Some earlier)).
  { intros later turn Hturn. unfold replace_last_with_copy. rewrite Hturn.
    unfold rendered. simpl. rewrite slice_0_m1_take.
    split; [done|]. split.
    - rewrite fmap_app. simpl. rewrite last_snoc.
      by rewrite lookup_app_r, Nat.sub_diag by lia.
    - intros i a earlier Hi Ha Hearlier.
      assert (Hi' : (take (length (messageList later) - 1) (messageList later)
                     ++ [length (store later)]) !! i = Some a).
      { rewrite lookup_app_l by (rewrite length_take; lia).
        by rewrite lookup_take_lt by lia. }
      split; [done|]. rewrite list_lookup_fmap, Hi'. simpl.
      by rewrite (lookup_app_l_Some _ _ _ _ Hearlier). }
  assert (Hupdater :
    w' = replace_last_with_copy c
           (upd_store (alter (fun turn =>
                                {| item_id := item_id turn; content := html;
                                   role := role turn;
                                   isAnswer := isAnswer turn |}) c) w)).
  { unfold w', appendAssistantMessage. by rewrite Hp. }
  match goal with
  | |- ?A1 /\ ?A2 /\ ?A3 /\ ?A4 /\ ?A5 /\ ?A6 /\ ?A7 /\ _ =>
      cut (A1 /\ A2 /\ A3 /\ A4 /\ A5 /\ A6 /\ A7);
        [ intros (? & ? & ? & ? & ? & ? & ?);
          do 7 (split; [assumption|]);
          split; [exact Hupdater | exact Hlater]
        | clear Hupdater Hlater ]
  end.
  subst w'. rewrite (appendAssistantMessage_eq _ _ _ _ _ _ _ Hp Hc).
  unfold rendered, last_content. simpl. rewrite !slice_0_m1_take. fold n.
  assert (Hnew : (alter (with_content html) c (store w) ++ [with_content html item])
                   !! length (store w) = Some updated).
  { rewrite lookup_app_r by (rewrite length_alter; lia).
    rewrite length_alter. by rewrite Nat.sub_diag. }
  assert (Hpre : forall i, (i < n - 1)%nat ->
            (take (n - 1) (messageList w) ++ [length (store w)]) !! i
            = messageList w !! i).
  { intros i Hi. rewrite lookup_app_l by (rewrite length_take; lia).
    by rewrite lookup_take_lt. }
  split; [done|]. split.
  { rewrite fmap_app. simpl. rewrite last_snoc. by rewrite Hnew. }
  split.
  { rewrite lookup_app_l by (rewrite length_alter; by eapply lookup_lt_Some).
    by rewrite list_lookup_alter_eq, Hc. }
  split.
  { rewrite last_snoc. simpl. by rewrite Hnew. }
  split.
  { intros Hne. rewrite length_app, length_take. simpl.
    destruct (messageList w); [done|]. simpl in *. lia. }
  split; [done|].
  intros i a turn Hi Ha Hturn Hac.
  rewrite list_lookup_fmap, Hpre, Ha by done. simpl. f_equal.
  rewrite lookup_app_l by (rewrite length_alter; by eapply lookup_lt_Some).
  by rewrite list_lookup_alter_ne.
Qed.

(** ** Lines of the buffer *)

Lemma indexOf_app (c : code_unit) (line rest : jsstring) :
  c ∉ line -> indexOf c (line ++ c :: rest) = Some (length line).
Proof.
  induction line as [|x line IH]; simpl; intros Hc.
  - unfold code_unit_eqb. by rewrite N.eqb_refl.
  - apply not_elem_of_cons in Hc as [Hx Hc].
    unfold code_unit_eqb. destruct (N.eqb_spec x c) as [->|_]; [done|].
    by rewrite IH.
Qed.

Lemma indexOf_lt (c : code_unit) (s : jsstring) (i : nat) :
  indexOf c s = Some i -> (i < length s)%nat.
Proof.
  induction s as [|x s IH] in i |- *; simpl; [done|].
  destruct (code_unit_eqb x c).
  - intros [= <-]. lia.
  - destruct (indexOf c s) as [j|]; simpl; [|done].
    intros [= <-]. specialize (IH j eq_refl). lia.
Qed.

Lemma slice_line (line rest : jsstring) (c : code_unit) :
  slice (line ++ c :: rest) 0 (Some (Z.of_nat (length line))) = line.
Proof.
  rewrite slice_to by lia. rewrite Nat2Z.id. apply take_app_length.
Qed.

Lemma slice_rest (line rest : jsstring) (c : code_unit) :
  slice (line ++ c :: rest) (Z.of_nat (length line) + 1) None = rest.
Proof.
  rewrite slice_from by lia.
  replace (Z.to_nat (Z.of_nat (length line) + 1)) with (length line + 1)%nat by lia.
  rewrite <- drop_drop, drop_app_length. done.
Qed.

Lemma set_buffer_id st : set_buffer (buffer st) st = st.
Proof. by destruct st. Qed.

Lemma set_buffer_twice b b' st : set_buffer b (set_buffer b' st) = set_buffer b st.
Proof. done. Qed.

Section DecoderFacts.

Variable JSON_parse : jsstring -> option SSEData.

Lemma ensure_chatItem_buffer st w :
  buffer (ensure_chatItem st w).1.2 = buffer st.
Proof.
  unfold ensure_chatItem. destruct (chatItem st); [done|].
  by destruct (createAssistantMessageDiv w).
Qed.

Lemma handleRecord_buffer chunk st w :
  buffer (handleRecord JSON_parse chunk st w).1.2 = buffer st.
Proof.
  unfold handleRecord.
  destruct (startsWith chunk _); [|done].
  destruct (JSON_parse _) as [data|]; [|done].
  pose proof (ensure_chatItem_buffer st w) as He.
  destruct (ev_error data).
  { by destruct (ensure_chatItem st w) as [[c st1] w1]. }
  destruct (is_string (ev_type data) (str "stream_end")); [done|].
  destruct (is_string (ev_type data) (str "thread_run")); [done|].
  destruct (ensure_chatItem st w) as [[c st1] w1].
  by destruct (is_string (ev_type data) (str "completed_message")).
Qed.

(** Any fuel that covers the buffer gives the same run of the inner
    loop: the loop never stops for lack of fuel. *)
Lemma processBuffer_fuel n m st w :
  (length (buffer st) <= n)%nat -> (length (buffer st) <= m)%nat ->
  processBuffer JSON_parse n st w = processBuffer JSON_parse m st w.
Proof.
  induction n as [|n IH] in m, st, w |- *; intros Hn Hm.
  - destruct (buffer st) eqn:Hb; simpl in Hn; [|lia].
    destruct m; simpl; by rewrite Hb.
  - destruct m as [|m].
    { destruct (buffer st) eqn:Hb; simpl in Hm; [|lia]. simpl. by rewrite Hb. }
    simpl. destruct (indexOf newline (buffer st)) as [boundary|] eqn:Hi; [|done].
    pose proof (indexOf_lt _ _ _ Hi) as Hlt.
    set (st1 := set_buffer _ st).
    pose proof (handleRecord_buffer
                  (trim (slice (buffer st) 0 (Some (Z.of_nat boundary)))) st1 w) as Hb.
    destruct (handleRecord JSON_parse _ st1 w) as [[[] st2] w2]; try done.
    simpl in Hb.
    assert (Hlen : (length (buffer st2) < length (buffer st))%nat).
    { rewrite Hb. subst st1. simpl. rewrite slice_from by lia.
      rewrite length_drop. lia. }
    apply IH; lia.
Qed.

(** One read whose text, after what the buffer holds, starts with a
    whole line: the line is handled with the rest left in the buffer. *)
Lemma readStream_line line rest textChunk reads st w :
  buffer st ++ textChunk = line ++ newline :: rest ->
  newline ∉ line ->
  readStream JSON_parse (textChunk :: reads) st w
  = match handleRecord JSON_parse (trim line) (set_buffer rest st) w with
    | (Continue, st', w') => readStream JSON_parse ([] :: reads) st' w'
    | (Break, st', w') => readStream JSON_parse reads st' w'
    | (Return, st', w') => (st', w')
    end.
Proof.
  intros Hbuf Hline. simpl. rewrite Hbuf.
  rewrite length_app. simpl. rewrite Nat.add_succ_r. simpl.
  rewrite indexOf_app by done. rewrite slice_line, slice_rest.
  rewrite set_buffer_twice.
  pose proof (handleRecord_buffer (trim line) (set_buffer rest st) w) as Hb.
  destruct (handleRecord JSON_parse (trim line) (set_buffer rest st) w)
    as [[[] st1] w1]; try done.
  simpl in Hb. rewrite app_nil_r, set_buffer_id.
  rewrite (processBuffer_fuel (length line + length rest) (length (buffer st1)));
    [done | | done].
  rewrite Hb. simpl. lia.
Qed.

End DecoderFacts.

(** ** Records of the stream *)

Lemma preprocessContent_string s anns :
  exists s', preprocessContent (VString s) anns = Some (VString s').
Proof.
  unfold preprocessContent. destruct anns as [anns|]; [|by eexists].
  destruct (reverse anns); by eexists.
Qed.

Lemma stopRespondingAndPolling_stopped w :
  poller_inv w -> poller_stopped (stopRespondingAndPolling w).
Proof.
  unfold poller_inv, poller_stopped, stopRespondingAndPolling,
    stopAgentThinkingPolling. simpl.
  destruct (agentThinkingInterval w) as [h|] eqn:E; simpl; rewrite ?E.
  - intros [-> _]. by rewrite filter_ne_singleton.
  - by intros [-> _].
Qed.

Lemma ensure_chatItem_valid st w :
  chatItem_valid st w ->
  exists c item st' w',
    ensure_chatItem st w = (c, st', w')
    /\ chatItem st' = Some c /\ store w' !! c = Some item
    /\ accumulatedContent st' = accumulatedContent st
    /\ isStreaming st' = isStreaming st
    /\ annotations st' = annotations st.
Proof.
  unfold chatItem_valid, ensure_chatItem, createAssistantMessageDiv, alloc.
  destruct (chatItem st) as [c|] eqn:Hc.
  - intros [item Hitem]. by exists c, item, st, w.
  - intros _. simpl. eexists _, _, _, _. split; [done|]. simpl.
    split; [done|]. split; [|done].
    rewrite lookup_app_r by lia. by rewrite Nat.sub_diag.
Qed.

Lemma poller_inv_ensure_chatItem st w :
  poller_inv w -> poller_inv (ensure_chatItem st w).2.
Proof. apply ensure_chatItem_preserves; intros; same_poller. Qed.

Lemma appendAssistantMessage_last_content c acc b anns html item w :
  preprocessContent acc anns = Some html ->
  store w !! c = Some item ->
  last_content (appendAssistantMessage c acc b anns w) = Some html.
Proof.
  intros Hp Hc. rewrite (appendAssistantMessage_eq _ _ _ _ _ _ _ Hp Hc).
  unfold last_content. simpl. rewrite last_snoc. simpl.
  rewrite lookup_app_r by (rewrite length_alter; lia).
  rewrite length_alter. by rewrite Nat.sub_diag.
Qed.

Lemma appendAssistantMessage_store_valid c acc b anns w a :
  is_Some (store w !! a) ->
  is_Some (store (appendAssistantMessage c acc b anns w) !! a).
Proof.
  intros Ha. apply lookup_lt_is_Some in Ha. apply lookup_lt_is_Some.
  unfold appendAssistantMessage, alloc.
  destruct (preprocessContent acc anns); [|done]. simpl.
  destruct (alter _ c (store w) !! c); simpl;
    rewrite ?length_app, ?length_alter; lia.
Qed.

Lemma appendAssistantMessage_stopped c acc b anns w :
  poller_stopped w -> poller_stopped (appendAssistantMessage c acc b anns w).
Proof.
  unfold poller_stopped, appendAssistantMessage, alloc.
  destruct (preprocessContent acc anns); [|done]. simpl.
  by destruct (alter _ c (store w) !! c).
Qed.

Section Records.

Variable JSON_parse : jsstring -> option SSEData.

Lemma handleRecord_completed chunk data c st w :
  startsWith chunk (str "data: ") = true ->
  JSON_parse (slice chunk 6 None) = Some data ->
  is_completed_message data c ->
  chatItem_valid st w ->
  poller_inv w ->
  exists st' w',
    handleRecord JSON_parse chunk st w = (Continue, st', w')
    /\ accumulatedContent st' = VString c
    /\ annotations st' = ev_annotations data
    /\ isStreaming st' = false
    /\ poller_stopped w'
    /\ last_content w' = preprocessContent (VString c) (ev_annotations data)
    /\ chatItem_valid st' w'.
Proof.
  intros Hstart Hparse (Herr & Htype & Hcontent) Hvalid Hinv.
  unfold handleRecord. rewrite Hstart, Hparse, Herr, Htype.
  change (is_string (Some (str "completed_message")) (str "stream_end")) with false.
  change (is_string (Some (str "completed_message")) (str "thread_run")) with false.
  change (is_string (Some (str "completed_message")) (str "completed_message")) with true.
  cbv iota.
  pose proof (poller_inv_ensure_chatItem st w Hinv) as Hinv1.
  destruct (ensure_chatItem_valid st w Hvalid)
    as (a & item & st1 & w1 & Hens & Hst1 & Hitem & _).
  rewrite Hens in Hinv1 |- *. simpl in Hinv1. rewrite Hcontent. simpl.
  destruct (preprocessContent_string c (ev_annotations data)) as [html Hhtml].
  set (w2 := stopRespondingAndPolling (clearAssistantMessage a w1)).
  assert (Hstopped : poller_stopped w2).
  { apply stopRespondingAndPolling_stopped.
    apply (poller_inv_fields w1); [reflexivity | exact Hinv1]. }
  assert (Hitem2 : store w2 !! a = Some (with_content (VString []) item)).
  { subst w2. unfold stopRespondingAndPolling, stopAgentThinkingPolling. simpl.
    destruct (agentThinkingInterval w1); simpl;
      by rewrite list_lookup_alter_eq, Hitem. }
  eexists _, _. split; [done|]. simpl.
  split; [done|]. split; [done|]. split; [done|].
  split; [by apply appendAssistantMessage_stopped|].
  split.
  { rewrite Hhtml. by eapply appendAssistantMessage_last_content. }
  unfold chatItem_valid. simpl. rewrite Hst1.
  apply appendAssistantMessage_store_valid. by eexists.
Qed.

Lemma handleRecord_malformed chunk st w :
  startsWith chunk (str "data: ") = true ->
  JSON_parse (slice chunk 6 None) = None ->
  handleRecord JSON_parse chunk st w
  = (Continue, st, console_error (str "[ChatClient] Failed to parse JSON:") w).
Proof. intros Hs Hp. unfold handleRecord. by rewrite Hs, Hp. Qed.

Lemma readStream_malformed line rest textChunk reads st w :
  malformed JSON_parse line ->
  buffer st ++ textChunk = line ++ newline :: rest ->
  readStream JSON_parse (textChunk :: reads) st w
  = readStream JSON_parse (rest :: reads) (set_buffer [] st)
      (console_error (str "[ChatClient] Failed to parse JSON:") w).
Proof.
  intros (Hline & Hs & Hp) Hbuf.
  rewrite (readStream_line _ line rest) by done.
  rewrite handleRecord_malformed by done.
  simpl. by rewrite app_nil_r.
Qed.

Lemma readStream_drained st w :
  buffer st = [] -> readStream JSON_parse [[]] st w = (st, w).
Proof. intros Hb. simpl. rewrite Hb. simpl. by rewrite <- Hb, set_buffer_id. Qed.

Lemma decoder_resilient l1 m l2 d1 d2 c1 c2 w :
  bears JSON_parse l1 d1 -> is_completed_message d1 c1 ->
  malformed JSON_parse m ->
  bears JSON_parse l2 d2 -> is_completed_message d2 c2 ->
  poller_inv w ->
  last_content
    (handleMessages JSON_parse
       [l1 ++ newline :: m ++ newline :: l2 ++ [newline]] w)
  = preprocessContent (VString c2) (ev_annotations d2).
Proof.
  intros (Hl1 & Hs1 & Hp1) Hd1 (Hm & Hsm & Hpm) (Hl2 & Hs2 & Hp2) Hd2 Hinv.
  unfold handleMessages.
  rewrite (readStream_line _ l1 (m ++ newline :: l2 ++ [newline])) by done.
  destruct (handleRecord_completed (trim l1) d1 c1
              (set_buffer (m ++ newline :: l2 ++ [newline]) handleMessages_init) w)
    as (st1 & w1 & Hr1 & _ & _ & _ & Hstop1 & _ & Hvalid1); try done.
  pose proof (handleRecord_buffer JSON_parse (trim l1)
                (set_buffer (m ++ newline :: l2 ++ [newline]) handleMessages_init) w) as Hb1.
  rewrite Hr1 in Hb1 |- *. simpl in Hb1.
  rewrite (readStream_malformed m (l2 ++ [newline])); [|done|by rewrite Hb1, app_nil_r].
  rewrite (readStream_line _ l2 []) by done.
  destruct (handleRecord_completed (trim l2) d2 c2
              (set_buffer [] (set_buffer [] st1))
              (console_error (str "[ChatClient] Failed to parse JSON:") w1))
    as (st2 & w2 & Hr2 & _ & _ & _ & _ & Hlast & _); try done.
  { destruct Hstop1 as (_ & Hp & Hh & Ht). unfold poller_inv. simpl.
    by rewrite Hh. }
  pose proof (handleRecord_buffer JSON_parse (trim l2)
                (set_buffer [] (set_buffer [] st1))
                (console_error (str "[ChatClient] Failed to parse JSON:") w1)) as Hb2.
  rewrite Hr2 in Hb2 |- *. simpl in Hb2.
  by rewrite readStream_drained.
Qed.

End Records.

(** In the inner loop: when the next line of the buffer is a malformed
    record, the loop logs it and goes on with the rest of the buffer. *)
Lemma processBuffer_malformed parse line rest fuel st w :
  malformed parse line ->
  buffer st = line ++ newline :: rest ->
  (length (buffer st) <= fuel)%nat ->
  processBuffer parse fuel st w
  = processBuffer parse fuel (set_buffer rest st)
      (console_error (str "[ChatClient] Failed to parse JSON:") w).
Proof.
  intros (Hline & Hs & Hp) Hbuf Hfuel.
  rewrite Hbuf, length_app in Hfuel. simpl in Hfuel.
  destruct fuel as [|fuel]; [lia|].
  set (after := processBuffer parse (S fuel) (set_buffer rest st) _).
  cbn [processBuffer]. rewrite Hbuf, indexOf_app by done.
  rewrite slice_line, slice_rest, handleRecord_malformed by done.
  subst after. apply processBuffer_fuel; simpl; lia.
Qed.

(** ** Deltas *)

Section Deltas.

Variable JSON_parse : jsstring -> option SSEData.

Lemma handleRecord_poller_inv chunk st w :
  poller_inv w -> poller_inv (handleRecord JSON_parse chunk st w).2.
Proof.
  apply handleRecord_preserves; intros; try same_poller.
  by apply stop_poller_inv.
Qed.

Lemma handleRecord_delta chunk data st w :
  startsWith chunk (str "data: ") = true ->
  JSON_parse (slice chunk 6 None) = Some data ->
  is_delta data ->
  chatItem_valid st w ->
  exists st' w',
    handleRecord JSON_parse chunk st w = (Continue, st', w')
    /\ accumulatedContent st'
       = add (accumulatedContent st) (of_field (ev_content data))
    /\ chatItem_valid st' w'.
Proof.
  intros Hstart Hparse (Herr & Hend & Hrun & Hcompleted) Hvalid.
  unfold handleRecord. rewrite Hstart, Hparse, Herr, Hend, Hrun, Hcompleted.
  destruct (ensure_chatItem_valid st w Hvalid)
    as (a & item & st1 & w1 & Hens & Hst1 & Hitem & Hacc & _).
  rewrite Hens. eexists _, _. split; [done|]. simpl.
  split; [by rewrite Hacc|].
  unfold chatItem_valid. simpl. rewrite Hst1.
  apply appendAssistantMessage_store_valid. by eexists.
Qed.

Lemma readStream_empty_read reads st w :
  buffer st = [] ->
  readStream JSON_parse ([] :: reads) st w = readStream JSON_parse reads st w.
Proof. intros Hb. simpl. rewrite Hb. simpl. by rewrite <- Hb, set_buffer_id. Qed.

(** A stream that starts with deltas, one line per read. *)
Lemma readStream_deltas deltas reads st w :
  Forall (fun l => bears JSON_parse l.1 l.2 /\ is_delta l.2) deltas ->
  buffer st = [] ->
  chatItem_valid st w ->
  poller_inv w ->
  exists st' w',
    readStream JSON_parse (line_reads deltas ++ reads) st w
    = readStream JSON_parse reads st' w'
    /\ buffer st' = []
    /\ chatItem_valid st' w'
    /\ poller_inv w'
    /\ accumulatedContent st' = accumulate (accumulatedContent st) deltas.
Proof.
  intros Hdeltas.
  induction Hdeltas as [|[line data] deltas [(Hline & Hs & Hp) Hdelta] _ IH]
    in st, w |- *; intros Hb Hvalid Hinv.
  { by exists st, w. }
  change (line_reads ((line, data) :: deltas) ++ reads)
    with ((line ++ [newline]) :: (line_reads deltas ++ reads)).
  simpl in Hline, Hs, Hp, Hdelta.
  pose proof (readStream_line JSON_parse line [] (line ++ [newline])
                (line_reads deltas ++ reads) st w) as Hread.
  rewrite Hread by (by rewrite ?Hb). clear Hread.
  destruct (handleRecord_delta (trim line) data (set_buffer [] st) w)
    as (st1 & w1 & Hr & Hacc & Hvalid1); try done.
  pose proof (handleRecord_buffer JSON_parse (trim line) (set_buffer [] st) w) as Hb1.
  pose proof (handleRecord_poller_inv (trim line) (set_buffer [] st) w Hinv) as Hinv1.
  rewrite Hr in Hb1, Hinv1 |- *. simpl in Hb1, Hinv1.
  rewrite readStream_empty_read by done.
  destruct (IH st1 w1 Hb1 Hvalid1 Hinv1) as (st' & w' & -> & ? & ? & ? & Hacc').
  exists st', w'. repeat split; try done.
  by rewrite Hacc', Hacc.
Qed.

Lemma deltas_then_completed deltas line data c w :
  Forall (fun l => bears JSON_parse l.1 l.2 /\ is_delta l.2) deltas ->
  bears JSON_parse line data ->
  is_completed_message data c ->
  poller_inv w ->
  let w' := handleMessages JSON_parse
              (line_reads deltas ++ [line ++ [newline]]) w in
  last_content w' = preprocessContent (VString c) (ev_annotations data)
  /\ poller_stopped w'.
Proof.
  intros Hdeltas (Hline & Hs & Hp) Hdata Hinv. unfold handleMessages.
  destruct (readStream_deltas deltas [line ++ [newline]] handleMessages_init w)
    as (st1 & w1 & -> & Hb1 & Hvalid1 & Hinv1 & _); try done.
  rewrite (readStream_line _ line []) by (by rewrite ?Hb1).
  destruct (handleRecord_completed JSON_parse (trim line) data c
              (set_buffer [] st1) w1)
    as (st2 & w2 & Hr & _ & _ & _ & Hstop & Hlast & _); try done.
  pose proof (handleRecord_buffer JSON_parse (trim line) (set_buffer [] st1) w1) as Hb2.
  rewrite Hr in Hb2 |- *. simpl in Hb2.
  by rewrite readStream_drained.
Qed.

End Deltas.

(** ** Claims about the decoder and the open turn *)

Lemma appendAssistantMessage_replaces_last_witness :
  let w' := appendAssistantMessage 1 (VString (str "Hi")) true (Some [])
              open_turn_world in
  messageList w' = [0; 2]%nat
  /\ rendered w' !! 0%nat = Some (Some (userMessage 0 (str "hi")))
  /\ last (rendered w')
     = Some (Some {| item_id := UUID 0; content := VString (str "Hi");
                     role := None; isAnswer := true |})
  /\ contents w' = [Some (VString (str "hi")); Some (VString (str "Hi"))].
Proof.
  destruct (appendAssistantMessage_replaces_last 1 (VString (str "Hi")) true
              (Some []) (VString (str "Hi")) open_turn open_turn_world
              eq_refl eq_refl) as (Hlist & Hlast & _ & _ & _ & _ & Hframe & _).
  split; [exact Hlist|]. split; [|split; [exact Hlast | reflexivity]].
  apply (Hframe 0%nat 0%nat); [vm_compute; lia | reflexivity | reflexivity | lia].
Defined.

(** When the open turn is not the last element, the update overwrites
    the last element and shows in the earlier one: the object pushed by
    [createAssistantMessageDiv] is the one the decoder keeps. *)
Example appendAssistantMessage_aliasing :
  let w := push (userMessage 1 (str "more")) (createAssistantMessageDiv initial).2 in
  let w' := appendAssistantMessage 0 (VString (str "Hi")) true (Some []) w in
  contents w = [Some (VString []); Some (VString (str "more"))]
  /\ contents w'
     = [Some (VString (str "Hi")); Some (VString (str "Hi"))].
Proof. split; reflexivity. Qed.

(** C1: a completed-message record replaces the accumulated content by
    the event's content whatever was accumulated, makes the event's
    annotations the current ones, clears the streaming flag, stops the
    responding state and the poller, and the displayed content of the
    open turn is the rewriting of the event's content alone. So a
    stream of deltas followed by a completed message ends with the
    content of the completed message on display. *)
Theorem completed_message_replaces (parse : jsstring -> option SSEData) :
  (forall chunk data c st w,
     startsWith chunk (str "data: ") = true ->
     parse (slice chunk 6 None) = Some data ->
     is_completed_message data c ->
     chatItem_valid st w ->
     poller_inv w ->
     exists st' w',
       handleRecord parse chunk st w = (Continue, st', w')
       /\ accumulatedContent st' = VString c
       /\ annotations st' = ev_annotations data
       /\ isStreaming st' = false
       /\ poller_stopped w'
       /\ last_content w' = preprocessContent (VString c) (ev_annotations data)
       /\ chatItem_valid st' w')
  /\ (forall deltas line data c w,
        Forall (fun l => bears parse l.1 l.2 /\ is_delta l.2) deltas ->
        bears parse line data ->
        is_completed_message data c ->
        poller_inv w ->
        let w' := handleMessages parse
                    (line_reads deltas ++ [line ++ [newline]]) w in
        last_content w' = preprocessContent (VString c) (ev_annotations data)
        /\ poller_stopped w').
Proof.
  split.
  - intros chunk data c st w. apply handleRecord_completed.
  - intros deltas line data c w. apply deltas_then_completed.
Qed.

Lemma completed_message_replaces_witness :
  accumulatedContent
    (readStream example_parse (line_reads hello_lines) handleMessages_init
       initial).1
  = VString (str "Hello")
  /\ last_content
       (handleMessages example_parse
          (line_reads hello_lines ++ [hello_completed ++ [newline]]) initial)
     = Some (VString (str "Hello, world")).
Proof.
  split; [reflexivity|].
  assert (Hnl : forall l : jsstring, bool_decide (newline ∉ l) = true -> newline ∉ l).
  { intros l. apply bool_decide_eq_true_1. }
  apply (proj2 (completed_message_replaces example_parse) hello_lines
           hello_completed (completed_event (str "Hello, world") None)
           (str "Hello, world") initial).
  - repeat constructor; by apply Hnl.
  - split; [by apply Hnl|]. by split.
  - by repeat split.
  - by split.
Defined.

(** The whole scenario through [onSend]. *)
Example hello_world_session :
  contents (onSend example_parse (str "hi") (Responded false None)
                (Responded true
                   {| as_json := None;
                      as_stream := Some (hello_deltas ++ [hello_completed ++ [newline]]) |})
                initial)
  = [Some (VString (str "hi")); Some (VString (str "Hello, world"))].
Proof. reflexivity. Qed.

(** A send in single mode: two deltas and the end marker. The poller
    is never started. *)
Example single_mode_session :
  let w := onSend example_parse (str "hi") no_status hi_there_stream initial in
  contents w = [Some (VString (str "hi")); Some (VString (str "Hi there"))]
  /\ requests w = [message_request (str "hi")]
  /\ timers w = [] /\ nextTimer w = 1%nat /\ isResponding w = false.
Proof. intros w. by vm_compute. Qed.

(** C7: a record whose payload is not JSON is logged and skipped: the
    inner loop goes on with the rest of the buffer, and the stream goes
    on as the stream without that record does. In particular, with one
    such line between two lines that bear completed messages, the final
    content of the turn is that of the second. *)
Theorem malformed_record_skipped (parse : jsstring -> option SSEData) :
  (forall line rest fuel st w,
     malformed parse line ->
     buffer st = line ++ newline :: rest ->
     (length (buffer st) <= fuel)%nat ->
     processBuffer parse fuel st w
     = processBuffer parse fuel (set_buffer rest st)
         (console_error (str "[ChatClient] Failed to parse JSON:") w))
  /\ (forall line rest textChunk reads st w,
     malformed parse line ->
     buffer st ++ textChunk = line ++ newline :: rest ->
     readStream parse (textChunk :: reads) st w
     = readStream parse (rest :: reads) (set_buffer [] st)
         (console_error (str "[ChatClient] Failed to parse JSON:") w))
  /\ (forall l1 m l2 d1 d2 c1 c2 w,
        bears parse l1 d1 -> is_completed_message d1 c1 ->
        malformed parse m ->
        bears parse l2 d2 -> is_completed_message d2 c2 ->
        poller_inv w ->
        last_content
          (handleMessages parse
             [l1 ++ newline :: m ++ newline :: l2 ++ [newline]] w)
        = preprocessContent (VString c2) (ev_annotations d2)).
Proof.
  split; [|split].
  - intros line rest fuel st w. apply processBuffer_malformed.
  - intros line rest textChunk reads st w Hm Hb.
    by apply (readStream_malformed parse line).
  - intros. by eapply decoder_resilient.
Qed.

Lemma malformed_record_skipped_witness :
  malformed example_parse broken_line
  /\ last_content
       (handleMessages example_parse
          [first_line ++ newline :: broken_line ++ newline :: second_line
           ++ [newline]] initial)
     = Some (VString (str "second"))
  /\ errors
       (handleMessages example_parse
          [first_line ++ newline :: broken_line ++ newline :: second_line
           ++ [newline]] initial)
     = [str "[ChatClient] Failed to parse JSON:"].
Proof.
  assert (Hnl : forall l : jsstring, bool_decide (newline ∉ l) = true -> newline ∉ l).
  { intros l. apply bool_decide_eq_true_1. }
  assert (Hm : malformed example_parse broken_line).
  { split; [by apply Hnl|]. by split. }
  split; [exact Hm|]. split; [|reflexivity].
  apply (proj2 (proj2 (malformed_record_skipped example_parse))
           first_line broken_line
           second_line (completed_event (str "first") None)
           (completed_event (str "second") None) (str "first") (str "second")).
  - split; [by apply Hnl|]. by split.
  - by repeat split.
  - exact Hm.
  - split; [by apply Hnl|]. by split.
  - by repeat split.
  - by split.
Defined.

(** At a stream-end record the body of the inner loop stops the poller,
    touches neither the decoder's variables nor the transcript, and
    leaves the inner loop only. *)
Lemma handleRecord_stream_end parse chunk data st w :
  startsWith chunk (str "data: ") = true ->
  parse (slice chunk 6 None) = Some data ->
  ev_error data = None ->
  ev_type data = Some (str "stream_end") ->
  handleRecord parse chunk st w = (Break, st, stopRespondingAndPolling w)
  /\ store (stopRespondingAndPolling w) = store w
  /\ messageList (stopRespondingAndPolling w) = messageList w.
Proof.
  intros Hs Hp He Ht. unfold handleRecord. rewrite Hs, Hp, He, Ht.
  split; [done|].
  unfold stopRespondingAndPolling, stopAgentThinkingPolling. simpl.
  by destruct (agentThinkingInterval w).
Qed.

(** After a stream-end record the outer loop takes the next read. *)
Lemma readStream_stream_end parse line rest textChunk reads data st w :
  bears parse line data ->
  ev_error data = None ->
  ev_type data = Some (str "stream_end") ->
  buffer st ++ textChunk = line ++ newline :: rest ->
  readStream parse (textChunk :: reads) st w
  = readStream parse reads (set_buffer rest st) (stopRespondingAndPolling w).
Proof.
  intros (Hline & Hs & Hp) He Ht Hbuf.
  rewrite (readStream_line _ line rest) by done.
  by destruct (handleRecord_stream_end parse (trim line) data
                 (set_buffer rest st) w Hs Hp He Ht) as [-> _].
Qed.

(** C3 fails on the code: the [break] at the stream-end record leaves
    the inner loop only, so a record that arrives in a later read is
    processed and changes the content of the turn. *)
Theorem stream_end_keeps_reading :
  last_content (handleMessages example_parse (take 2 late_delta_stream) initial)
  = Some (VString (str "Hi"))
  /\ last_content (handleMessages example_parse late_delta_stream initial)
     = Some (VString (str "Hi there")).
Proof. split; reflexivity. Qed.

(** ** Sending *)

Ltac same_session :=
  match goal with
  | H : session_fields ?w = _ |- session_fields _ = _ =>
      transitivity (session_fields w); [reflexivity | exact H]
  end.

Lemma stopAgentThinkingPolling_session w :
  session_fields (stopAgentThinkingPolling w) = session_fields w.
Proof.
  unfold stopAgentThinkingPolling. simpl.
  by destruct (agentThinkingInterval w).
Qed.

Lemma handleMessages_session parse stream w :
  session_fields (handleMessages parse stream w) = session_fields w.
Proof.
  apply (handleMessages_preserves (fun w' => session_fields w' = session_fields w));
    intros; try same_session; [|done].
  by rewrite stopAgentThinkingPolling_session.
Qed.

Lemma startAgentThinkingPolling_session w :
  session_fields (startAgentThinkingPolling w) = session_fields w.
Proof.
  unfold startAgentThinkingPolling. by destruct (_ && _).
Qed.

Lemma onSend_catch_session e w :
  session_fields (onSend_catch e w) = session_fields w.
Proof.
  unfold onSend_catch, stopRespondingAndPolling, stopAgentThinkingPolling.
  simpl. by destruct (eqb _ _), (agentThinkingInterval w).
Qed.

Lemma onSend_catch_transcript e w :
  store (onSend_catch e w) = store w
  /\ messageList (onSend_catch e w) = messageList w.
Proof.
  unfold onSend_catch, stopRespondingAndPolling, stopAgentThinkingPolling.
  simpl. by destruct (eqb _ _), (agentThinkingInterval w).
Qed.

Lemma onSend_dispatch_session parse useOrchestration message chat_result w :
  session_fields (onSend_dispatch parse useOrchestration message chat_result w)
  = (requests w ++ [chat_request useOrchestration message],
     orchestrationInitialized w, isOrchestrationMode w, showAgentThinking w).
Proof.
  unfold onSend_dispatch.
  set (w1 := if useOrchestration && showAgentThinking (setIsResponding true w)
             then startAgentThinkingPolling (setIsResponding true w)
             else setIsResponding true w).
  assert (H1 : session_fields w1 = session_fields w).
  { subst w1. destruct (_ && _); [|done].
    by rewrite startAgentThinkingPolling_session. }
  clearbody w1.
  match goal with |- context [fetch ?r w1] =>
    assert (H2 : session_fields (fetch r w1)
                 = (requests w ++ [chat_request useOrchestration message],
                    orchestrationInitialized w, isOrchestrationMode w,
                    showAgentThinking w));
    [ | generalize dependent (fetch r w1) ] end.
  { unfold session_fields in *. simpl. injection H1 as -> -> -> ->.
    by destruct useOrchestration. }
  intros w2 H2.
  destruct chat_result as [e|[] response].
  - by rewrite onSend_catch_session.
  - destruct useOrchestration.
    + destruct (as_json response) as [j|]; [|by rewrite onSend_catch_session].
      simpl. unfold stopRespondingAndPolling.
      rewrite stopAgentThinkingPolling_session.
      repeat case_match; same_session.
    + destruct (as_stream response);
        [by rewrite handleMessages_session | by rewrite onSend_catch_session].
  - same_session.
Qed.

Lemma revalidate_spec r w :
  (revalidate r w).1 = reports_initialized r
  /\ requests (revalidate r w).2 = requests w ++ [status_request]
  /\ orchestrationInitialized (revalidate r w).2
     = (orchestrationInitialized w || reports_initialized r)
  /\ isOrchestrationMode (revalidate r w).2 = isOrchestrationMode w
  /\ showAgentThinking (revalidate r w).2 = showAgentThinking w
  /\ store (revalidate r w).2 = store w
  /\ messageList (revalidate r w).2 = messageList w
  /\ isResponding (revalidate r w).2 = isResponding w
  /\ entropy (revalidate r w).2 = entropy w.
Proof.
  unfold revalidate, reports_initialized.
  destruct r as [e|[] [d|]]; simpl; rewrite ?orb_false_r; try done.
  destruct (_ && _); simpl; by rewrite ?orb_false_r, ?orb_true_r.
Qed.

Lemma onSend_eq parse message status_result chat_result w :
  onSend parse message status_result chat_result w
  = onSend_dispatch parse (uses_orchestration status_result w) message
      chat_result (at_dispatch message status_result w).
Proof.
  unfold onSend, uses_orchestration, at_dispatch, revalidates, with_user_turn.
  simpl. set (w0 := push _ _).
  change (isOrchestrationMode w0) with (isOrchestrationMode w).
  change (orchestrationInitialized w0) with (orchestrationInitialized w).
  destruct (isOrchestrationMode w && negb (orchestrationInitialized w)); [|done].
  destruct (revalidate_spec status_result w0) as (Hu & _).
  destruct (revalidate status_result w0) as [u w1]. simpl in Hu. by subst u.
Qed.

Lemma at_dispatch_spec message status_result w :
  let w1 := at_dispatch message status_result w in
  store w1 = store w ++ [userMessage (entropy w) message]
  /\ messageList w1 = messageList w ++ [length (store w)]
  /\ isResponding w1 = isResponding w
  /\ requests w1
     = requests w ++ (if revalidates w then [status_request] else [])
  /\ orchestrationInitialized w1
     = (if revalidates w then reports_initialized status_result
        else orchestrationInitialized w)
  /\ isOrchestrationMode w1 = isOrchestrationMode w
  /\ showAgentThinking w1 = showAgentThinking w
  /\ exists earlier, errors w1 = errors w ++ earlier.
Proof.
  unfold at_dispatch. destruct (revalidates w) eqn:Hre; simpl.
  - destruct (revalidate_spec status_result (with_user_turn message w))
      as (_ & Hr & Hi & Hm & Ht & Hs & Hl & Hresp & _).
    rewrite Hr, Hi, Hm, Ht, Hs, Hl, Hresp.
    unfold revalidates in Hre.
    apply andb_prop in Hre as [_ Hinit%negb_true_iff].
    change (orchestrationInitialized (with_user_turn message w))
      with (orchestrationInitialized w). rewrite Hinit.
    repeat split; try done.
    unfold revalidate. destruct status_result as [e|[] [d|]]; simpl;
      try (by eexists); try (by exists []; rewrite app_nil_r).
    destruct (_ && _); by exists []; rewrite app_nil_r.
  - repeat split; try done; try (by rewrite app_nil_r).
    by exists []; rewrite app_nil_r.
Qed.

Lemma at_dispatch_errors message status_result w :
  errors (at_dispatch message status_result w)
  = errors w ++ status_log status_result w.
Proof.
  unfold at_dispatch, status_log.
  destruct (revalidates w); [|by rewrite app_nil_r].
  unfold revalidate.
  destruct status_result as [e|[] [d|]]; simpl; rewrite ?app_nil_r; try done.
  destruct (_ && _); simpl; by rewrite ?app_nil_r.
Qed.

(** The requests of one send: the status request if the cached flag is
    off in orchestration mode, then one chat request. *)
Lemma onSend_requests parse message status_result chat_result w :
  requests (onSend parse message status_result chat_result w)
  = requests w
    ++ (if revalidates w then [status_request] else [])
    ++ [chat_request (uses_orchestration status_result w) message]
  /\ orchestrationInitialized (onSend parse message status_result chat_result w)
     = (if revalidates w then reports_initialized status_result
        else orchestrationInitialized w).
Proof.
  rewrite onSend_eq.
  pose proof (onSend_dispatch_session parse (uses_orchestration status_result w)
                message chat_result (at_dispatch message status_result w)) as Hd.
  unfold session_fields in Hd. injection Hd as -> -> _ _.
  destruct (at_dispatch_spec message status_result w)
    as (_ & _ & _ & -> & -> & _).
  by rewrite <- app_assoc.
Qed.

Lemma startAgentThinkingPolling_transcript w :
  store (startAgentThinkingPolling w) = store w
  /\ messageList (startAgentThinkingPolling w) = messageList w
  /\ errors (startAgentThinkingPolling w) = errors w
  /\ isResponding (startAgentThinkingPolling w) = isResponding w.
Proof. unfold startAgentThinkingPolling. by destruct (_ && _). Qed.

Lemma onSend_catch_errors e w :
  errors (onSend_catch e w) = errors w ++ failure_log (Rejected e).
Proof.
  unfold onSend_catch, stopRespondingAndPolling, stopAgentThinkingPolling.
  simpl. destruct (eqb _ _), (agentThinkingInterval w); simpl;
    by rewrite ?app_nil_r.
Qed.

Lemma onSend_dispatch_failure parse useOrchestration message chat_result w :
  transport_failure chat_result = true ->
  store (onSend_dispatch parse useOrchestration message chat_result w) = store w
  /\ messageList (onSend_dispatch parse useOrchestration message chat_result w)
     = messageList w
  /\ errors (onSend_dispatch parse useOrchestration message chat_result w)
     = errors w ++ failure_log chat_result.
Proof.
  intros Hfail. unfold onSend_dispatch.
  set (w1 := if useOrchestration && showAgentThinking (setIsResponding true w)
             then startAgentThinkingPolling (setIsResponding true w)
             else setIsResponding true w).
  assert (H1 : store w1 = store w /\ messageList w1 = messageList w
               /\ errors w1 = errors w).
  { subst w1. destruct (_ && _); [|done].
    by destruct (startAgentThinkingPolling_transcript (setIsResponding true w))
      as (-> & -> & -> & _). }
  destruct H1 as (Hs & Hm & He). clearbody w1.
  destruct chat_result as [e|[] response]; [|done|].
  - destruct (onSend_catch_transcript e
                (fetch {| url := if useOrchestration then orchestration_chat_url else chat_url;
                          method := POST;
                          body := Some (if useOrchestration
                                        then [(str "query", Text message)]
                                        else [(str "message", Text message)]) |} w1))
      as [-> ->].
    rewrite onSend_catch_errors. simpl. by rewrite Hs, Hm, He.
  - simpl. by rewrite Hs, Hm, He.
Qed.




(** ** Worlds that look the same

    The decoder and the dispatch of a send read of the world only what
    is visible: from two worlds that look the same they lead to worlds
    that look the same, by the same steps. *)

Ltac visible_eq :=
  unfold visible in *; simpl in *; first [congruence | split; congruence].

Lemma visible_stop w : visible (stopAgentThinkingPolling w) = visible w.
Proof.
  unfold stopAgentThinkingPolling. simpl. by destruct (agentThinkingInterval w).
Qed.

Lemma visible_start w : visible (startAgentThinkingPolling w) = visible w.
Proof. unfold startAgentThinkingPolling. by destruct (_ && _). Qed.

Lemma visible_stopRespondingAndPolling w1 w2 :
  visible w1 = visible w2 ->
  visible (stopRespondingAndPolling w1) = visible (stopRespondingAndPolling w2).
Proof.
  intros H. unfold stopRespondingAndPolling. rewrite !visible_stop.
  visible_eq.
Qed.

Lemma visible_appendAssistantMessage c v b anns w1 w2 :
  visible w1 = visible w2 ->
  visible (appendAssistantMessage c v b anns w1)
  = visible (appendAssistantMessage c v b anns w2).
Proof.
  intros H. unfold appendAssistantMessage, alloc.
  destruct (preprocessContent v anns); [|visible_eq].
  assert (Hs : store w1 = store w2) by visible_eq.
  simpl. rewrite Hs. destruct (alter _ c (store w2) !! c); visible_eq.
Qed.

Lemma visible_clearAssistantMessage c w1 w2 :
  visible w1 = visible w2 ->
  visible (clearAssistantMessage c w1) = visible (clearAssistantMessage c w2).
Proof. intros H. visible_eq. Qed.

Lemma visible_push item w1 w2 :
  visible w1 = visible w2 -> visible (push item w1) = visible (push item w2).
Proof. intros H. visible_eq. Qed.

Lemma visible_ensure_chatItem st w1 w2 :
  visible w1 = visible w2 ->
  (ensure_chatItem st w1).1 = (ensure_chatItem st w2).1
  /\ visible (ensure_chatItem st w1).2 = visible (ensure_chatItem st w2).2.
Proof.
  intros H. unfold ensure_chatItem, createAssistantMessageDiv, alloc.
  destruct (chatItem st); [done|]. simpl. split; visible_eq.
Qed.

Section Simulation.

Variable JSON_parse : jsstring -> option SSEData.

Lemma visible_handleRecord chunk st w1 w2 :
  visible w1 = visible w2 ->
  (handleRecord JSON_parse chunk st w1).1 = (handleRecord JSON_parse chunk st w2).1
  /\ visible (handleRecord JSON_parse chunk st w1).2
     = visible (handleRecord JSON_parse chunk st w2).2.
Proof.
  intros H. unfold handleRecord.
  destruct (startsWith chunk _); [|done].
  destruct (JSON_parse _) as [data|]; [|visible_eq].
  destruct (visible_ensure_chatItem st w1 w2 H) as [He1 He2].
  destruct (ev_error data).
  { destruct (ensure_chatItem st w1) as [[c1 st1] w1'],
             (ensure_chatItem st w2) as [[c2 st2] w2']. simpl in *.
    injection He1 as -> ->. split; [done|].
    by apply visible_appendAssistantMessage, visible_stopRespondingAndPolling. }
  destruct (is_string (ev_type data) (str "stream_end")).
  { simpl. split; [done|]. by apply visible_stopRespondingAndPolling. }
  destruct (is_string (ev_type data) (str "thread_run")); [done|].
  destruct (ensure_chatItem st w1) as [[c1 st1] w1'],
           (ensure_chatItem st w2) as [[c2 st2] w2']. simpl in *.
  injection He1 as -> ->.
  destruct (is_string (ev_type data) (str "completed_message")); simpl;
    (split; [done|]); apply visible_appendAssistantMessage; [|done].
  by apply visible_stopRespondingAndPolling, visible_clearAssistantMessage.
Qed.

Lemma visible_processBuffer fuel st w1 w2 :
  visible w1 = visible w2 ->
  (processBuffer JSON_parse fuel st w1).1 = (processBuffer JSON_parse fuel st w2).1
  /\ visible (processBuffer JSON_parse fuel st w1).2
     = visible (processBuffer JSON_parse fuel st w2).2.
Proof.
  induction fuel as [|fuel IH] in st, w1, w2 |- *; intros H; simpl.
  - by destruct (indexOf _ _).
  - destruct (indexOf _ _) as [boundary|]; [|done].
    match goal with |- context [handleRecord _ ?c ?s w1] =>
      destruct (visible_handleRecord c s w1 w2 H) as [Hr1 Hr2];
      destruct (handleRecord JSON_parse c s w1) as [[f1 st1] w1'],
               (handleRecord JSON_parse c s w2) as [[f2 st2] w2'] end.
    simpl in *. injection Hr1 as -> ->. destruct f2; auto.
Qed.

Lemma visible_readStream reads st w1 w2 :
  visible w1 = visible w2 ->
  visible (readStream JSON_parse reads st w1).2
  = visible (readStream JSON_parse reads st w2).2.
Proof.
  induction reads as [|textChunk reads IH] in st, w1, w2 |- *; intros H; simpl;
    [done|].
  match goal with |- context [processBuffer _ ?n ?s w1] =>
    destruct (visible_processBuffer n s w1 w2 H) as [Hp1 Hp2];
    destruct (processBuffer JSON_parse n s w1) as [[b1 st1] w1'],
             (processBuffer JSON_parse n s w2) as [[b2 st2] w2'] end.
  simpl in *. injection Hp1 as -> ->. destruct b2; auto.
Qed.

Lemma visible_onSend_catch e w1 w2 :
  visible w1 = visible w2 ->
  visible (onSend_catch e w1) = visible (onSend_catch e w2).
Proof.
  intros H. unfold onSend_catch.
  pose proof (visible_stopRespondingAndPolling w1 w2 H) as Hs.
  destruct (eqb _ _); [done|]. visible_eq.
Qed.

(** The single-agent dispatch from two worlds that look the same. *)
Lemma visible_onSend_dispatch_single message chat_result w1 w2 :
  visible w1 = visible w2 ->
  visible (onSend_dispatch JSON_parse false message chat_result w1)
  = visible (onSend_dispatch JSON_parse false message chat_result w2).
Proof.
  intros H. unfold onSend_dispatch. cbn [andb].
  destruct chat_result as [e|[] response].
  - apply visible_onSend_catch. visible_eq.
  - destruct (as_stream response).
    + apply visible_readStream. visible_eq.
    + apply visible_onSend_catch. visible_eq.
  - visible_eq.
Qed.

End Simulation.

(** ** Claims about sending *)

(** A send through the render current at the call, as the chat input
    holds it after an earlier send or New Chat: in orchestration mode
    with the cached flag off it asks the status endpoint once, before the
    chat request. If the answer
    confirms the initialization (a 2xx answer with status [success] whose
    orchestration status is [initialized]) the cache is set and the chat
    request goes to the orchestration endpoint with the query; else the
    request goes to the single-agent endpoint and what the user sees is
    what the same send shows in single mode. *)
Theorem revalidation_chooses_path (parse : jsstring -> option SSEData)
    (message : jsstring) (status_result : Fetched (option StatusData))
    (chat_result : Fetched ChatPayload) (w : World) :
  isOrchestrationMode w = true ->
  orchestrationInitialized w = false ->
  let w' := onSend parse message status_result chat_result w in
  requests w'
  = requests w
    ++ [status_request;
        if reports_initialized status_result then query_request message
        else message_request message]
  /\ orchestrationInitialized w' = reports_initialized status_result
  /\ (reports_initialized status_result = false ->
      visible w'
      = visible (onSend parse message status_result chat_result
                   (setIsOrchestrationMode false w))).
Proof.
  intros Hmode Hinit w'. subst w'.
  assert (Hre : revalidates w = true).
  { unfold revalidates. by rewrite Hmode, Hinit. }
  destruct (onSend_requests parse message status_result chat_result w)
    as [Hreq Hflag].
  unfold uses_orchestration in Hreq. rewrite Hre in Hreq, Hflag.
  split; [exact Hreq|]. split; [exact Hflag|].
  intros Hno. rewrite !onSend_eq.
  unfold uses_orchestration, at_dispatch. rewrite Hre, Hno.
  change (revalidates (setIsOrchestrationMode false w)) with false.
  cbv iota. change (isOrchestrationMode (setIsOrchestrationMode false w)) with false.
  cbn [andb].
  apply visible_onSend_dispatch_single.
  destruct (revalidate_spec status_result (with_user_turn message w))
    as (_ & _ & _ & _ & _ & Hs & Hl & Hr & He).
  unfold visible. by rewrite Hs, Hl, Hr, He.
Qed.

Lemma revalidation_chooses_path_witness :
  requests (onSend example_parse (str "hi") status_initialized
              orchestration_answer stale_world)
  = [status_request; query_request (str "hi")]
  /\ orchestrationInitialized
       (onSend example_parse (str "hi") status_initialized
          orchestration_answer stale_world) = true.
Proof.
  destruct (revalidation_chooses_path example_parse (str "hi")
              status_initialized orchestration_answer stale_world
              eq_refl eq_refl) as (Hr & Hi & _).
  split; [exact Hr | exact Hi].
Defined.

(** When the orchestration path is taken, every outcome but a response
    that is not 2xx stops the poller. *)
Lemma onSend_dispatch_settles parse message chat_result w :
  poller_inv w ->
  (forall response, chat_result <> Responded false response) ->
  poller_stopped (onSend_dispatch parse true message chat_result w).
Proof.
  intros Hinv Hok. unfold onSend_dispatch. cbn [andb].
  set (w1 := if showAgentThinking (setIsResponding true w)
             then startAgentThinkingPolling (setIsResponding true w)
             else setIsResponding true w).
  assert (H1 : poller_inv w1).
  { subst w1. assert (poller_inv (setIsResponding true w)) by same_poller.
    destruct (showAgentThinking _); [by apply start_poller_inv | done]. }
  clearbody w1.
  match goal with |- context [fetch ?r w1] =>
    assert (H2 : poller_inv (fetch r w1)) by same_poller;
    generalize dependent (fetch r w1) end.
  intros w2 H2.
  assert (Hcatch : forall e, poller_stopped (onSend_catch e w2)).
  { intros e. unfold onSend_catch.
    pose proof (stopRespondingAndPolling_stopped w2 H2) as Hs.
    by destruct (eqb _ _). }
  destruct chat_result as [e|[] response]; [done| |by destruct (Hok response)].
  destruct (as_json response) as [j|]; [|done].
  simpl. apply stopRespondingAndPolling_stopped.
  repeat case_match; apply push_poller_inv; same_poller.
Qed.

(** C6 fails on the code: with orchestration initialized and the
    thinking display on, a send that the server answers with a 500 has
    started the poller and returns without stopping it: the timer stays
    live, the client stays in the responding state, and the timer goes
    on issuing requests. *)
Theorem non_ok_leaves_poller_running :
  let w' := onSend example_parse (str "hi") no_status server_error
              thinking_world in
  timers thinking_world = []
  /\ timers w' = [1%nat]
  /\ agentThinkingInterval w' = Some 1%nat
  /\ isPollingThinking w' = true
  /\ isResponding w' = true
  /\ requests (interval_elapses (Responded false None) w')
     = requests w' ++ [thinking_request].
Proof. intros w'. by vm_compute. Qed.

(** Every request that [onSend] issues to the orchestration chat
    endpoint is a POST whose body is the object with the single field
    [query] holding the user's text. *)
Theorem onSend_orchestration_body (parse : jsstring -> option SSEData)
    (message : jsstring) (status_result : Fetched (option StatusData))
    (chat_result : Fetched ChatPayload) (w : World) :
  exists sent,
    requests (onSend parse message status_result chat_result w)
    = requests w ++ sent
    /\ forall r, r ∈ sent -> url r = orchestration_chat_url ->
         method r = POST /\ body r = Some [(str "query", Text message)].
Proof.
  destruct (onSend_requests parse message status_result chat_result w)
    as [Hreq _].
  eexists. split; [exact Hreq|].
  intros r Hr Hurl. apply elem_of_app in Hr as [Hr|Hr].
  - destruct (revalidates w); [|by apply elem_of_nil in Hr].
    apply list_elem_of_singleton in Hr as ->. discriminate Hurl.
  - apply list_elem_of_singleton in Hr as ->.
    destruct (uses_orchestration status_result w); [done|].
    discriminate Hurl.
Qed.

(** ** What a stream leaves of the transcript *)

Lemma stream_inv_same w0 st w w' :
  store w' = store w -> messageList w' = messageList w ->
  stream_inv w0 st w -> stream_inv w0 st w'.
Proof. unfold stream_inv. by intros -> ->. Qed.

Lemma stream_inv_set_buffer w0 b st w :
  stream_inv w0 st w -> stream_inv w0 (set_buffer b st) w.
Proof. done. Qed.

Lemma stopRespondingAndPolling_transcript w :
  store (stopRespondingAndPolling w) = store w
  /\ messageList (stopRespondingAndPolling w) = messageList w.
Proof.
  unfold stopRespondingAndPolling, stopAgentThinkingPolling. simpl.
  by destruct (agentThinkingInterval w).
Qed.

Lemma stream_inv_ensure_chatItem w0 st w :
  stream_inv w0 st w ->
  exists c st' w',
    ensure_chatItem st w = (c, st', w')
    /\ chatItem st' = Some c
    /\ accumulatedContent st' = accumulatedContent st
    /\ isStreaming st' = isStreaming st
    /\ annotations st' = annotations st
    /\ buffer st' = buffer st
    /\ stream_inv w0 st' w'.
Proof.
  intros (Hs & Hm & Hc). unfold ensure_chatItem.
  destruct (chatItem st) as [c|] eqn:Hst.
  - exists c, st, w. repeat split; try done. unfold stream_inv. by rewrite Hst.
  - assert (Hls : (length (store w0) <= length (store w))%nat).
    { rewrite <- Hs at 1. rewrite length_take. lia. }
    unfold createAssistantMessageDiv, alloc. simpl.
    eexists _, _, _. split; [done|]. simpl.
    do 5 (split; [done|]). unfold stream_inv. simpl.
    rewrite !take_app_le by lia. rewrite !length_app. simpl.
    repeat split; try done; lia.
Qed.

Lemma stream_inv_clearAssistantMessage w0 st w c :
  chatItem st = Some c ->
  stream_inv w0 st w -> stream_inv w0 st (clearAssistantMessage c w).
Proof.
  intros Hst (Hs & Hm & Hc). unfold stream_inv in *. rewrite Hst in *.
  simpl. destruct Hc as [Hc Hl].
  rewrite take_alter_ge by lia. rewrite length_alter. done.
Qed.

Lemma stream_inv_appendAssistantMessage w0 st w c v b anns :
  chatItem st = Some c ->
  stream_inv w0 st w ->
  stream_inv w0 st (appendAssistantMessage c v b anns w).
Proof.
  intros Hst Hinv. pose proof Hinv as (Hs & Hm & Hc).
  rewrite Hst in Hc. destruct Hc as [Hc Hl].
  destruct (preprocessContent v anns) as [html|] eqn:Hp.
  2: { unfold appendAssistantMessage. rewrite Hp.
       by apply (stream_inv_same w0 st w). }
  destruct (lookup_lt_is_Some_2 (store w) c) as [item Hitem]; [lia|].
  rewrite (appendAssistantMessage_eq _ _ _ _ _ _ _ Hp Hitem).
  unfold stream_inv. rewrite Hst. simpl.
  rewrite slice_0_m1_take, Hl. simpl. rewrite Nat.sub_0_r.
  repeat split.
  - rewrite take_app_le by (rewrite length_alter; lia).
    by rewrite take_alter_ge by lia.
  - rewrite take_app_le by (rewrite length_take; lia).
    rewrite take_take, Nat.min_id. done.
  - lia.
  - rewrite length_app, length_alter. simpl. lia.
  - rewrite length_app, length_take. simpl. lia.
Qed.

Section Frame.

Variable JSON_parse : jsstring -> option SSEData.

Lemma stream_inv_handleRecord w0 chunk st w :
  stream_inv w0 st w ->
  stream_inv w0 (handleRecord JSON_parse chunk st w).1.2
    (handleRecord JSON_parse chunk st w).2.
Proof.
  intros Hinv. unfold handleRecord.
  destruct (startsWith chunk _); [|done].
  destruct (JSON_parse _) as [data|]; [|done].
  destruct (stream_inv_ensure_chatItem w0 st w Hinv)
    as (c & st1 & w1 & Hens & Hst1 & _ & _ & _ & _ & Hinv1).
  destruct (stopRespondingAndPolling_transcript w1) as [Hss Hsm].
  destruct (ev_error data).
  { rewrite Hens. simpl. apply stream_inv_appendAssistantMessage; [done|].
    by apply (stream_inv_same w0 st1 w1). }
  destruct (is_string (ev_type data) (str "stream_end")).
  { simpl. destruct (stopRespondingAndPolling_transcript w) as [? ?].
    by apply (stream_inv_same w0 st w). }
  destruct (is_string (ev_type data) (str "thread_run")); [done|].
  rewrite Hens.
  destruct (is_string (ev_type data) (str "completed_message")); simpl.
  - apply stream_inv_appendAssistantMessage; [done|].
    destruct (stopRespondingAndPolling_transcript (clearAssistantMessage c w1))
      as [? ?].
    apply (stream_inv_same w0 _ (clearAssistantMessage c w1)); [done|done|].
    by apply stream_inv_clearAssistantMessage.
  - by apply stream_inv_appendAssistantMessage.
Qed.

Lemma stream_inv_processBuffer w0 fuel st w :
  stream_inv w0 st w ->
  stream_inv w0 (processBuffer JSON_parse fuel st w).1.2
    (processBuffer JSON_parse fuel st w).2.
Proof.
  induction fuel as [|fuel IH] in st, w |- *; intros Hinv; simpl.
  - by destruct (indexOf _ _).
  - destruct (indexOf _ _) as [boundary|]; [|done].
    match goal with |- context [handleRecord _ ?c ?s w] =>
      pose proof (stream_inv_handleRecord w0 c s w
                    (stream_inv_set_buffer _ _ _ _ Hinv)) as Hr;
      destruct (handleRecord JSON_parse c s w) as [[[] st1] w1] end;
    simpl in *; auto.
Qed.

Lemma stream_inv_readStream w0 reads st w :
  stream_inv w0 st w ->
  stream_inv w0 (readStream JSON_parse reads st w).1
    (readStream JSON_parse reads st w).2.
Proof.
  induction reads as [|textChunk reads IH] in st, w |- *; intros Hinv; simpl;
    [done|].
  match goal with |- context [processBuffer _ ?n ?s w] =>
    pose proof (stream_inv_processBuffer w0 n s w
                  (stream_inv_set_buffer _ _ _ _ Hinv)) as Hp;
    destruct (processBuffer JSON_parse n s w) as [[[] st1] w1] end;
  simpl in *; auto.
Qed.

End Frame.

(** X1: reading a stream keeps every object and every element of the
    message list that were there when it began, and adds at most one
    element to the list, whatever the events of the stream are. *)
Theorem stream_keeps_earlier_turns (parse : jsstring -> option SSEData)
    (stream : list jsstring) (w : World) :
  let w' := handleMessages parse stream w in
  store w `prefix_of` store w'
  /\ messageList w `prefix_of` messageList w'
  /\ (length (messageList w') <= S (length (messageList w)))%nat
  /\ forall i a turn,
       messageList w !! i = Some a -> store w !! a = Some turn ->
       rendered w' !! i = Some (Some turn).
Proof.
  intros w'.
  assert (Hinit : stream_inv w handleMessages_init w).
  { unfold stream_inv. simpl. by rewrite !firstn_all. }
  pose proof (stream_inv_readStream parse w stream handleMessages_init w Hinit)
    as (Hs & Hm & Hc).
  fold (handleMessages parse stream w) in Hs, Hm, Hc. fold w' in Hs, Hm, Hc.
  assert (Hps : store w `prefix_of` store w').
  { rewrite <- Hs. apply prefix_take. }
  assert (Hpm : messageList w `prefix_of` messageList w').
  { rewrite <- Hm. apply prefix_take. }
  split; [done|]. split; [done|]. split.
  { destruct (chatItem _); lia. }
  intros i a turn Hi Ha. unfold rendered. rewrite list_lookup_fmap.
  rewrite (prefix_lookup_Some _ _ _ _ Hi Hpm). simpl.
  by rewrite (prefix_lookup_Some _ _ _ _ Ha Hps).
Qed.

Lemma stream_keeps_earlier_turns_witness :
  rendered
    (handleMessages delta_parse (line_reads hi_there_lines)
       (push (userMessage 0 (str "hi")) initial)) !! 0%nat
  = Some (Some (userMessage 0 (str "hi"))).
Proof.
  apply (proj2 (proj2 (proj2 (stream_keeps_earlier_turns delta_parse
                                (line_reads hi_there_lines)
                                (push (userMessage 0 (str "hi")) initial))))
           0%nat 0%nat (userMessage 0 (str "hi")) eq_refl eq_refl).
Defined.

(** ** Reads and their boundaries *)

Lemma indexOf_None_app (c : code_unit) (s t : jsstring) :
  indexOf c (s ++ t) = None -> indexOf c s = None.
Proof.
  induction s as [|x s IH]; simpl; [done|].
  destruct (code_unit_eqb x c); [done|].
  destruct (indexOf c (s ++ t)); simpl; [done|].
  intros _. by rewrite IH.
Qed.

Section Chunks.

Variable JSON_parse : jsstring -> option SSEData.

(** The body of the inner loop does not read the buffer. *)
Lemma handleRecord_set_buffer chunk b st w :
  handleRecord JSON_parse chunk (set_buffer b st) w
  = let '(f, st', w') := handleRecord JSON_parse chunk st w in
    (f, set_buffer b st', w').
Proof.
  unfold handleRecord.
  destruct (startsWith chunk _); [|done].
  destruct (JSON_parse _) as [data|]; [|done].
  assert (Hens : ensure_chatItem (set_buffer b st) w
                 = let '(c, st', w') := ensure_chatItem st w in
                   (c, set_buffer b st', w')).
  { unfold ensure_chatItem. simpl. destruct (chatItem st); [done|].
    by destruct (createAssistantMessageDiv w). }
  destruct (ev_error data).
  { rewrite Hens. by destruct (ensure_chatItem st w) as [[c st1] w1]. }
  destruct (is_string (ev_type data) (str "stream_end")); [done|].
  destruct (is_string (ev_type data) (str "thread_run")); [done|].
  rewrite Hens. destruct (ensure_chatItem st w) as [[c st1] w1].
  by destruct (is_string (ev_type data) (str "completed_message")).
Qed.

End Chunks.

(** ** White space around a line *)

Lemma trimStart_white (ws s : jsstring) :
  Forall (fun c => is_white c = true) ws -> trimStart (ws ++ s) = trimStart s.
Proof.
  induction 1 as [|c ws Hc _ IH]; simpl; [done|]. by rewrite Hc.
Qed.

Lemma trimStart_all_white (ws : jsstring) :
  Forall (fun c => is_white c = true) ws -> trimStart ws = [].
Proof.
  intros H. rewrite <- (app_nil_r ws). by rewrite trimStart_white.
Qed.

Lemma trimStart_app (s t : jsstring) :
  trimStart s <> [] -> trimStart (s ++ t) = trimStart s ++ t.
Proof.
  induction s as [|c s IH]; simpl; [done|].
  destruct (is_white c); [done|done].
Qed.

Lemma trimStart_nil_white (s : jsstring) :
  trimStart s = [] -> Forall (fun c => is_white c = true) s.
Proof.
  induction s as [|c s IH]; simpl; [constructor|].
  destruct (is_white c) eqn:Hc; [|done]. intros H. constructor; auto.
Qed.

Lemma trim_white (ws1 s ws2 : jsstring) :
  Forall (fun c => is_white c = true) ws1 ->
  Forall (fun c => is_white c = true) ws2 ->
  trim (ws1 ++ s ++ ws2) = trim s.
Proof.
  intros H1 H2. unfold trim. rewrite trimStart_white by done.
  destruct (trimStart s) as [|c t] eqn:Hs.
  - assert (Hall : Forall (fun c => is_white c = true) (s ++ ws2)).
    { apply Forall_app. split; [by apply trimStart_nil_white | done]. }
    by rewrite (trimStart_all_white _ Hall).
  - rewrite trimStart_app by (by rewrite Hs).
    rewrite Hs, reverse_app. rewrite trimStart_white; [done|].
    by apply Forall_reverse.
Qed.

Section Lines.

Variable JSON_parse : jsstring -> option SSEData.

Lemma handleRecord_passed_over line st w :
  passed_over JSON_parse line ->
  handleRecord JSON_parse (trim line) st w = (Continue, st, w).
Proof.
  intros [_ [Hs|(data & Hs & Hp & He & Hend & Hrun)]]; unfold handleRecord.
  - by rewrite Hs.
  - by rewrite Hs, Hp, He, Hend, Hrun.
Qed.

Lemma handleRecord_error chunk data m st w :
  startsWith chunk (str "data: ") = true ->
  JSON_parse (slice chunk 6 None) = Some data ->
  ev_error data = Some m ->
  chatItem_valid st w ->
  poller_inv w ->
  exists st' w',
    handleRecord JSON_parse chunk st w = (Return, st', w')
    /\ last_content w' = Some (VString (or_else m (str "An error occurred.")))
    /\ poller_stopped w'.
Proof.
  intros Hs Hp He Hvalid Hinv. unfold handleRecord. rewrite Hs, Hp, He.
  pose proof (poller_inv_ensure_chatItem st w Hinv) as Hinv1.
  destruct (ensure_chatItem_valid st w Hvalid)
    as (a & item & st1 & w1 & Hens & _ & Hitem & _).
  rewrite Hens in Hinv1 |- *. simpl in Hinv1.
  eexists _, _. split; [done|].
  assert (Hitem2 : store (stopRespondingAndPolling w1) !! a = Some item).
  { unfold stopRespondingAndPolling, stopAgentThinkingPolling. simpl.
    by destruct (agentThinkingInterval w1). }
  split.
  - by eapply appendAssistantMessage_last_content.
  - by apply appendAssistantMessage_stopped, stopRespondingAndPolling_stopped.
Qed.

Lemma readStream_unterminated reads st w :
  indexOf newline (buffer st ++ mjoin reads) = None ->
  readStream JSON_parse reads st w
  = (set_buffer (buffer st ++ mjoin reads) st, w).
Proof.
  induction reads as [|textChunk reads IH] in st |- *; intros Hnone.
  { simpl. by rewrite app_nil_r, set_buffer_id. }
  change (mjoin (textChunk :: reads)) with (textChunk ++ mjoin reads) in *.
  rewrite app_assoc in Hnone. cbn [readStream].
  assert (Hc : indexOf newline (buffer st ++ textChunk) = None)
    by (by apply (indexOf_None_app _ _ (mjoin reads))).
  destruct (length (buffer (set_buffer (buffer st ++ textChunk) st)));
    cbn [processBuffer buffer set_buffer]; rewrite Hc;
    rewrite IH by done; cbn [buffer set_buffer];
    by rewrite set_buffer_twice, app_assoc.
Qed.


Lemma readStream_passed_over line rest textChunk reads st w :
  passed_over JSON_parse line ->
  buffer st ++ textChunk = line ++ newline :: rest ->
  readStream JSON_parse (textChunk :: reads) st w
  = readStream JSON_parse (rest :: reads) (set_buffer [] st) w.
Proof.
  intros Hline Hbuf. pose proof Hline as [Hnl _].
  rewrite (readStream_line _ line rest) by done.
  rewrite handleRecord_passed_over by done.
  simpl. by rewrite app_nil_r.
Qed.

Lemma readStream_error line data m rest textChunk reads st w :
  bears JSON_parse line data ->
  ev_error data = Some m ->
  buffer st ++ textChunk = line ++ newline :: rest ->
  chatItem_valid st w ->
  poller_inv w ->
  (readStream JSON_parse (textChunk :: reads) st w).2
  = (handleRecord JSON_parse (trim line) st w).2
  /\ last_content (handleRecord JSON_parse (trim line) st w).2
     = Some (VString (or_else m (str "An error occurred.")))
  /\ poller_stopped (handleRecord JSON_parse (trim line) st w).2.
Proof.
  intros (Hnl & Hs & Hp) He Hbuf Hvalid Hinv.
  rewrite (readStream_line _ line rest) by done.
  rewrite handleRecord_set_buffer.
  destruct (handleRecord_error (trim line) data m st w)
    as (st1 & w1 & Hr & Hlast & Hstop); try done.
  by rewrite Hr.
Qed.

End Lines.

Lemma not_elem_of_indexOf (c : code_unit) (s : jsstring) :
  c ∉ s -> indexOf c s = None.
Proof.
  induction s as [|x s IH]; simpl; [done|].
  intros Hnot. apply not_elem_of_cons in Hnot as [Hne Hnot].
  unfold code_unit_eqb. destruct (N.eqb_spec x c); [congruence|].
  by rewrite IH.
Qed.

Lemma add_template (s : jsstring) (v : value) :
  add (VString s) v = VString (s ++ template v).
Proof. by destruct v. Qed.

Lemma accumulate_string (s : jsstring) (lines : list (jsstring * SSEData)) :
  accumulate (VString s) lines = VString (s ++ delta_texts lines).
Proof.
  unfold accumulate, delta_texts.
  induction lines as [|l lines IH] in s |- *.
  - simpl. by rewrite app_nil_r.
  - cbn [foldl]. rewrite add_template, IH, fmap_cons.
    change (mjoin (?a :: ?b)) with (a ++ mjoin b). by rewrite app_assoc.
Qed.

Section Shown.

Variable JSON_parse : jsstring -> option SSEData.

Lemma handleRecord_delta_shown chunk data s st w :
  startsWith chunk (str "data: ") = true ->
  JSON_parse (slice chunk 6 None) = Some data ->
  is_delta data ->
  chatItem_valid st w ->
  accumulatedContent st = VString s ->
  annotations st = Some [] ->
  exists st' w',
    handleRecord JSON_parse chunk st w = (Continue, st', w')
    /\ accumulatedContent st' = VString (s ++ template (of_field (ev_content data)))
    /\ annotations st' = Some []
    /\ chatItem_valid st' w'
    /\ is_Some (chatItem st')
    /\ last_content w' = Some (accumulatedContent st')
    /\ isResponding w' = isResponding w.
Proof.
  intros Hstart Hparse (Herr & Hend & Hrun & Hcompleted) Hvalid Hacc Hanns.
  unfold handleRecord. rewrite Hstart, Hparse, Herr, Hend, Hrun, Hcompleted.
  destruct (ensure_chatItem_valid st w Hvalid)
    as (a & item & st1 & w1 & Hens & Hst1 & Hitem & Hacc1 & _ & Hanns1).
  assert (Hresp : isResponding w1 = isResponding w).
  { pose proof (f_equal snd Hens) as Hw. simpl in Hw. subst w1.
    unfold ensure_chatItem. by destruct (chatItem st). }
  rewrite Hens. eexists _, _. split; [done|]. simpl.
  rewrite Hacc1, Hacc, Hanns1, Hanns, add_template.
  split; [done|]. split; [done|]. split.
  { unfold chatItem_valid. simpl. rewrite Hst1.
    apply appendAssistantMessage_store_valid. by eexists. }
  split; [rewrite Hst1; by eexists|]. split.
  { by eapply appendAssistantMessage_last_content. }
  rewrite <- Hresp.
  by rewrite (appendAssistantMessage_eq a (VString (s ++ template (of_field (ev_content data))))
               (isStreaming st1) (Some []) _ item w1 eq_refl Hitem).
Qed.

Lemma readStream_deltas_shown deltas reads s st w :
  Forall (fun l => bears JSON_parse l.1 l.2 /\ is_delta l.2) deltas ->
  buffer st = [] ->
  chatItem_valid st w ->
  accumulatedContent st = VString s ->
  annotations st = Some [] ->
  shows_accumulated st w ->
  exists st' w',
    readStream JSON_parse (line_reads deltas ++ reads) st w
    = readStream JSON_parse reads st' w'
    /\ buffer st' = []
    /\ chatItem_valid st' w'
    /\ accumulatedContent st' = VString (s ++ delta_texts deltas)
    /\ annotations st' = Some []
    /\ shows_accumulated st' w'
    /\ (is_Some (chatItem st) \/ deltas <> [] -> is_Some (chatItem st'))
    /\ isResponding w' = isResponding w.
Proof.
  intros Hdeltas.
  induction Hdeltas as [|[line data] deltas [(Hline & Hs & Hp) Hdelta] _ IH]
    in s, st, w |- *; intros Hb Hvalid Hacc Hanns Hshown.
  { exists st, w. unfold delta_texts. simpl. rewrite app_nil_r.
    repeat split; try done. by intros [?|?]. }
  change (line_reads ((line, data) :: deltas) ++ reads)
    with ((line ++ [newline]) :: (line_reads deltas ++ reads)).
  simpl in Hline, Hs, Hp, Hdelta.
  pose proof (readStream_line JSON_parse line [] (line ++ [newline])
                (line_reads deltas ++ reads) st w) as Hread.
  rewrite Hread by (by rewrite ?Hb). clear Hread.
  destruct (handleRecord_delta_shown (trim line) data s (set_buffer [] st) w)
    as (st1 & w1 & Hr & Hacc1 & Hanns1 & Hvalid1 & Hsome1 & Hlast1 & Hresp1);
    try done.
  pose proof (handleRecord_buffer JSON_parse (trim line) (set_buffer [] st) w) as Hb1.
  rewrite Hr in Hb1 |- *. simpl in Hb1.
  rewrite readStream_empty_read by done.
  destruct (IH _ st1 w1 Hb1 Hvalid1 Hacc1 Hanns1 (fun _ => Hlast1))
    as (st' & w' & -> & ? & ? & Hacc' & ? & ? & Hsome' & Hresp').
  exists st', w'. repeat split; try done.
  - rewrite Hacc'. unfold delta_texts. simpl. by rewrite app_assoc.
  - intros _. apply Hsome'. by left.
  - by rewrite Hresp'.
Qed.

Lemma responding_like_ensure_chatItem w0 st w :
  responding_like w0 w -> responding_like w0 (ensure_chatItem st w).2.
Proof. unfold ensure_chatItem. by destruct (chatItem st). Qed.

Lemma responding_like_appendAssistantMessage w0 c v b anns w :
  responding_like w0 w ->
  responding_like w0 (appendAssistantMessage c v b anns w).
Proof.
  intros [Hr Hp]. split; [|by rewrite appendAssistantMessage_poller_fields].
  rewrite <- Hr. unfold appendAssistantMessage.
  destruct (preprocessContent v anns); [|done]. simpl.
  match goal with |- context [match ?x with _ => _ end] => by destruct x end.
Qed.

Hypothesis parse_never_terminal : never_terminal JSON_parse.

Lemma handleRecord_never_terminal w0 chunk st w :
  responding_like w0 w ->
  responding_like w0 (handleRecord JSON_parse chunk st w).2.
Proof.
  intros Hlike. unfold handleRecord.
  destruct (startsWith chunk _); [|done].
  destruct (JSON_parse _) as [data|] eqn:Hp; [|done].
  destruct (parse_never_terminal _ _ Hp) as (-> & -> & Hc).
  destruct (is_string (ev_type data) (str "thread_run")); [done|].
  rewrite Hc.
  pose proof (responding_like_ensure_chatItem w0 st w Hlike) as H1.
  destruct (ensure_chatItem st w) as [[c st1] w1]. simpl in *.
  by apply responding_like_appendAssistantMessage.
Qed.

Lemma processBuffer_never_terminal w0 fuel st w :
  responding_like w0 w ->
  responding_like w0 (processBuffer JSON_parse fuel st w).2.
Proof.
  induction fuel as [|fuel IH] in st, w |- *; intros Hlike; simpl.
  - by destruct (indexOf _ _).
  - destruct (indexOf _ _) as [boundary|]; [|done].
    match goal with |- context [handleRecord _ ?c ?s w] =>
      pose proof (handleRecord_never_terminal w0 c s w Hlike) as Hr;
      destruct (handleRecord JSON_parse c s w) as [[[] st1] w1] end;
    simpl in *; auto.
Qed.

Lemma readStream_never_terminal w0 reads st w :
  responding_like w0 w ->
  responding_like w0 (readStream JSON_parse reads st w).2.
Proof.
  induction reads as [|textChunk reads IH] in st, w |- *; intros Hlike; simpl;
    [done|].
  match goal with |- context [processBuffer _ ?n ?s w] =>
    pose proof (processBuffer_never_terminal w0 n s w Hlike) as Hp;
    destruct (processBuffer JSON_parse n s w) as [[[] st1] w1] end;
  simpl in *; auto.
Qed.

End Shown.

(** X3: an error event ends the reading of the stream: the turn shows
    the event's message (or the fallback text when it has none), the
    client stops responding and the poller is stopped, and neither the
    rest of the read nor any later read has an effect. *)
Theorem error_event_ends_reading (parse : jsstring -> option SSEData)
    (line rest textChunk : jsstring) (data : SSEData) (m : option jsstring)
    (reads : list jsstring) (st : StreamState) (w : World) :
  bears parse line data ->
  ev_error data = Some m ->
  buffer st ++ textChunk = line ++ newline :: rest ->
  chatItem_valid st w ->
  poller_inv w ->
  let w' := (readStream parse (textChunk :: reads) st w).2 in
  w' = (handleRecord parse (trim line) st w).2
  /\ last_content w' = Some (VString (or_else m (str "An error occurred.")))
  /\ poller_stopped w'.
Proof.
  intros Hline He Hbuf Hvalid Hinv w'.
  destruct (readStream_error parse line data m rest textChunk reads st w)
    as (Hw & Hlast & Hstop); try done.
  unfold w'. clear w'. rewrite <- Hw in Hlast, Hstop. done.
Qed.

Lemma error_event_ends_reading_witness :
  last_content
    (handleMessages error_parse
       [error_line ++ newline :: hi_line ++ [newline]; hi_line ++ [newline]]
       initial)
  = Some (VString (str "quota exceeded"))
  /\ isResponding
       (handleMessages error_parse
          [error_line ++ newline :: hi_line ++ [newline]; hi_line ++ [newline]]
          (setIsResponding true initial))
     = false.
Proof.
  assert (Hnl : forall l : jsstring, bool_decide (newline ∉ l) = true -> newline ∉ l).
  { intros l. apply bool_decide_eq_true_1. }
  split; [|reflexivity].
  apply (error_event_ends_reading error_parse error_line
           (hi_line ++ [newline])
           (error_line ++ newline :: hi_line ++ [newline])
           (error_event (Some (str "quota exceeded")))
           (Some (str "quota exceeded")) [hi_line ++ [newline]]
           handleMessages_init initial).
  - split; [by apply Hnl|]. by split.
  - reflexivity.
  - reflexivity.
  - exact I.
  - by split.
Defined.

(** X4: a line without the event marker (a blank line, a comment, an
    [event:] field) and a run-status event leave no trace: the stream
    is read as if the line were not there. *)
Theorem passed_over_lines_leave_no_trace (parse : jsstring -> option SSEData)
    (line rest textChunk : jsstring) (reads : list jsstring)
    (st : StreamState) (w : World) :
  passed_over parse line ->
  buffer st ++ textChunk = line ++ newline :: rest ->
  readStream parse (textChunk :: reads) st w
  = readStream parse (rest :: reads) (set_buffer [] st) w.
Proof. apply readStream_passed_over. Qed.

Lemma passed_over_lines_leave_no_trace_witness :
  passed_over error_parse run_status_line
  /\ passed_over error_parse []
  /\ handleMessages error_parse
       [run_status_line ++ newline :: newline :: hi_line ++ [newline]] initial
     = handleMessages error_parse [hi_line ++ [newline]] initial.
Proof.
  assert (Hnl : forall l : jsstring, bool_decide (newline ∉ l) = true -> newline ∉ l).
  { intros l. apply bool_decide_eq_true_1. }
  assert (H1 : passed_over error_parse run_status_line).
  { split; [by apply Hnl|]. right. eexists. by repeat split. }
  assert (H2 : passed_over error_parse []).
  { split; [by apply Hnl|]. by left. }
  split; [exact H1|]. split; [exact H2|].
  unfold handleMessages.
  etrans; [|reflexivity].
  exact (f_equal snd
           (passed_over_lines_leave_no_trace error_parse run_status_line
              (newline :: hi_line ++ [newline])
              (run_status_line ++ newline :: newline :: hi_line ++ [newline])
              [] handleMessages_init initial H1 eq_refl)).
Defined.

(** X5: white space around the line of a record (a carriage return
    before the line feed, indentation) is immaterial. *)
Theorem line_padding_is_immaterial (parse : jsstring -> option SSEData)
    (before line after rest : jsstring) (reads : list jsstring)
    (st : StreamState) (w : World) :
  Forall (fun c => is_white c = true) before ->
  Forall (fun c => is_white c = true) after ->
  newline ∉ before ++ line ++ after ->
  buffer st = [] ->
  readStream parse ((before ++ line ++ after ++ newline :: rest) :: reads) st w
  = readStream parse ((line ++ newline :: rest) :: reads) st w.
Proof.
  intros Hb Ha Hnl Hbuf.
  assert (Hline : newline ∉ line).
  { intros Hin. apply Hnl. apply elem_of_app. right. apply elem_of_app. by left. }
  rewrite (readStream_line parse (before ++ line ++ after) rest)
    by (by rewrite ?Hbuf, <- ?app_assoc).
  rewrite (readStream_line parse line rest _ reads st w) by (by rewrite ?Hbuf).
  by rewrite trim_white.
Qed.

Lemma line_padding_is_immaterial_witness :
  handleMessages delta_parse
    [str "  " ++ hi_line ++ [13%N; newline]] initial
  = handleMessages delta_parse [hi_line ++ [newline]] initial.
Proof.
  assert (Hnl : forall l : jsstring, bool_decide (newline ∉ l) = true -> newline ∉ l).
  { intros l. apply bool_decide_eq_true_1. }
  unfold handleMessages.
  apply (f_equal snd).
  apply (line_padding_is_immaterial delta_parse (str "  ") hi_line [13%N] []
           [] handleMessages_init initial).
  - by repeat constructor.
  - by repeat constructor.
  - by apply Hnl.
  - reflexivity.
Defined.

(** X6: a stream of deltas opens one turn and shows the contents of the
    deltas joined in order, with the text [undefined] for a delta that
    has no content; the client keeps its responding state. *)
Theorem deltas_are_concatenated (parse : jsstring -> option SSEData)
    (deltas : list (jsstring * SSEData)) (w : World) :
  deltas <> [] ->
  Forall (fun l => bears parse l.1 l.2 /\ is_delta l.2) deltas ->
  let w' := handleMessages parse (line_reads deltas) w in
  last_content w' = Some (VString (delta_texts deltas))
  /\ length (messageList w') = S (length (messageList w))
  /\ isResponding w' = isResponding w.
Proof.
  intros Hne Hdeltas w'.
  destruct (readStream_deltas_shown parse deltas [] [] handleMessages_init w)
    as (st1 & w1 & Hread & _ & _ & Hacc & _ & Hshown & Hsome & Hresp);
    try done.
  { by intros [? ?]. }
  rewrite app_nil_r in Hread. simpl in Hread.
  assert (Hinit : stream_inv w handleMessages_init w).
  { unfold stream_inv. simpl. by rewrite !firstn_all. }
  pose proof (stream_inv_readStream parse w (line_reads deltas)
                handleMessages_init w Hinit) as (_ & _ & Hc).
  unfold w', handleMessages. rewrite Hread in Hc |- *. simpl in Hc |- *.
  destruct (Hsome (or_intror Hne)) as [c Hst]. rewrite Hst in Hc.
  split; [|by split; [apply Hc|]].
  rewrite Hshown by (by eexists). by rewrite Hacc.
Qed.

Lemma deltas_are_concatenated_witness :
  last_content (handleMessages delta_parse (line_reads hi_there_lines) initial)
  = Some (VString (str "Hi there")).
Proof.
  assert (Hnl : forall l : jsstring, bool_decide (newline ∉ l) = true -> newline ∉ l).
  { intros l. apply bool_decide_eq_true_1. }
  apply (deltas_are_concatenated delta_parse hi_there_lines initial).
  - done.
  - repeat constructor; by apply Hnl.
Defined.

(** X7: text that holds no line terminator is only buffered: no record
    of it is handled, however many reads deliver it, so a last record
    that is not followed by a newline is never shown. *)
Theorem unterminated_text_is_only_buffered (parse : jsstring -> option SSEData)
    (reads : list jsstring) (st : StreamState) (w : World) :
  newline ∉ buffer st ++ mjoin reads ->
  readStream parse reads st w = (set_buffer (buffer st ++ mjoin reads) st, w).
Proof.
  intros Hnl. apply readStream_unterminated. by apply not_elem_of_indexOf.
Qed.

Lemma unterminated_text_is_only_buffered_witness :
  handleMessages delta_parse [str "data: "; drop 6 hi_line] initial = initial.
Proof.
  unfold handleMessages.
  assert (Hnl : newline ∉ buffer handleMessages_init
                          ++ mjoin [str "data: "; drop 6 hi_line]).
  { assert (H : forall l : jsstring,
              bool_decide (newline ∉ l) = true -> newline ∉ l).
    { intros l. apply bool_decide_eq_true_1. }
    by apply H. }
  exact (f_equal snd
           (unterminated_text_is_only_buffered delta_parse
              [str "data: "; drop 6 hi_line] handleMessages_init initial Hnl)).
Defined.

Lemma parse_table_Some table s data :
  parse_table table s = Some data -> data ∈ table.*2.
Proof.
  unfold parse_table. intros H.
  destruct (find _ table) as [entry|] eqn:Hfind; [|done].
  injection H as <-. apply list_elem_of_fmap. exists entry. split; [done|].
  apply list_elem_of_In. by apply find_some in Hfind as [? _].
Qed.

Lemma at_dispatch_poller_fields message status_result w :
  poller_fields (at_dispatch message status_result w) = poller_fields w.
Proof.
  unfold at_dispatch. destruct (revalidates w); [|done].
  unfold revalidate. destruct status_result as [e|[] [data|]]; try done.
  simpl. by destruct (_ && _).
Qed.



(** ** The frame of a send *)

Lemma push_last_content item w :
  last_content (push item w) = Some (content item).
Proof.
  unfold last_content, push. simpl. rewrite last_snoc. simpl.
  by rewrite lookup_app_r, Nat.sub_diag by lia.
Qed.

Lemma stopRespondingAndPolling_last_content w :
  last_content (stopRespondingAndPolling w) = last_content w.
Proof.
  unfold last_content.
  by destruct (stopRespondingAndPolling_transcript w) as [-> ->].
Qed.

(** ** The poller's tick *)

Lemma fetchAgentThinking_outside r w :
  outside_thinking (fetchAgentThinking r w) = outside_thinking w.
Proof.
  unfold fetchAgentThinking. destruct r as [e|[] [data|]]; try done.
  by destruct (is_string _ _).
Qed.

Lemma fetchAgentThinking_messages r w :
  agentThinkingMessages (fetchAgentThinking r w)
  = match r with
    | Responded true (Some data) =>
        if is_string (thinking_status data) (str "success")
        then default [] (messages data) else agentThinkingMessages w
    | _ => agentThinkingMessages w
    end.
Proof.
  unfold fetchAgentThinking. destruct r as [e|[] [data|]]; try done.
  by destruct (is_string _ _).
Qed.

(** X12: a tick of the poller changes nothing but the thinking
    messages, the request log and the console; the thinking messages
    change only on a successful answer, to the messages it lists. *)
Theorem thinking_poll_is_confined (r : Fetched (option ThinkingData))
    (w : World) :
  let w' := interval_elapses r w in
  outside_thinking w' = outside_thinking w
  /\ (agentThinkingMessages w' <> agentThinkingMessages w ->
      exists data,
        r = Responded true (Some data)
        /\ is_string (thinking_status data) (str "success") = true
        /\ agentThinkingMessages w' = default [] (messages data)).
Proof.
  unfold interval_elapses. cbv zeta.
  induction (timers w) as [|t l IH] using rev_ind; [done|].
  rewrite foldl_app. cbn [foldl]. destruct IH as [Hout Hmsg].
  split; [by rewrite fetchAgentThinking_outside|].
  rewrite fetchAgentThinking_messages.
  destruct r as [e|[] [data|]]; try done.
  destruct (is_string (thinking_status data) (str "success")) eqn:Hok; [|done].
  intros _. by exists data.
Qed.

Lemma thinking_poll_is_confined_witness :
  agentThinkingMessages
    (interval_elapses thinking_answer
       (setAgentThinkingMessages
          [ {| agent_name := str "a"; thinking_content := str "b" |} ]
          (startAgentThinkingPolling thinking_world)))
  = [].
Proof.
  destruct (proj2 (thinking_poll_is_confined thinking_answer
                     (setAgentThinkingMessages
                        [ {| agent_name := str "a"; thinking_content := str "b" |} ]
                        (startAgentThinkingPolling thinking_world))))
    as (data & [= <-] & _ & Hmsg).
  - done.
  - exact Hmsg.
Defined.

(** ** The chat history *)

Lemma history_items_length n entries :
  length (history_items n entries) = length entries.
Proof. induction entries in n |- *; simpl; auto. Qed.

Lemma history_item_content n entry :
  content (history_item n entry) = entry_shown entry.
Proof. unfold entry_shown, history_item. by destruct (eqb _ _). Qed.

Lemma history_items_contents n entries :
  (fun o : option IChatItem => content <$> o)
    <$> (Some <$> history_items n entries)
  = (fun entry => Some (entry_shown entry)) <$> entries.
Proof.
  induction entries as [|e entries IH] in n |- *; [done|].
  cbn [history_items]. rewrite !fmap_cons, IH. cbn [fmap option_fmap option_map].
  by rewrite history_item_content.
Qed.

Lemma loadChatHistory_fold entries acc w :
  let r := foldl (fun acc entry =>
                    let '(n, w) := draw acc.2 in
                    let '(a, w) := alloc (history_item n entry) w in
                    (acc.1 ++ [a], w))
                 (acc, w) entries in
  r.1 = acc ++ seq (length (store w)) (length entries)
  /\ store r.2 = store w ++ history_items (entropy w) entries
  /\ messageList r.2 = messageList w
  /\ errors r.2 = errors w
  /\ requests r.2 = requests w.
Proof.
  induction entries as [|e entries IH] in acc, w |- *.
  { simpl. by rewrite !app_nil_r. }
  match goal with |- context [foldl ?f _ _] => set (step := f) in * end.
  cbn [foldl].
  change (step (acc, w) e)
    with (acc ++ [length (store w)],
          upd_store (fun s => s ++ [history_item (entropy w) e]) (draw w).2).
  destruct (IH (acc ++ [length (store w)])
              (upd_store (fun s => s ++ [history_item (entropy w) e]) (draw w).2))
    as (H1 & H2 & H3 & H4 & H5).
  cbv zeta in H1, H2, H3, H4, H5. cbv zeta.
  split; [|split; [|done]].
  - etrans; [exact H1|]. simpl. rewrite length_app. simpl.
    by rewrite Nat.add_1_r, <- !app_assoc.
  - etrans; [exact H2|]. simpl. by rewrite <- !app_assoc.
Qed.

Lemma rendered_new (s items : list IChatItem) :
  (fun a => (s ++ items) !! a) <$> seq (length s) (length items)
  = Some <$> items.
Proof.
  induction items as [|x items IH] in s |- *; [done|].
  cbn [length seq]. rewrite !fmap_cons, list_lookup_middle by done. f_equal.
  specialize (IH (s ++ [x])).
  rewrite length_app, Nat.add_1_r, <- app_assoc in IH. exact IH.
Qed.

Lemma rendered_old (s items : list IChatItem) (l : list nat) :
  Forall (fun a => (a < length s)%nat) l ->
  (fun a => (s ++ items) !! a) <$> l = (fun a => s !! a) <$> l.
Proof.
  intros Hl. apply Forall_fmap_ext_1. eapply Forall_impl; [exact Hl|].
  intros a Ha. simpl in Ha. by rewrite lookup_app_l.
Qed.

Lemma contents_rendered w :
  contents w = (fun o : option IChatItem => content <$> o) <$> rendered w.
Proof. unfold contents, rendered. by rewrite <- list_fmap_compose. Qed.

Lemma loadChatHistory_success entries w :
  transcript_ok w ->
  rendered (loadChatHistory (Responded true (Some entries)) w)
  = (Some <$> history_items (entropy w) (reverse entries)) ++ rendered w.
Proof.
  intros Hok. unfold loadChatHistory.
  match goal with |- context [foldl ?f (?a, ?w1) ?l] =>
    pose proof (loadChatHistory_fold l a w1) as (H1 & H2 & H3 & _);
    destruct (foldl f (a, w1) l) as [historyMessages w2] end.
  cbv zeta in H1, H2, H3. simpl in H1, H2, H3.
  unfold rendered. simpl. rewrite H1, H2, H3, fmap_app.
  rewrite <- (history_items_length (entropy w) (reverse entries)).
  by rewrite rendered_new, rendered_old.
Qed.

Lemma history_error_rendered w :
  transcript_ok w ->
  rendered (history_error w)
  = rendered w
    ++ [Some (with_content
                (VString (str "Error occurs while loading chat history!"))
                (opened_turn w))]
  /\ errors (history_error w) = errors w
  /\ requests (history_error w) = requests w.
Proof.
  intros Hok. unfold history_error, createAssistantMessageDiv.
  cbn beta iota zeta delta [draw alloc fst snd].
  match goal with |- context [appendAssistantMessage ?c ?v ?b ?a ?w1] =>
    rewrite (appendAssistantMessage_eq c v b a v (opened_turn w) w1 eq_refl)
  end.
  2: { simpl. by apply list_lookup_middle. }
  split; [|done]. unfold rendered.
  cbn [store messageList upd_store setMessageList].
  fold (opened_turn w).
  rewrite slice_0_m1_take, length_app, Nat.add_1_r.
  cbn [length]. rewrite Nat.sub_succ, Nat.sub_0_r, take_app_length.
  rewrite alter_app_r_alt, Nat.sub_diag by lia. cbn [alter list_alter].
  rewrite fmap_app, <- !app_assoc. f_equal.
  - apply (rendered_old (store w) _ _ Hok).
  - cbn [fmap list_fmap]. f_equal. rewrite length_app, Nat.add_1_r.
    rewrite (app_assoc (store w)).
    apply list_lookup_middle. by rewrite length_app, Nat.add_1_r.
Qed.

(** X13: the history arrives newest first and is shown oldest first,
    before whatever the transcript already holds; a user entry shows
    its text, any other entry its text with the annotations rewritten. *)
Theorem history_is_shown_oldest_first (entries : list HistoryEntry)
    (w : World) :
  transcript_ok w ->
  let w' := loadChatHistory (Responded true (Some entries)) w in
  rendered w'
  = (Some <$> history_items (entropy w) (reverse entries)) ++ rendered w
  /\ contents w'
     = ((fun entry => Some (entry_shown entry)) <$> reverse entries)
       ++ contents w.
Proof.
  intros Hok w'. pose proof (loadChatHistory_success entries w Hok) as Hr.
  split; [exact Hr|]. unfold w'. rewrite !contents_rendered, Hr, fmap_app.
  f_equal. apply history_items_contents.
Qed.

Lemma history_is_shown_oldest_first_witness :
  contents (loadChatHistory (Responded true (Some history_example))
              (push (userMessage 0 (str "more")) initial))
  = [Some (VString (str "hi")); Some (VString (str "a[f]c"));
     Some (VString (str "more"))].
Proof.
  refine (proj2 (history_is_shown_oldest_first history_example
                   (push (userMessage 0 (str "more")) initial) _)).
  repeat constructor.
Defined.

(** X14: when the history cannot be loaded, the transcript gets one
    turn that says so, after the turns it holds; a response that is not
    2xx is not logged, a rejected request or an unreadable body is. *)
Theorem history_failure_is_one_turn
    (r : Fetched (option (list HistoryEntry))) (w : World) :
  transcript_ok w ->
  history_failed r = true ->
  let w' := loadChatHistory r w in
  contents w'
  = contents w
    ++ [Some (VString (str "Error occurs while loading chat history!"))]
  /\ errors w'
     = errors w
       ++ match r with
          | Responded false _ => []
          | _ => [str "Failed to load chat history:"]
          end.
Proof.
  intros Hok Hfail w'. unfold w', loadChatHistory.
  destruct r as [e|[] [entries|]]; try done;
    match goal with |- context [history_error ?w1] =>
      destruct (history_error_rendered w1 Hok) as (Hr & He & _) end;
    rewrite !contents_rendered, Hr, He, fmap_app; simpl;
    by rewrite ?app_nil_r.
Qed.

Lemma history_failure_is_one_turn_witness :
  contents (loadChatHistory (Responded false None) initial)
  = [Some (VString (str "Error occurs while loading chat history!"))]
  /\ errors (loadChatHistory (Responded false None) initial) = [].
Proof.
  apply (history_failure_is_one_turn (Responded false None) initial).
  - constructor.
  - reflexivity.
Defined.

(** ** Trimming and splitting *)

Lemma trimStart_idem (s : jsstring) : trimStart (trimStart s) = trimStart s.
Proof.
  induction s as [|c s IH]; simpl; [done|].
  destruct (is_white c) eqn:Hc; [done|]. simpl. by rewrite Hc.
Qed.

Lemma trimStart_suffix (s : jsstring) :
  exists ws, Forall (fun c => is_white c = true) ws /\ s = ws ++ trimStart s.
Proof.
  induction s as [|c s (ws & Hws & IH)]; simpl; [by exists []|].
  destruct (is_white c) eqn:Hc.
  - exists (c :: ws). split; [by constructor|]. simpl. by rewrite <- IH.
  - by exists [].
Qed.

Lemma trimStart_fixed (s t : jsstring) :
  trimStart (s ++ t) = s ++ t -> s <> [] -> trimStart s = s.
Proof.
  destruct s as [|c s]; [done|]. simpl. destruct (is_white c); [|done].
  intros H _. destruct (trimStart_suffix (s ++ t)) as (ws & _ & Hs).
  apply (f_equal length) in Hs. rewrite H in Hs.
  rewrite !length_app in Hs. simpl in Hs. rewrite ?length_app in Hs. lia.
Qed.

Lemma trim_prefix (s : jsstring) :
  exists ws, Forall (fun c => is_white c = true) ws
             /\ trimStart s = trim s ++ ws.
Proof.
  unfold trim.
  destruct (trimStart_suffix (reverse (trimStart s))) as (ws & Hws & Hs).
  exists (reverse ws). split; [by apply Forall_reverse|].
  apply (f_equal reverse) in Hs.
  by rewrite reverse_involutive, reverse_app in Hs.
Qed.

Lemma trim_idem (s : jsstring) : trim (trim s) = trim s.
Proof.
  destruct (trim_prefix s) as (ws & Hws & Hs).
  assert (Hstart : trimStart (trim s) = trim s).
  { destruct (trim s) as [|c t] eqn:Ht; [done|].
    apply (trimStart_fixed _ ws); [|done].
    by rewrite <- Hs, trimStart_idem. }
  unfold trim at 1. rewrite Hstart. unfold trim.
  by rewrite reverse_involutive, trimStart_idem.
Qed.

Lemma trim_nil_white (s : jsstring) :
  trim s = [] -> Forall (fun c => is_white c = true) s.
Proof.
  intros Ht. destruct (trim_prefix s) as (ws & Hws & Hs).
  rewrite Ht in Hs. simpl in Hs.
  destruct (trimStart_suffix s) as (ws' & Hws' & Hs').
  rewrite Hs' , Hs. by apply Forall_app.
Qed.

Lemma trim_all_white (s : jsstring) :
  Forall (fun c => is_white c = true) s -> trim s = [].
Proof.
  intros Hs. pose proof (trim_white s [] [] Hs (Forall_nil_2 _)) as H.
  by rewrite !app_nil_r in H.
Qed.

Lemma split_cons (c x : code_unit) (s : jsstring) :
  split c (x :: s)
  = if code_unit_eqb x c then [] :: split c s
    else match split c s with
         | piece :: pieces => (x :: piece) :: pieces
         | [] => [[x]]
         end.
Proof. done. Qed.

Lemma split_length (c : code_unit) (s : list code_unit) :
  length (split c s) = S (length (filter (fun x => x = c) s)).
Proof.
  induction s as [|x s IH]; [done|].
  rewrite split_cons, filter_cons. unfold code_unit_eqb.
  destruct (N.eqb_spec x c) as [->|Hne].
  - rewrite decide_True by done. simpl. by rewrite IH.
  - rewrite decide_False by done.
    destruct (split c s) as [|piece pieces]; [done|]. by rewrite <- IH.
Qed.

Lemma split_white (c : code_unit) (s : jsstring) :
  Forall (fun x => is_white x = true) s ->
  Forall (Forall (fun x => is_white x = true)) (split c s).
Proof.
  induction 1 as [|x s Hx _ IH]; [by repeat constructor|].
  rewrite split_cons. destruct (code_unit_eqb x c).
  - by constructor.
  - destruct (split c s) as [|piece pieces]; [by repeat constructor|].
    apply Forall_cons in IH as [Hp Hps]. by repeat constructor.
Qed.

Lemma split_none (c : code_unit) (s : jsstring) :
  c ∉ s -> split c s = [s].
Proof.
  induction s as [|x s IH]; [done|]. intros Hnot.
  apply not_elem_of_cons in Hnot as [Hne Hnot].
  rewrite split_cons. unfold code_unit_eqb.
  destruct (N.eqb_spec x c); [congruence|]. by rewrite IH.
Qed.

Lemma split_app (c : code_unit) (a b : jsstring) :
  c ∉ a -> split c (a ++ c :: b) = a :: split c b.
Proof.
  induction a as [|x a IH]; intros Hnot.
  - simpl. unfold code_unit_eqb. by rewrite N.eqb_refl.
  - apply not_elem_of_cons in Hnot as [Hne Hnot].
    change ((x :: a) ++ c :: b) with (x :: (a ++ c :: b)).
    rewrite split_cons. unfold code_unit_eqb.
    destruct (N.eqb_spec x c); [congruence|]. by rewrite IH.
Qed.

Lemma agentIdList_blank (agentIds : jsstring) :
  trim agentIds = [] -> agentIdList agentIds = [].
Proof.
  intros Ht. unfold agentIdList.
  pose proof (split_white 44%N agentIds (trim_nil_white _ Ht)) as Hall.
  induction Hall as [|piece pieces Hp _ IH]; [done|].
  rewrite fmap_cons, filter_cons, (trim_all_white _ Hp).
  by rewrite decide_False by (by intros H).
Qed.

Lemma agentIdList_clean (agentIds : jsstring) :
  Forall (fun id => id <> [] /\ trim id = id) (agentIdList agentIds).
Proof.
  unfold agentIdList. induction (split 44%N agentIds) as [|piece pieces IH];
    [constructor|].
  rewrite fmap_cons, filter_cons. case_decide; [|done].
  constructor; [|done]. split; [done|apply trim_idem].
Qed.

Lemma split_join (id : jsstring) (ids : list jsstring) :
  Forall clean_id (id :: ids) ->
  split 44%N (join (str ", ") (id :: ids))
  = id :: ((fun x => 32%N :: x) <$> ids).
Proof.
  induction ids as [|y ids IH] in id |- *; intros Hall.
  - apply Forall_cons in Hall as [(_ & Hc & _) _]. simpl. by apply split_none.
  - apply Forall_cons in Hall as [(_ & Hc & _) Hall].
    change (join (str ", ") (id :: y :: ids))
      with (id ++ 44%N :: 32%N :: join (str ", ") (y :: ids)).
    rewrite split_app by done. f_equal.
    rewrite split_cons. change (code_unit_eqb 32%N 44%N) with false. cbv iota.
    by rewrite IH.
Qed.

Lemma agentIdList_join (ids : list jsstring) :
  Forall clean_id ids -> agentIdList (join (str ", ") ids) = ids.
Proof.
  intros Hall. destruct ids as [|id ids]; [done|].
  unfold agentIdList. rewrite split_join by done.
  assert (Htrim : trim <$> (id :: ((fun x => 32%N :: x) <$> ids)) = id :: ids).
  { rewrite fmap_cons. apply Forall_cons in Hall as [(_ & _ & ->) Hall]. f_equal.
    rewrite <- list_fmap_compose.
    rewrite <- (list_fmap_id ids) at 2. apply Forall_fmap_ext_1.
    eapply Forall_impl; [exact Hall|]. intros x (_ & _ & Hx). simpl.
    pose proof (trim_white [32%N] x [] ltac:(by repeat constructor)
                  (Forall_nil_2 _)) as H.
    rewrite app_nil_r in H. by rewrite <- Hx at 2. }
  rewrite Htrim. clear Htrim.
  induction Hall as [|x l (Hx & _) _ IH]; [done|].
  rewrite filter_cons, decide_True by done. f_equal. exact IH.
Qed.

(** ** The panel's requests *)

Lemma initializeOrchestration_requests r s :
  panel_requests (form (initializeOrchestration r s))
  = panel_requests (form s)
    ++ match agentIdList (agentIds s) with
       | [] => []
       | id :: ids => [initialize_request (id :: ids)]
       end.
Proof.
  unfold initializeOrchestration.
  destruct (trim (agentIds s)) as [|c t] eqn:Ht.
  { rewrite (agentIdList_blank _ Ht). simpl. by rewrite app_nil_r. }
  destruct (agentIdList (agentIds s)) as [|id ids].
  { simpl. by rewrite app_nil_r. }
  by destruct r as [e|[] [data|]].
Qed.

Lemma initializeOrchestration_status data s :
  agentIdList (agentIds s) <> [] ->
  panel_status (form (initializeOrchestration (Responded true (Some data)) s))
  = agent_info_status data
  /\ panel_message (form (initializeOrchestration (Responded true (Some data)) s))
     = panel_message (form s).
Proof.
  intros Hids. unfold initializeOrchestration.
  destruct (trim (agentIds s)) as [|c t] eqn:Ht.
  { by rewrite (agentIdList_blank _ Ht) in Hids. }
  by destruct (agentIdList (agentIds s)) as [|id ids].
Qed.

Lemma processOrchestrationQuery_requests r p :
  panel_requests (processOrchestrationQuery r p)
  = panel_requests p
    ++ (if negb (blank (panel_message p))
           && is_string (panel_status p) (str "initialized")
        then [panel_chat_request (panel_message p)] else []).
Proof.
  unfold processOrchestrationQuery, blank.
  destruct (trim (panel_message p)) as [|c t] eqn:Ht.
  { simpl. by rewrite app_nil_r. }
  rewrite bool_decide_eq_false_2 by done. simpl.
  destruct (is_string (panel_status p) (str "initialized")); simpl.
  - by destruct r as [e|[] [data|]].
  - by rewrite app_nil_r.
Qed.

Lemma fetchOrchestrationStatus_requests r w :
  requests (fetchOrchestrationStatus r w) = requests w ++ [status_request].
Proof.
  unfold fetchOrchestrationStatus. destruct r as [e|[] [data|]]; try done.
  by destruct (is_string _ _).
Qed.

(** X15: the panel sends the initialize request exactly when the field
    holds an id that is not blank; the ids it sends are the pieces
    between the commas, trimmed, without the blank ones. A refusal
    leaves an error text and sends nothing. *)
Theorem panel_initialize_sends_clean_ids (r : Fetched (option InitReply))
    (s : PanelSetup) :
  let s' := initializeOrchestration r s in
  panel_requests (form s')
  = panel_requests (form s)
    ++ match agentIdList (agentIds s) with
       | [] => []
       | id :: ids => [initialize_request (id :: ids)]
       end
  /\ Forall (fun id => id <> [] /\ trim id = id) (agentIdList (agentIds s))
  /\ (agentIdList (agentIds s) = [] ->
      panel_error (form s') <> [] /\ isInitializing s' = isInitializing s)
  /\ (agentIdList (agentIds s) <> [] -> isInitializing s' = false).
Proof.
  intros s'. split; [apply initializeOrchestration_requests|].
  split; [apply agentIdList_clean|].
  unfold s', initializeOrchestration.
  destruct (trim (agentIds s)) as [|c t] eqn:Ht.
  { rewrite (agentIdList_blank _ Ht). by split. }
  destruct (agentIdList (agentIds s)) as [|id ids]; [by split|].
  split; [done|]. intros _. by destruct r as [e|[] [data|]].
Qed.

Lemma panel_initialize_sends_clean_ids_witness :
  panel_requests
    (form (initializeOrchestration initialized_reply
             {| form := ready_panel; agentIds := str " a1 ,, b2,";
                isInitializing := false |}))
  = [initialize_request [str "a1"; str "b2"]]
  /\ panel_error (form (initializeOrchestration initialized_reply empty_setup))
     <> [].
Proof.
  split; [reflexivity|].
  apply (proj1 (proj2 (proj2 (panel_initialize_sends_clean_ids
                                initialized_reply empty_setup)))).
  reflexivity.
Defined.

(** X16: the ids that the status answer lists come back unchanged: the
    panel writes them into the field joined by a comma and a space, and
    the initialize request that follows carries the same list. *)
Theorem panel_ids_round_trip (data : PanelStatusData)
    (r : Fetched (option InitReply)) (s : PanelSetup) :
  status_agent_ids data <> [] ->
  Forall clean_id (status_agent_ids data) ->
  let s1 := checkOrchestrationStatus (Responded true (Some data)) s in
  agentIdList (agentIds s1) = status_agent_ids data
  /\ panel_requests (form (initializeOrchestration r s1))
     = panel_requests (form s)
       ++ [status_request; initialize_request (status_agent_ids data)].
Proof.
  intros Hne Hclean s1.
  assert (Hids : agentIdList (agentIds s1) = status_agent_ids data).
  { unfold s1, checkOrchestrationStatus. cbn [agentIds].
    destruct (status_agent_ids data) as [|id ids] eqn:Hdata; [done|].
    by apply agentIdList_join. }
  split; [exact Hids|].
  rewrite initializeOrchestration_requests, Hids.
  destruct (status_agent_ids data) as [|id ids]; [done|].
  unfold s1, checkOrchestrationStatus. simpl. by rewrite <- app_assoc.
Qed.

Lemma panel_ids_round_trip_witness :
  agentIds (checkOrchestrationStatus (Responded true (Some listed_agents))
              empty_setup)
  = str "asst_1, asst_2"
  /\ agentIdList
       (agentIds (checkOrchestrationStatus (Responded true (Some listed_agents))
                    empty_setup))
     = [str "asst_1"; str "asst_2"].
Proof.
  split; [reflexivity|].
  refine (proj1 (panel_ids_round_trip listed_agents initialized_reply
                   empty_setup _ _)).
  - done.
  - assert (Hc : forall l : jsstring,
              bool_decide (44%N ∉ l) = true -> 44%N ∉ l).
    { intros l. apply bool_decide_eq_true_1. }
    apply Forall_cons; split; [|apply Forall_cons; split; [|constructor]];
      (split; [done|split; [by apply Hc|reflexivity]]).
Defined.

(** X17: the chat component sends one id for every piece between the
    commas of the settings field, the blank ones included, so at least
    one; this is the number of agents that the settings drawer reports.
    The panel would send the same list without its blank pieces. *)
Theorem settings_ids_include_blanks (orchestrationAgentIds : jsstring)
    (r : Fetched unit) (status_result : Fetched (option StatusData))
    (w : World) :
  exists sent rest,
    requests (handleInitializeOrchestration orchestrationAgentIds r
                status_result w)
    = requests w ++ initialize_request sent :: rest
    /\ length sent = active_agents orchestrationAgentIds
    /\ active_agents orchestrationAgentIds
       = S (length (filter (fun c => c = 44%N) orchestrationAgentIds))
    /\ agentIdList orchestrationAgentIds = filter (fun id => id <> []) sent
    /\ rest = match r with
              | Responded true _ => [status_request]
              | _ => []
              end.
Proof.
  exists (trim <$> split 44%N orchestrationAgentIds).
  eexists. split; [|split; [|split; [|split; [|reflexivity]]]].
  - unfold handleInitializeOrchestration. destruct r as [e|[] u]; try done.
    rewrite fetchOrchestrationStatus_requests. simpl.
    by rewrite <- app_assoc.
  - unfold active_agents. by rewrite length_fmap.
  - apply split_length.
  - done.
Qed.

(** X20: the panel sends its chat request exactly when the message is
    not blank and the status it holds is [initialized]: never after a
    successful clean-up, and always after an initialization that the
    server answers with that status. *)
Theorem panel_query_needs_initialization (r : Fetched (option PanelReply))
    (p : Panel) :
  panel_requests (processOrchestrationQuery r p)
  = panel_requests p
    ++ (if negb (blank (panel_message p))
           && is_string (panel_status p) (str "initialized")
        then [panel_chat_request (panel_message p)] else [])
  /\ (forall cleaned,
        panel_requests
          (processOrchestrationQuery r
             (cleanupOrchestration (Responded true cleaned) p))
        = panel_requests p ++ [cleanup_request])
  /\ (forall s data,
        form s = p ->
        agentIdList (agentIds s) <> [] ->
        blank (panel_message p) = false ->
        agent_info_status data = Some (str "initialized") ->
        panel_requests
          (processOrchestrationQuery r
             (form (initializeOrchestration (Responded true (Some data)) s)))
        = panel_requests p
          ++ [initialize_request (agentIdList (agentIds s));
              panel_chat_request (panel_message p)]).
Proof.
  split; [apply processOrchestrationQuery_requests|]. split.
  - intros cleaned. rewrite processOrchestrationQuery_requests.
    cbn [cleanupOrchestration panel_status panel_message panel_requests
         is_string].
    by rewrite andb_false_r, app_nil_r.
  - intros s data <- Hids Hblank Hstatus.
    rewrite processOrchestrationQuery_requests.
    destruct (initializeOrchestration_status data s Hids) as [-> ->].
    rewrite Hblank, Hstatus, initializeOrchestration_requests.
    destruct (agentIdList (agentIds s)) as [|id ids]; [done|].
    simpl. by rewrite <- app_assoc.
Qed.

Lemma panel_query_needs_initialization_witness :
  panel_requests
    (processOrchestrationQuery panel_answer
       (form (initializeOrchestration initialized_reply
                {| form := ready_panel; agentIds := str "a1";
                   isInitializing := false |})))
  = [initialize_request [str "a1"]; panel_chat_request (str "hi")].
Proof.
  refine (proj2 (proj2 (panel_query_needs_initialization panel_answer
                          ready_panel))
            {| form := ready_panel; agentIds := str "a1";
               isInitializing := false |}
            {| agent_info_status := Some (str "initialized");
               init_detail := None |} eq_refl _ eq_refl eq_refl).
  done.
Defined.

(** ** Calls, renders and tasks *)

(** The handlers of the earlier sections are those of the render
    current at the call. *)
Lemma startAgentThinkingPolling_current w :
  startAgentThinkingPolling w = startAgentThinkingPolling_of (render_of w) w.
Proof. done. Qed.

Lemma revalidate_status_answer status_result w :
  revalidate status_result w
  = status_answer status_result (fetch status_request w).
Proof. by destruct status_result as [e|[] [data|]]. Qed.

Lemma readStream_read_arrives parse st reads w :
  (readStream parse reads st w).2
  = match read_arrives parse st reads w with
    | (Some (Reads st' reads'), w') => (readStream parse reads' st' w').2
    | (_, w') => w'
    end.
Proof.
  destruct reads as [|textChunk reads]; [done|]. simpl.
  by destruct (processBuffer parse _ _ w) as [[[] st'] w'].
Qed.

Lemma complete_resume parse t w :
  complete parse t w
  = match resume parse t w with
    | (Some t', w') => complete parse t' w'
    | (None, w') => w'
    end.
Proof.
  destruct t as [r message status_result chat_result|r u chat_result|st reads];
    simpl.
  - by destruct (status_answer status_result w).
  - unfold complete_chat, chat_answer.
    destruct chat_result as [e|[] response]; try done.
    destruct u.
    + destruct (as_json response) as [reply|]; [|done].
      cbn beta iota zeta delta [draw].
      by destruct (is_string _ _), (orchestration_result reply).
    + by destruct (as_stream response).
  - destruct reads as [|textChunk reads]; [done|]. simpl.
    by destruct (processBuffer parse _ _ w) as [[[] st'] w'].
Qed.

Lemma onSend_dispatch_complete parse useOrchestration message chat_result w :
  onSend_dispatch parse useOrchestration message chat_result w
  = complete_chat parse useOrchestration chat_result
      (onSend_request (render_of w) useOrchestration message w).
Proof.
  unfold onSend_dispatch, complete_chat, chat_answer, onSend_request.
  rewrite startAgentThinkingPolling_current.
  change (render_of (setIsResponding true w)) with (render_of w).
  change (showAgentThinking (setIsResponding true w))
    with (const_showAgentThinking (render_of w)).
  destruct useOrchestration; cbn [chat_request andb].
  - destruct chat_result as [e|[] response]; try done.
    destruct (as_json response) as [reply|]; [|done].
    cbn beta iota zeta delta [draw].
    by destruct (is_string _ _), (orchestration_result reply).
  - destruct chat_result as [e|[] response]; try done.
    by destruct (as_stream response).
Qed.

(** The choice of the endpoint does not read the cached flag. *)
Lemma onSend_request_ext r r' useOrchestration message w :
  const_showAgentThinking r = const_showAgentThinking r' ->
  const_isOrchestrationMode r = const_isOrchestrationMode r' ->
  const_isPollingThinking r = const_isPollingThinking r' ->
  onSend_request r useOrchestration message w
  = onSend_request r' useOrchestration message w.
Proof.
  unfold onSend_request, startAgentThinkingPolling_of. by intros -> -> ->.
Qed.

(** [onSend] of the earlier sections is a call through the render
    current at the call that nothing interrupts. *)
Lemma onSend_uninterrupted parse message status_result chat_result w :
  onSend parse message status_result chat_result w
  = complete parse
      (onSend_call (render_of w) message status_result chat_result w).1
      (onSend_call (render_of w) message status_result chat_result w).2.
Proof.
  unfold onSend, onSend_call. cbn beta iota zeta delta [draw].
  change (isOrchestrationMode (push _ _)) with (isOrchestrationMode w).
  change (orchestrationInitialized (push _ _)) with (orchestrationInitialized w).
  change (const_isOrchestrationMode (render_of w)) with (isOrchestrationMode w).
  change (const_orchestrationInitialized (render_of w))
    with (orchestrationInitialized w).
  destruct (isOrchestrationMode w && negb (orchestrationInitialized w)).
  - cbn [fst snd complete]. rewrite revalidate_status_answer.
    destruct (status_answer status_result _) as [u w1] eqn:Hs.
    rewrite onSend_dispatch_complete. f_equal.
    apply onSend_request_ext;
      destruct status_result as [e|[] [data|]]; simpl in Hs;
      try (by injection Hs as <- <-);
      destruct (_ && _); by injection Hs as <- <-.
  - cbn [fst snd complete]. by rewrite onSend_dispatch_complete.
Qed.

Lemma onSend_request_transcript r useOrchestration message w :
  store (onSend_request r useOrchestration message w) = store w
  /\ messageList (onSend_request r useOrchestration message w) = messageList w
  /\ requests (onSend_request r useOrchestration message w)
     = requests w ++ [chat_request useOrchestration message].
Proof.
  unfold onSend_request, startAgentThinkingPolling_of.
  destruct (useOrchestration && const_showAgentThinking r); [|done].
  by destruct (const_showAgentThinking r && const_isOrchestrationMode r
               && negb (const_isPollingThinking r)).
Qed.

(** What a call does before its first [await]: the user's turn, and one
    request, chosen by the constants of the render. *)
Lemma onSend_call_spec r message status_result chat_result w :
  let revalidation :=
    const_isOrchestrationMode r && negb (const_orchestrationInitialized r) in
  let useOrchestration :=
    const_isOrchestrationMode r && const_orchestrationInitialized r in
  (onSend_call r message status_result chat_result w).1
  = (if revalidation then AwaitsStatus r message status_result chat_result
     else AwaitsChat r useOrchestration chat_result)
  /\ store (onSend_call r message status_result chat_result w).2
     = store w ++ [userMessage (entropy w) message]
  /\ messageList (onSend_call r message status_result chat_result w).2
     = messageList w ++ [length (store w)]
  /\ requests (onSend_call r message status_result chat_result w).2
     = requests w
       ++ [if revalidation then status_request
           else chat_request useOrchestration message].
Proof.
  unfold onSend_call. cbn beta iota zeta delta [draw].
  destruct (const_isOrchestrationMode r && negb _); [done|].
  cbn [fst snd].
  match goal with |- context [onSend_request r ?u message ?w1] =>
    by destruct (onSend_request_transcript r u message w1) as (-> & -> & ->)
  end.
Qed.

(** The handlers of the settings drawer and the poller's tick leave the
    transcript and the responding flag alone. *)
Lemma settings_transcript parse p a :
  of_settings a = true ->
  messageList (world (step parse p a)) = messageList (world p)
  /\ isResponding (world (step parse p a)) = isResponding (world p)
  /\ tasks (step parse p a) = tasks p
  /\ chatContext (step parse p a) = chatContext p.
Proof.
  assert (Hsame : forall w,
    messageList w = messageList (world p)
    /\ isResponding w = isResponding (world p) ->
    messageList (world (rendered_again false p w (tasks p)))
    = messageList (world p)
    /\ isResponding (world (rendered_again false p w (tasks p)))
       = isResponding (world p)
    /\ tasks (rendered_again false p w (tasks p)) = tasks p
    /\ chatContext (rendered_again false p w (tasks p)) = chatContext p).
  { intros w [Hm Hr]. unfold rendered_again. simpl. rewrite Hm, Hr.
    rewrite bool_decide_eq_false_2 by (by intros H).
    by destruct (isResponding (world p)). }
  assert (Hstatus : forall r w,
    messageList (fetchOrchestrationStatus r w) = messageList w
    /\ isResponding (fetchOrchestrationStatus r w) = isResponding w).
  { intros r w. unfold fetchOrchestrationStatus.
    destruct r as [e|[] [data|]]; try done. by destruct (is_string _ _). }
  destruct a; try done; intros _; cbn [step]; apply Hsame.
  - unfold handleOrchestrationModeChange. destruct enabled; [|done].
    cbn [negb]. cbv iota zeta.
    by destruct (Hstatus r (setIsOrchestrationMode true (world p)))
      as [-> ->].
  - destruct (isOrchestrationMode (world p)); [|done]. apply Hstatus.
  - done.
  - unfold handleInitializeOrchestration. destruct r as [e|[] u]; try done.
    match goal with |- context [fetchOrchestrationStatus _ ?w] =>
      by destruct (Hstatus status_result w) as [-> ->] end.
  - unfold handleCleanupOrchestration. by destruct r as [e|[] u].
  - unfold interval_elapses.
    induction (timers (world p)) as [|t l IH] using rev_ind; [done|].
    rewrite foldl_app. cbn [foldl]. destruct IH as [<- <-].
    unfold fetchAgentThinking. destruct r as [e|[] [data|]]; try done.
    by destruct (is_string _ _).
Qed.

Lemma issued_Send parse p message status_result chat_result :
  issued parse p (Send message status_result chat_result)
  = [ if const_isOrchestrationMode (chatContext p)
         && negb (const_orchestrationInitialized (chatContext p))
      then status_request
      else chat_request
             (const_isOrchestrationMode (chatContext p)
              && const_orchestrationInitialized (chatContext p)) message ].
Proof.
  unfold issued. cbn [step].
  destruct (onSend_call_spec (chatContext p) message status_result chat_result
              (world p)) as (_ & _ & _ & Hreq).
  destruct (onSend_call (chatContext p) message status_result chat_result
              (world p)) as [t w]. cbn [world rendered_again snd] in *.
  rewrite Hreq. by rewrite drop_app_length.
Qed.

(** The updater of [appendAssistantMessage], when it runs at once. *)
Lemma appendAssistantMessage_updater c acc b anns html w :
  preprocessContent acc anns = Some html ->
  appendAssistantMessage c acc b anns w
  = replace_last_with_copy c (upd_store (alter (with_content html) c) w).
Proof. intros Hp. unfold appendAssistantMessage. by rewrite Hp. Qed.

(** Whenever the updater runs, the last element gives way to a copy of
    the turn as it then is, and the elements before it stay. *)
Lemma replace_last_with_copy_spec c item w :
  store w !! c = Some item ->
  messageList (replace_last_with_copy c w)
  = take (length (messageList w) - 1) (messageList w) ++ [length (store w)]
  /\ store (replace_last_with_copy c w) = store w ++ [item].
Proof.
  intros Hc. unfold replace_last_with_copy. rewrite Hc. simpl.
  by rewrite slice_0_m1_take.
Qed.

(** ** Claims about the page *)

(** C5: the revalidation is missed by the send that follows the switch
    to orchestration mode. The chat input calls the [onSend] of the
    render before the switch, because the switch changes neither
    [messageList] nor [isResponding]: with the mode on and the cached
    flag off, whatever the message and whatever the server would
    answer, the send asks no status and posts the message to the
    single-agent endpoint. Once the context is new (here after New
    Chat) the same send asks the status endpoint and, told
    [initialized], posts the query to the orchestration endpoint. *)
Theorem stale_onSend_skips_revalidation (parse : jsstring -> option SSEData)
    (message : jsstring) (status_result : Fetched (option StatusData))
    (chat_result : Fetched ChatPayload) :
  let before := run parse toggled_on in
  let send := Send message status_result chat_result in
  let renewed := step parse before NewThread in
  let asked := Send message status_initialized chat_result in
  isOrchestrationMode (world before) = true
  /\ orchestrationInitialized (world before) = false
  /\ revalidates (world before) = true
  /\ const_isOrchestrationMode (chatContext before) = false
  /\ issued parse before send = [message_request message]
  /\ tasks (step parse before send)
     = [Some (AwaitsChat (render_of initial) false chat_result)]
  /\ issued parse renewed asked = [status_request]
  /\ issued parse (step parse renewed asked) (Resumes 0)
     = [query_request message].
Proof. by vm_compute. Qed.

(** C8: two sends that overlap leave a timer that nothing stops. Both
    calls read the constant [isPollingThinking] of their render, which
    is false, so both pass the guard of [startAgentThinkingPolling]:
    two timers are live, and the window global names the second one
    only. When the answers arrive the first stop clears the second
    timer and the second stop finds no handle: the first timer goes on
    ticking, with the flag off and no request outstanding. *)
Theorem overlapping_sends_leak_a_timer :
  let started := run example_parse two_sends in
  let settled := run example_parse (two_sends ++ [Resumes 0; Resumes 1]) in
  timers (world (run example_parse thinking_on)) = []
  /\ timers (world started) = [1; 2]%nat
  /\ agentThinkingInterval (world started) = Some 2%nat
  /\ tasks settled = [None; None]
  /\ timers (world settled) = [1%nat]
  /\ agentThinkingInterval (world settled) = None
  /\ isPollingThinking (world settled) = false
  /\ isResponding (world settled) = false
  /\ stopAgentThinkingPolling (world settled) = world settled
  /\ issued example_parse settled (IntervalElapses (Responded false None))
     = [thinking_request].
Proof. by vm_compute. Qed.

(** C9: the two senders of the client disagree on the body they post
    to the orchestration chat endpoint: [onSend] posts the text under
    [query], the panel's [processOrchestrationQuery] posts it under
    [message]. *)
Theorem orchestration_chat_bodies_differ (parse : jsstring -> option SSEData)
    (message : jsstring) (status_result : Fetched (option StatusData))
    (chat_result : Fetched ChatPayload) (w : World)
    (answer : Fetched (option PanelReply)) (p : Panel) :
  uses_orchestration status_result w = true ->
  panel_message p = message ->
  blank message = false ->
  is_string (panel_status p) (str "initialized") = true ->
  last (requests (onSend parse message status_result chat_result w))
  = Some {| url := orchestration_chat_url; method := POST;
            body := Some [(str "query", Text message)] |}
  /\ last (panel_requests (processOrchestrationQuery answer p))
     = Some {| url := orchestration_chat_url; method := POST;
               body := Some [(str "message", Text message)] |}
  /\ Some [(str "query", Text message)]
     <> Some [(str "message", Text message)].
Proof.
  intros Huse Hmessage Hblank Hstatus.
  destruct (onSend_requests parse message status_result chat_result w)
    as [-> _].
  rewrite processOrchestrationQuery_requests, Hmessage, Hblank, Hstatus, Huse.
  cbn [negb andb]. rewrite !app_assoc, !last_snoc.
  split; [done|]. split; [done|]. by intros [= H].
Qed.

Lemma orchestration_chat_bodies_differ_witness :
  last (requests (onSend example_parse (str "hi") no_status
                    orchestration_answer thinking_world))
  = Some (query_request (str "hi"))
  /\ last (panel_requests (processOrchestrationQuery panel_answer ready_panel))
     = Some (panel_chat_request (str "hi")).
Proof.
  destruct (orchestration_chat_bodies_differ example_parse (str "hi")
              no_status orchestration_answer thinking_world panel_answer
              ready_panel eq_refl eq_refl eq_refl eq_refl) as (Hq & Hm & _).
  split; [exact Hq | exact Hm].
Defined.



(** X18: a handler of the settings drawer (the mode switch and its
    effect, the thinking switch, initialize, clean-up) and a tick of
    the poller do not reach the next send: the chat input keeps the
    [onSend] it holds, so the next send issues the request that it
    would have issued before, chosen by the constants of the old
    render. *)
Theorem settings_do_not_reach_the_next_send
    (parse : jsstring -> option SSEData) (p : Page) (a : Action)
    (message : jsstring) (status_result : Fetched (option StatusData))
    (chat_result : Fetched ChatPayload) :
  of_settings a = true ->
  let p' := step parse p a in
  let send := Send message status_result chat_result in
  chatContext p' = chatContext p
  /\ issued parse p' send = issued parse p send
  /\ tasks (step parse p' send) = tasks (step parse p send)
  /\ issued parse p' send
     = [ if const_isOrchestrationMode (chatContext p)
            && negb (const_orchestrationInitialized (chatContext p))
         then status_request
         else chat_request
                (const_isOrchestrationMode (chatContext p)
                 && const_orchestrationInitialized (chatContext p)) message ].
Proof.
  intros Hset p' send.
  destruct (settings_transcript parse p a Hset) as (_ & _ & Htasks & Hctx).
  fold p' in Htasks, Hctx. unfold send.
  rewrite !issued_Send, Hctx. split; [done|]. split; [done|]. split; [|done].
  cbn [step].
  destruct (onSend_call_spec (chatContext p) message status_result chat_result
              (world p')) as (Ht' & _).
  destruct (onSend_call_spec (chatContext p) message status_result chat_result
              (world p)) as (Ht & _).
  rewrite Hctx.
  destruct (onSend_call (chatContext p) message status_result chat_result
              (world p')) as [t' w'].
  destruct (onSend_call (chatContext p) message status_result chat_result
              (world p)) as [t w].
  cbn [fst snd rendered_again tasks] in *. by rewrite Htasks, Ht, Ht'.
Qed.

Lemma settings_do_not_reach_the_next_send_witness :
  let confirmed :=
    step example_parse (run example_parse toggled_on)
      (InitializeOrchestration (str "a1") (Responded true tt)
         status_initialized) in
  orchestrationInitialized (world confirmed) = true
  /\ isOrchestrationMode (world confirmed) = true
  /\ issued example_parse confirmed
       (Send (str "hi") no_status orchestration_answer)
     = [message_request (str "hi")].
Proof.
  split; [reflexivity|]. split; [reflexivity|].
  exact (proj2 (proj2 (proj2
           (settings_do_not_reach_the_next_send example_parse
              (run example_parse toggled_on)
              (InitializeOrchestration (str "a1") (Responded true tt)
                 status_initialized)
              (str "hi") no_status orchestration_answer eq_refl)))).
Defined.

(** X19: a delta of an open stream that arrives after a later send has
    appended its user turn takes that turn off the list: the update
    replaces the last element, whatever it is, by the copy of the open
    turn. *)
Theorem delta_replaces_a_later_user_turn (parse : jsstring -> option SSEData)
    (r : Render) (message : jsstring)
    (status_result : Fetched (option StatusData))
    (chat_result : Fetched ChatPayload) (chunk s : jsstring) (data : SSEData)
    (c : nat) (st : StreamState) (w : World) :
  startsWith chunk (str "data: ") = true ->
  parse (slice chunk 6 None) = Some data ->
  is_delta data ->
  chatItem st = Some c ->
  (c < length (store w))%nat ->
  c ∉ messageList w ->
  transcript_ok w ->
  accumulatedContent st = VString s ->
  annotations st = Some [] ->
  let sent := (onSend_call r message status_result chat_result w).2 in
  let updated := (handleRecord parse chunk st sent).2 in
  contents sent = contents w ++ [Some (VString message)]
  /\ contents updated
     = contents w
       ++ [Some (VString (s ++ template (of_field (ev_content data))))].
Proof.
  intros Hstart Hparse (Herr & Hend & Hrun & Hcompleted) Hst Hc Hnotin Hok
    Hacc Hanns sent updated.
  destruct (onSend_call_spec r message status_result chat_result w)
    as (_ & Hs & Hm & _). fold sent in Hs, Hm.
  unfold transcript_ok in Hok. rewrite Forall_forall in Hok.
  split.
  { unfold contents. rewrite Hs, Hm, fmap_app. f_equal.
    - apply Forall_fmap_ext_1, Forall_forall. intros a Ha.
      specialize (Hok a Ha). simpl in Hok. by rewrite lookup_app_l.
    - simpl. by rewrite list_lookup_middle. }
  destruct (lookup_lt_is_Some_2 (store sent) c) as [item Hitem].
  { rewrite Hs, length_app. lia. }
  unfold updated, handleRecord.
  rewrite Hstart, Hparse, Herr, Hend, Hrun, Hcompleted.
  unfold ensure_chatItem. rewrite Hst. cbn [snd fst].
  cbn [accumulatedContent isStreaming annotations set_accumulatedContent].
  rewrite Hacc, Hanns, add_template.
  rewrite (appendAssistantMessage_eq c _ _ (Some []) _ item sent eq_refl Hitem).
  unfold contents. cbn [store messageList upd_store setMessageList].
  rewrite slice_0_m1_take, Hm, length_app, Nat.add_1_r.
  cbn [length]. rewrite Nat.sub_succ, Nat.sub_0_r, take_app_length.
  rewrite fmap_app. f_equal.
  - rewrite Hs. apply Forall_fmap_ext_1, Forall_forall. intros a Ha.
    assert (a <> c) by (by intros ->).
    specialize (Hok a Ha). simpl in Hok.
    rewrite lookup_app_l by (rewrite length_alter, length_app; lia).
    rewrite list_lookup_alter_ne by done. by rewrite lookup_app_l.
  - cbn [fmap list_fmap]. f_equal.
    rewrite lookup_app_r by (by rewrite length_alter).
    by rewrite length_alter, Nat.sub_diag.
Qed.

Lemma delta_replaces_a_later_user_turn_witness :
  let w := world (run delta_parse (take 3 interleaved_sends)) in
  contents w = [Some (VString (str "hi")); Some (VString (str "Hi"))]
  /\ contents (world (run delta_parse interleaved_sends))
     = [Some (VString (str "hi")); Some (VString (str "Hi"));
        Some (VString (str "Hi there"))]
  /\ contents
       (handleRecord delta_parse
          (str "data: " ++ lit "{'type':'delta','content':' there'}")
          after_first_delta
          (onSend_call (render_of w) (str "more") no_status network_down w).2).2
     = contents w ++ [Some (VString (str "Hi there"))].
Proof.
  intros w. split; [reflexivity|]. split; [reflexivity|].
  refine (proj2 (delta_replaces_a_later_user_turn delta_parse (render_of w)
                   (str "more") no_status network_down
                   (str "data: " ++ lit "{'type':'delta','content':' there'}")
                   (str "Hi")
                   (delta_event (str " there")) 1%nat after_first_delta w
                   eq_refl eq_refl _ eq_refl _ _ _ eq_refl eq_refl)).
  - by repeat split.
  - vm_compute. lia.
  - assert (H : forall l : list nat,
              bool_decide (1%nat ∉ l) = true -> 1%nat ∉ l).
    { intros l. apply bool_decide_eq_true_1. }
    by apply H.
  - unfold transcript_ok. apply Forall_forall. intros a Ha.
    assert (H : a = 0%nat \/ a = 2%nat).
    { vm_compute in Ha. apply elem_of_cons in Ha as [->|Ha]; [by left|].
      apply elem_of_cons in Ha as [->|Ha]; [by right|].
      by apply elem_of_nil in Ha. }
    vm_compute. destruct H as [-> | ->]; lia.
Defined.
